(** * student-buddy-backend: the recommendation server, embedded in Rocq

    A shallow embedding of [src/server.js]: the response cache, the
    request-deduplication map, the weighted interest profile, the course
    scorer, the generation gateway with its retry and fallback chain, and
    the per-platform pipelines of the [/recommend] handler.

    Conventions.
    - JavaScript strings are [string]s.  [toLowerCase] and [trim] are
      those of the language on strings of ASCII characters
      ([JsString.isAscii]); what they do to other characters is not
      modelled, and a statement that depends on it is made for ASCII
      strings.
    - A JavaScript number is an IEEE 754 binary64 value, [spec_float] with
      precision 53 and maximal exponent 1024, rounded to nearest-even as the
      language prescribes.
    - [Map]s and plain objects used as dictionaries are [gmap]s of their
      own properties.  A plain object inherits the members of
      [Object.prototype] as well ([Prototype]): where the source reads a
      plain object under a computed key, the model looks the key up among
      the own properties first and among the inherited names next.
    - The fields of a request body are strings, or absent; the head of the
      handler, which is the only code to apply a string method to a field
      it has not tested, takes its topic as any value.
    - Timestamps ([Date.now()]) are integers, in milliseconds.
    - Code that can throw returns a [completion]; asynchronous code runs in
      the monad [M], which threads the shared cache and a log of the calls
      made to the outside.
    - The outside is a parameter: the answers of the generation service and
      of the providers ([world]), [JSON.parse], the printing of values, the
      URI encoder and the wording of the prompts.  The profile store is seen
      through the calls made to it: what [User.findOne] resolved to is an
      input, and [user.save()] is recorded with the profile the handler
      holds at that moment; what the store keeps of it is not modelled.
    - One process serves all requests.  A handler runs until it awaits;
      the event loop is a list of such turns ([Server.event]). *)

From Stdlib Require Import ZArith List String Ascii Bool Lia Sorted.
From Stdlib Require Import Floats.SpecFloat.
From stdpp Require Import gmap strings.
Import ListNotations.

Local Open Scope string_scope.
Local Open Scope Z_scope.

(** ** Strings *)

Module JsString.

Definition is_upper (c : ascii) : bool :=
  let n := nat_of_ascii c in (65 <=? n)%nat && (n <=? 90)%nat.

Definition lower_char (c : ascii) : ascii :=
  if is_upper c then ascii_of_nat (nat_of_ascii c + 32) else c.

(** [String.prototype.toLowerCase], as it acts on ASCII characters: the
    letters A to Z are lowered, every other character is kept. *)
Fixpoint toLowerCase (s : string) : string :=
  match s with
  | EmptyString => EmptyString
  | String c s' => String (lower_char c) (toLowerCase s')
  end.

(** The ASCII characters that [trim] removes: TAB, LF, VT, FF, CR and
    SPACE. *)
Definition is_white (c : ascii) : bool :=
  let n := nat_of_ascii c in
  ((9 <=? n)%nat && (n <=? 13)%nat) || (n =? 32)%nat.

Fixpoint trimStart (s : string) : string :=
  match s with
  | EmptyString => EmptyString
  | String c s' => if is_white c then trimStart s' else s
  end.

Fixpoint trimEnd (s : string) : string :=
  match s with
  | EmptyString => EmptyString
  | String c s' =>
      match trimEnd s' with
      | EmptyString => if is_white c then EmptyString else String c EmptyString
      | r => String c r
      end
  end.

(** [String.prototype.trim], as it acts on strings of ASCII characters. *)
Definition trim (s : string) : string := trimEnd (trimStart s).

(** [String.prototype.includes]: [sub] occurs somewhere in [s]. *)
Fixpoint includes (s sub : string) : bool :=
  if String.prefix sub s then true
  else match s with
       | EmptyString => false
       | String _ s' => includes s' sub
       end.

(** A string is truthy when it is not empty. *)
Definition truthy (s : string) : bool :=
  match s with EmptyString => false | _ => true end.

(** A string of ASCII characters. *)
Fixpoint isAscii (s : string) : bool :=
  match s with
  | EmptyString => true
  | String c s' => (nat_of_ascii c <? 128)%nat && isAscii s'
  end.

(** A string that does not begin with white space. *)
Definition clean_start (s : string) : Prop :=
  match s with
  | EmptyString => True
  | String c _ => is_white c = false
  end.

End JsString.

(** ** Completions: a value, or a thrown exception *)

(** What JavaScript code throws, as far as the server tells them apart:
    an axios rejection carries [err.response?.status]. *)
Inductive exn :=
| TypeError (msg : string)
| SyntaxError (msg : string)
| Error (msg : string)
| AxiosError (status : option Z).

Inductive completion (A : Type) : Type :=
| Normal (a : A)
| Throw (e : exn).
Arguments Normal {A} a.
Arguments Throw {A} e.

Definition isTypeError (e : exn) : Prop := ∃ msg, e = TypeError msg.

(** ** Plain objects

    An object literal, and a document field of type [Object], inherit the
    members of [Object.prototype]: reading [o[name]] finds such a member
    when [o] has no own property of that name. *)

Module Prototype.

(** The names of the members of [Object.prototype].  All are functions but
    [__proto__], an accessor: read, it gives [Object.prototype] itself;
    assigned a string or a number, it leaves the object as it is. *)
Definition members : list string :=
  [ "constructor"; "__defineGetter__"; "__defineSetter__"; "hasOwnProperty";
    "__lookupGetter__"; "__lookupSetter__"; "isPrototypeOf";
    "propertyIsEnumerable"; "toString"; "valueOf"; "__proto__";
    "toLocaleString" ].

Definition inherited (name : string) : bool :=
  existsb (String.eqb name) members.

End Prototype.

(** ** Scoring engine *)

Module Scoring.
Import JsString.

(** The static topic graph, by its own properties. *)
Definition topicGraph : gmap string (list string) :=
  list_to_map
    [ ("machine learning",
        ["deep learning"; "neural networks"; "ai"; "data science";
         "supervised learning"]);
      ("data structures",
        ["algorithms"; "time complexity"; "recursion"; "trees"; "graphs"]);
      ("dbms",
        ["sql"; "database design"; "normalization"; "transactions";
         "indexing"]);
      ("python",
        ["automation"; "data science"; "flask"; "django"; "pandas"]) ].

(** [terms.forEach(t => { if (title.includes(t)) score += bonus })] *)
Fixpoint forEach_bonus (title : string) (bonus : Z) (terms : list string)
                       (score : Z) : Z :=
  match terms with
  | [] => score
  | t :: rest =>
      forEach_bonus title bonus rest
        (if includes title t then score + bonus else score)
  end.

Definition directBonus (title baseTopic : string) (score : Z) : Z :=
  if includes title baseTopic then score + 5 else score.

Definition skillBonus (title : string) (score : Z) : Z :=
  let score := if includes title "beginner" then score + 1 else score in
  let score := if includes title "intermediate" then score + 2 else score in
  if includes title "advanced" then score + 3 else score.

(** [topicGraph[baseTopic] || []], as [related.forEach] finds it: the list
    of a topic of the graph, the empty list for an unknown topic, and for
    the name of an inherited member a function or an object, which is
    truthy and has no [forEach]. *)
Definition related (baseTopic : string) : completion (list string) :=
  match topicGraph !! baseTopic with
  | Some related => Normal related
  | None =>
      if Prototype.inherited baseTopic
      then Throw (TypeError "related.forEach is not a function")
      else Normal []
  end.

(** [scoreCourse(courseTitle, topic, dominantTopics)] *)
Definition scoreCourse (courseTitle topic : string)
                       (dominantTopics : list string) : completion Z :=
  let score := 0 in
  let title := toLowerCase courseTitle in
  let baseTopic := toLowerCase topic in
  let score := directBonus title baseTopic score in
  match related baseTopic with
  | Throw e => Throw e
  | Normal related =>
      let score := forEach_bonus title 3 related score in
      let score := forEach_bonus title 2 dominantTopics score in
      Normal (skillBonus title score)
  end.

End Scoring.


(** ** Numbers: IEEE 754 binary64 *)

Module Num.

Definition prec : Z := 53.
Definition emax : Z := 1024.

Definition mul : spec_float → spec_float → spec_float := SFmul prec emax.
Definition add : spec_float → spec_float → spec_float := SFadd prec emax.
Definition sub : spec_float → spec_float → spec_float := SFsub prec emax.
Definition ltb : spec_float → spec_float → bool := SFltb.
Definition leb : spec_float → spec_float → bool := SFleb.

(** The literals of the source. *)
Definition zero : spec_float := S754_zero false.
Definition one : spec_float := S754_finite false 4503599627370496 (-52).
(** [0.98]: the double nearest to 98/100, 0x1.f5c28f5c28f5cp-1. *)
Definition c098 : spec_float := S754_finite false 8827055269646172 (-53).

(** A number is falsy when it is [0], [-0] or [NaN]. *)
Definition truthy (x : spec_float) : bool :=
  match x with
  | S754_zero _ | S754_nan => false
  | _ => true
  end.

(** A positive finite double, normal or subnormal, in canonical form. *)
Definition pos_finite (x : spec_float) : bool :=
  match x with
  | S754_finite false m e => bounded prec emax m e
  | _ => false
  end.

(** The smallest positive double, 2^-1074 (about 4.9e-324), times [k]. *)
Definition tiny (k : positive) : spec_float := S754_finite false k (-1074).

(** The rounding of the exact positive value [M * 2^E] to a double. *)
Definition round (M E : Z) : spec_float :=
  binary_round_aux prec emax false M E loc_Exact.

(** The quotient [M / D] rounded to the nearest integer, ties to even:
    what the rounding of an exact product comes to. *)
Definition rne (M D : Z) : Z :=
  let q := M / D in
  match 2 * (M mod D) ?= D with
  | Lt => q
  | Gt => q + 1
  | Eq => if Z.even q then q else q + 1
  end.

(** The positive double of mantissa [m] and exponent [e], once [m] has at
    most 53 digits: finite up to the largest exponent, infinite above. *)
Definition finish (m e : Z) : spec_float :=
  match m with
  | Zpos p => if e <=? 971 then S754_finite false p e else S754_infinity false
  | Z0 => S754_zero false
  | Zneg _ => S754_nan
  end.

(** The mantissa and the exponent that rounding gives to the exact
    positive value [M * 2^E]: no shift when the mantissa fits, else a shift
    by [n] digits with rounding to nearest-even, and one more shift when
    that carries into a 54th digit. *)
Definition rounded (M : positive) (E : Z) : Z * Z :=
  let n := fexp 53 1024 (Zpos (digits2_pos M) + E) - E in
  if n <=? 0 then (Zpos M, E)
  else
    let m1 := rne (Zpos M) (2 ^ n) in
    if m1 =? 2 ^ 53 then (2 ^ 52, E + n + 1) else (m1, E + n).

(** The value of a positive double in units of 2^-1127, in which every
    double and every product of a double and [0.98] is an integer. *)
Definition fine (x : spec_float) : Z :=
  match x with
  | S754_finite false m e => Zpos m * 2 ^ (e + 1127)
  | _ => 0
  end.

(** [49] and [50]. *)
Definition fortynine : spec_float := S754_finite false 6896136929411072 (-47).
Definition fifty : spec_float := S754_finite false 7036874417766400 (-47).

End Num.

(** ** JavaScript values, as JSON gives them *)

#[local] Set Warnings "-register-all".
Inductive value :=
| VUndefined
| VNull
| VBool (b : bool)
| VNumber (x : spec_float)
| VString (s : string)
| VArray (items : list value)
| VObject (fields : list (string * value)).

Module Value.

Definition truthy (v : value) : bool :=
  match v with
  | VUndefined | VNull => false
  | VBool b => b
  | VNumber x => Num.truthy x
  | VString s => JsString.truthy s
  | VArray _ | VObject _ => true
  end.

Definition nullish (v : value) : bool :=
  match v with
  | VUndefined | VNull => true
  | _ => false
  end.

(** [a || b] *)
Definition or (a b : value) : value := if truthy a then a else b.

(** The last field of that name wins, as in [JSON.parse]. *)
Fixpoint field (fields : list (string * value)) (name : string) : value :=
  match fields with
  | [] => VUndefined
  | (k, v) :: rest =>
      match field rest name with
      | VUndefined => if String.eqb k name then v else VUndefined
      | later => later
      end
  end.

(** [v.name] on a [v] that is neither [undefined] nor [null], for one of
    the names this server reads ([candidates], [content], [parts], [text],
    [hints], ...), none of which an array or a primitive has. *)
Definition member (name : string) (v : value) : value :=
  match v with
  | VObject fields => field fields name
  | _ => VUndefined
  end.

(** [v[0]] on such a [v]: the first element of an array, the first
    character of a string, the field ["0"] of an object. *)
Definition item0 (v : value) : value :=
  match v with
  | VArray items => default VUndefined (head items)
  | VString (String c _) => VString (String c EmptyString)
  | VObject fields => field fields "0"
  | _ => VUndefined
  end.

(** [v.name]: a [TypeError] on [undefined] and [null]. *)
Definition get (v : value) (name : string) : completion value :=
  if nullish v then Throw (TypeError "Cannot read properties of undefined")
  else Normal (member name v).

(** One link [?.] of an optional chain: [undefined] on [undefined] and
    [null], the access otherwise. *)
Definition opt (access : value → value) (v : value) : value :=
  if nullish v then VUndefined else access v.

(** [xs.slice(0, n)] *)
Definition slice0 (n : nat) (xs : list value) : list value := take n xs.

End Value.

(** ** Response cache *)

Module Cache.
Section Cache.
Context {A : Type}.

Record entry := { data : A; timestamp : Z }.

Definition CACHE_TTL : Z := 1000 * 60 * 30.

(** [getCache(key)] when [Date.now()] reads [now]: the value returned
    ([None] for [null]) and the cache it leaves. *)
Definition getCache (key : string) (now : Z) (responseCache : gmap string entry)
  : option A * gmap string entry :=
  match responseCache !! key with
  | None => (None, responseCache)
  | Some entry =>
      let isExpired := CACHE_TTL <? now - timestamp entry in
      if isExpired then (None, delete key responseCache)
      else (Some (data entry), responseCache)
  end.

(** [setCache(key, data)] when [Date.now()] reads [now]. *)
Definition setCache (key : string) (data : A) (now : Z)
                    (responseCache : gmap string entry) : gmap string entry :=
  <[key := {| data := data; timestamp := now |}]> responseCache.

End Cache.
Arguments entry A : clear implicits.
End Cache.

(** ** Weighted interest profile *)

Module Profile.
Import JsString.

(** What [user.weightedProfile] holds under a key: a number, or the string
    that the update leaves under the name of an inherited function (see
    [reinforce]): [printed name] is the text of [Object.prototype[name]]
    followed by ["1"]. *)
Inductive weight :=
| number (x : spec_float)
| printed (name : string).

(** The number that [*=] and [-] read in a weight.  The text of a function
    is not the text of a number: it reads as [NaN]. *)
Definition toNumber (v : weight) : spec_float :=
  match v with
  | number x => x
  | printed _ => S754_nan
  end.

(** [user.weightedProfile]: its own properties, topic ↦ weight. *)
Abbreviation profile := (gmap string weight).

(** [for (let key in user.weightedProfile) user.weightedProfile[key] *= 0.98]:
    every entry is a number afterwards. *)
Definition decay (weightedProfile : profile) : gmap string spec_float :=
  (λ v, Num.mul (toNumber v) Num.c098) <$> weightedProfile.

(** [w || 0], [w] being a number or [undefined]. *)
Definition orZero (w : option spec_float) : spec_float :=
  match w with
  | Some x => if Num.truthy x then x else Num.zero
  | None => Num.zero
  end.

(** [topic && topic.trim() !== ""] on a string. *)
Definition hasTopic (topic : string) : bool :=
  truthy topic && negb (String.eqb (trim topic) "").

(** [topic.toLowerCase().trim()] *)
Definition normalize (t : string) : string := trim (toLowerCase t).

(** The [if (topic && topic.trim() !== "") { ... }] block, run on the
    decayed profile.  A truthy topic that is not a string has no [trim].
    [weightedProfile[normalized]] is the own entry when there is one; when
    there is none and [normalized] names an inherited member, it is that
    member, which is truthy: under [__proto__] the assignment of the string
    [member + 1] does nothing, under any other such name it stores the
    string. *)
Definition reinforce (topic : value) (decayed : gmap string spec_float)
  : completion profile :=
  let weightedProfile : profile := number <$> decayed in
  match topic with
  | VString t =>
      if hasTopic t then
        let normalized := normalize t in
        match decayed !! normalized with
        | None =>
            if String.eqb normalized "__proto__" then Normal weightedProfile
            else if Prototype.inherited normalized then
              Normal (<[normalized := printed normalized]> weightedProfile)
            else
              Normal (<[normalized := number (Num.add (orZero None) Num.one)]>
                        weightedProfile)
        | own =>
            Normal (<[normalized := number (Num.add (orZero own) Num.one)]>
                      weightedProfile)
        end
      else Normal weightedProfile
  | _ =>
      if Value.truthy topic
      then Throw (TypeError "topic.trim is not a function")
      else Normal weightedProfile
  end.

(** Calls to the profile store (the mongoose model [User]): [Save] is
    [user.save()], with the profile the handler holds when it calls. *)
Inductive store_call :=
| FindOne (userId : string)
| Save (userId : string) (weightedProfile : profile).

(** The head of the [/recommend] handler, up to [await user.save()]:
    [found] is what [User.findOne] resolved to, [topic] the field of the
    body.  It gives the calls made to the store and the profile the rest of
    the handler reads, or what was thrown in between. *)
Definition loadAndUpdate (userId : string) (found : option profile)
                         (topic : value)
  : list store_call * completion profile :=
  let weightedProfile := default ∅ found in
  let decayed := decay weightedProfile in
  match reinforce topic decayed with
  | Normal weightedProfile =>
      ([FindOne userId; Save userId weightedProfile], Normal weightedProfile)
  | Throw e => ([FindOne userId], Throw e)
  end.

(** [n] requests without topic in a row, each finding the profile the one
    before held. *)
Fixpoint decayOnly (userId : string) (n : nat) (weightedProfile : profile)
  : profile :=
  match n with
  | O => weightedProfile
  | S k =>
      match snd (loadAndUpdate userId (Some weightedProfile) VUndefined) with
      | Normal updated => decayOnly userId k updated
      | Throw _ => weightedProfile
      end
  end.

(** Every weight is a positive, finite number. *)
Definition all_positive (weightedProfile : profile) : Prop :=
  ∀ k v, weightedProfile !! k = Some v →
         ∃ x, v = number x ∧ Num.pos_finite x = true.

(** Every weight is a positive number, 50 at most. *)
Definition in_range (weightedProfile : profile) : Prop :=
  ∀ k v, weightedProfile !! k = Some v →
         ∃ x, v = number x ∧ Num.pos_finite x = true
              ∧ Num.leb x Num.fifty = true.


(** A topic that is not counted: a falsy value, or a string of white
    space. *)
Definition uncounted (topic : value) : Prop :=
  match topic with
  | VString t => hasTopic t = false
  | _ => Value.truthy topic = false
  end.


End Profile.

(** ** Dominant interests *)

Module Interests.
Import JsString Profile.

(** [(a, b) => b[1] - a[1]] on two entries of a profile. *)
Definition byWeight (a b : string * weight) : spec_float :=
  Num.sub (toNumber (snd b)) (toNumber (snd a)).

(** [a] may stand before [b] in a list ranked by weight. *)
Definition outweighs (a b : string * weight) : Prop :=
  Num.leb (toNumber (snd b)) (toNumber (snd a)) = true.

Section Sort.
Context {A : Type}.
Variable compare : A → A → spec_float.

(** [x] has to come after [y]: [compare(x, y) > 0].  A comparator that
    returns [NaN] is read as returning [0]. *)
Definition follows (x y : A) : bool := Num.ltb Num.zero (compare x y).

Fixpoint insert (x : A) (sorted : list A) : list A :=
  match sorted with
  | [] => [x]
  | y :: rest => if follows x y then y :: insert x rest else x :: sorted
  end.

(** [xs.sort(compare)].  The sort of the language is stable, and for a
    comparator that orders the elements consistently its result is the one
    computed here: every element is put before the first one it need not
    follow.  For other comparators the language leaves the order to the
    engine. *)
Definition sort (xs : list A) : list A := foldr insert [] xs.

End Sort.

Section Interests.
(** [Object.entries(o)] lists the entries of [o] in the property order of
    the engine; [`${count}`] prints a weight. *)
Variable Object_entries : profile → list (string * weight).
Variable Weight_toString : weight → string.

(** [extractDominantTopics(weightedProfile)]; [None] is a missing
    profile. *)
Definition extractDominantTopics (weightedProfile : option profile)
  : list string :=
  match weightedProfile with
  | None => []
  | Some weightedProfile =>
      map (λ entry, toLowerCase (fst entry))
        (take 5 (sort byWeight (Object_entries weightedProfile)))
  end.

(** [`${topic} (${count} interactions)`] *)
Definition interest (entry : string * weight) : string :=
  fst entry ++ " (" ++ Weight_toString (snd entry) ++ " interactions)".

(** [buildUserProfileSummary(historyObject)] *)
Definition buildUserProfileSummary (historyObject : option profile) : string :=
  match historyObject with
  | None => ""
  | Some historyObject =>
      let sorted := take 5 (sort byWeight (Object_entries historyObject)) in
      if (length sorted =? 0)%nat then ""
      else
        let summary := String.concat ", " (map interest sorted) in
        "User dominant interests: " ++ summary
  end.

End Interests.
End Interests.

(** ** Asynchronous code: a log of outside calls, the shared cache, errors *)

Inductive endpoint :=
| Primary     (* gemini-2.5-flash *)
| Fallback.   (* gemini-1.5-pro *)

Inductive effect :=
| Post (url : endpoint) (prompt : string)   (* axios.post(url, payload) *)
| Sleep (ms : Z)                            (* setTimeout(res, ms) *)
| LeetCodeQuery (topic : string)
| YouTubeQuery (topic : string).

(** How an [axios.post] settles: with [response.data], or rejected with
    [err.response?.status] ([None] when there was no response at all). *)
Inductive http_outcome :=
| Responded (data : value)
| Failed (status : option Z).

(** The outside world, as seen during one computation. *)
Record world := {
  (** the answer to a post to [url], [n] posts to it having been made *)
  axios_post : endpoint → string → nat → http_outcome;
  (** [fetchLeetCodeCandidates(topic)] and [fetchYouTubeResults(topic)] *)
  leetcode : string → completion (list value);
  youtube : string → completion (list value);
  (** what [Date.now()] reads when the computation stores its result *)
  now : Z;
}.

Record state := {
  responseCache : gmap string (Cache.entry value);
  log : list effect;
}.

Definition M (A : Type) : Type := state → completion A * state.

Definition ret {A} (a : A) : M A := λ s, (Normal a, s).
Definition throw {A} (e : exn) : M A := λ s, (Throw e, s).
Definition lift {A} (c : completion A) : M A := λ s, (c, s).

Definition bindM {A B} (c : M A) (k : A → M B) : M B := λ s,
  match c s with
  | (Normal a, s') => k a s'
  | (Throw e, s') => (Throw e, s')
  end.

(** [try { c } catch (err) { h err }] *)
Definition catch {A} (c : M A) (h : exn → M A) : M A := λ s,
  match c s with
  | (Normal a, s') => (Normal a, s')
  | (Throw e, s') => h e s'
  end.

Notation "'let!' x := c 'in' k" := (bindM c (λ x, k))
  (at level 10, x name, c at level 100, k at level 200).
Notation "'do!' c 'in' k" := (bindM c (λ _, k))
  (at level 10, c at level 100, k at level 200).

Definition emit (e : effect) : M unit := λ s,
  (Normal tt, {| responseCache := responseCache s; log := log s ++ [e] |}).

(** A computation that touches no cache entry but that of [key]. *)
Definition writes_only {A} (key : string) (c : M A) : Prop :=
  ∀ s k, k ≠ key → responseCache (snd (c s)) !! k = responseCache s !! k.

Definition same_endpoint (a b : endpoint) : bool :=
  match a, b with
  | Primary, Primary | Fallback, Fallback => true
  | _, _ => false
  end.

(** How many posts to [url] the log holds. *)
Fixpoint posts_to (url : endpoint) (l : list effect) : nat :=
  match l with
  | [] => O
  | Post u _ :: rest =>
      if same_endpoint u url then S (posts_to url rest) else posts_to url rest
  | _ :: rest => posts_to url rest
  end.

(** The time a log spends in pauses, in milliseconds. *)
Fixpoint slept (l : list effect) : Z :=
  match l with
  | [] => 0
  | Sleep ms :: rest => ms + slept rest
  | _ :: rest => slept rest
  end.

(** ** Generation gateway *)

Module Gateway.
Section Gateway.
Variable w : world.

(** [await axios.post(url, payload)]: the value is [response.data]. *)
Definition post (url : endpoint) (prompt : string) : M value := λ s,
  let s' := {| responseCache := responseCache s;
               log := log s ++ [Post url prompt] |} in
  match axios_post w url prompt (posts_to url (log s)) with
  | Responded data => (Normal data, s')
  | Failed status => (Throw (AxiosError status), s')
  end.

(** [await new Promise(res => setTimeout(res, ms))] *)
Definition sleep (ms : Z) : M unit := emit (Sleep ms).

(** [err.response?.status === 429] *)
Definition rateLimited (err : exn) : bool :=
  match err with
  | AxiosError (Some status) => status =? 429
  | _ => false
  end.

(** [callGeminiWithRetry(url, payload, retries)] *)
Fixpoint callGeminiWithRetry (url : endpoint) (payload : string)
                             (retries : nat) : M value :=
  catch (post url payload) (λ err,
    match retries with
    | S retries' =>
        if rateLimited err then
          do! sleep 2000 in
          callGeminiWithRetry url payload retries'
        else throw err
    | O => throw err
    end).

(** [data.candidates?.[0]?.content?.parts?.[0]?.text || "[]"] *)
Definition textOrEmpty (data : value) : completion value :=
  match Value.get data "candidates" with
  | Throw e => Throw e
  | Normal candidates =>
      let first := Value.opt Value.item0 candidates in
      let content := Value.opt (Value.member "content") first in
      let parts := Value.opt (Value.member "parts") content in
      let part := Value.opt Value.item0 parts in
      let text := Value.opt (Value.member "text") part in
      Normal (Value.or text (VString "[]"))
  end.

(** [generateWithAI(prompt)] *)
Definition generateWithAI (prompt : string) : M value :=
  catch
    (let! response := callGeminiWithRetry Primary prompt 3 in
     lift (textOrEmpty response))
    (λ _,
      catch
        (let! fallbackResponse := post Fallback prompt in
         lift (textOrEmpty fallbackResponse))
        (λ _, ret (VString "[]"))).

End Gateway.

(** The log of [k] rate-limited attempts followed by one more: a post,
    then [k] times a two-second pause and a post. *)
Fixpoint attempts (url : endpoint) (prompt : string) (k : nat) : list effect :=
  match k with
  | O => [Post url prompt]
  | S k' => Post url prompt :: Sleep 2000 :: attempts url prompt k'
  end.

(** The text the gateway returns once it has turned to the fallback
    endpoint: whatever that one post gives, and ["[]"] if it fails. *)
Definition fallbackText (w : world) (prompt : string) : value :=
  match axios_post w Fallback prompt 0 with
  | Responded data =>
      match textOrEmpty data with
      | Normal text => text
      | Throw _ => VString "[]"
      end
  | Failed _ => VString "[]"
  end.

(** An endpoint that rejects every post of [prompt]. *)
Definition fails (w : world) (url : endpoint) (prompt : string) : Prop :=
  ∀ n, ∃ status, axios_post w url prompt n = Failed status.

(** A response body without text: no [candidates], a first candidate
    without [content], or a content without [parts]. *)
Inductive noText : value → Prop :=
| no_candidates fields :
    Value.field fields "candidates" = VUndefined →
    noText (VObject fields)
| no_content fields candidate rest :
    Value.field fields "candidates" = VArray (VObject candidate :: rest) →
    Value.field candidate "content" = VUndefined →
    noText (VObject fields)
| no_parts fields candidate rest content :
    Value.field fields "candidates" = VArray (VObject candidate :: rest) →
    Value.field candidate "content" = VObject content →
    Value.field content "parts" = VUndefined →
    noText (VObject fields).

End Gateway.

(** ** Reading JSON out of free text *)

Module Extract.

(** The longest prefix of [s] that ends with [close]. *)
Fixpoint upToLast (close : ascii) (s : string) : option string :=
  match s with
  | EmptyString => None
  | String c s' =>
      match upToLast close s' with
      | Some r => Some (String c r)
      | None => if Ascii.eqb c close then Some (String c EmptyString) else None
      end
  end.

(** [s.match(/\[[\s\S]*\]/)] and [s.match(/\{[\s\S]*\}/)]: from the first
    [open] to the last [close] after it; [None] for [null]. *)
Fixpoint matchSpan (open close : ascii) (s : string) : option string :=
  match s with
  | EmptyString => None
  | String c s' =>
      if Ascii.eqb c open then
        match upToLast close s' with
        | Some r => Some (String c r)
        | None => None
        end
      else matchSpan open close s'
  end.

(** [text?.match(re)] on what [generateWithAI] returned. *)
Definition matchText (open close : ascii) (text : value)
  : completion (option string) :=
  match text with
  | VUndefined | VNull => Normal None
  | VString s => Normal (matchSpan open close s)
  | _ => Throw (TypeError "text.match is not a function")
  end.

End Extract.

(** ** The per-platform pipelines *)

Module Pipeline.
Import JsString.

(** The body of a [/recommend] request; [None] is an absent field. *)
Record request := {
  userId : option string;
  platform : option string;
  activity_type : option string;
  topic : option string;
  difficulty : value;
  description : option string;
}.

(** [`${x}`] *)
Definition show (x : option string) : string := default "undefined" x.

(** [`${platform}-${activity_type}-${topic}`] *)
Definition cacheKey (req : request) : string :=
  show (platform req) ++ "-" ++ show (activity_type req) ++ "-" ++ show (topic req).

(** [!x] on a field of the body. *)
Definition missing (x : option string) : bool :=
  match x with
  | Some s => negb (truthy s)
  | None => true
  end.

(** [platform === name] *)
Definition equals (x : option string) (name : string) : bool :=
  match x with
  | Some s => String.eqb s name
  | None => false
  end.

Definition recommendations (items : list value) : value :=
  VObject [("recommendations", VArray items)].

Definition andThen {A B} (c : completion A) (k : A → completion B)
  : completion B :=
  match c with
  | Normal a => k a
  | Throw e => Throw e
  end.

Notation "'try!' x := c 'in' k" := (andThen c (λ x, k))
  (at level 10, x name, c at level 100, k at level 200).

(** ["\n\n"] *)
Definition blankLine : string := String "010" (String "010" EmptyString).

Fixpoint chars (s : string) : list value :=
  match s with
  | EmptyString => []
  | String c s' => VString (String c EmptyString) :: chars s'
  end.

(** [...v] inside an array literal. *)
Definition spread (v : value) : completion (list value) :=
  match v with
  | VArray items => Normal items
  | VString s => Normal (chars s)
  | _ => Throw (TypeError "Spread syntax requires an iterable")
  end.

(** [xs.map(f)] with an [f] that may throw: the first exception ends it. *)
Fixpoint mapC {A B} (f : A → completion B) (xs : list A)
  : completion (list B) :=
  match xs with
  | [] => Normal []
  | x :: rest =>
      try! y := f x in
      try! ys := mapC f rest in
      Normal (y :: ys)
  end.

Section Pipeline.
(** [JSON.parse], the conversion of a value to a string, the URI encoder,
    and the wording of the two prompts. *)
Variable JSON_parse : string → completion value.
Variable String_of : value → string.
Variable encodeURIComponent : string → string.
Variable mentorPrompt : string → value → string → string → string.
Variable rankingPrompt : string → string → list value → string.
Variable w : world.

(** How [join] prints an element. *)
Definition element (v : value) : string :=
  match v with
  | VUndefined | VNull => ""
  | VString s => s
  | _ => String_of v
  end.

(** [v.join(sep)] *)
Definition join (sep : string) (v : value) : completion string :=
  match v with
  | VArray items => Normal (String.concat sep (map element items))
  | _ => Throw (TypeError "join is not a function")
  end.

Definition setCache (key : string) (data : value) : M unit := λ s,
  (Normal tt,
   {| responseCache := Cache.setCache key data (now w) (responseCache s);
      log := log s |}).

Definition fetchLeetCodeCandidates (topic : string) : M (list value) :=
  do! emit (LeetCodeQuery topic) in lift (leetcode w topic).

Definition fetchYouTubeResults (query : string) : M (list value) :=
  do! emit (YouTubeQuery query) in lift (youtube w query).

(** [rankWithGemini(context, results, userProfileSummary)]; [VNull] is
    [null]. *)
Definition rankWithGemini (topic : string) (results : list value)
                          (userProfileSummary : string) : M value :=
  let prompt := rankingPrompt topic userProfileSummary results in
  let! text := Gateway.generateWithAI w prompt in
  let! found := lift (Extract.matchText "[" "]" text) in
  match found with
  | None => ret VNull
  | Some span => catch (lift (JSON_parse span)) (λ _, ret VNull)
  end.

(** [rankAndGenerate(problemContext, candidates, userProfileSummary)] *)
Definition rankAndGenerate (title : string) (difficulty : value)
                           (description : string) (candidates : list value)
                           (userProfileSummary : string) : M value :=
  let prompt := mentorPrompt title difficulty description userProfileSummary in
  let! text := Gateway.generateWithAI w prompt in
  let! found := lift (Extract.matchText "{" "}" text) in
  match found with
  | None => throw (Error "Invalid JSON")
  | Some span => lift (JSON_parse span)
  end.

(** The object [normalized] built from the generated answer. *)
Definition normalized (ai : value) : completion value :=
  try! similar_problems := Value.get ai "similar_problems" in
  try! similar := spread similar_problems in
  try! hints := Value.get ai "hints" in
  try! joined := join blankLine hints in
  try! solution_outline := Value.get ai "solution_outline" in
  Normal (recommendations
    (similar ++
     [ VObject [("title", VString "💡 AI Hints");
                ("description", VString joined);
                ("url", VString "#")];
       VObject [("title", VString "🧠 Solution Strategy");
                ("description", solution_outline);
                ("url", VString "#")] ])).

(** What both problem-practice branches run inside [try], before they
    store the result. *)
Definition mentor (topic : string) (difficulty : value) (description : string)
                  (candidates : list value) (userProfileSummary : string)
  : M value :=
  let! ai := rankAndGenerate topic difficulty description candidates
               userProfileSummary in
  lift (normalized ai).

(** The state in which a problem-practice branch enters its [try] block:
    the candidates have been asked for. *)
Definition afterFetch (topic : string) (s : state) : state :=
  {| responseCache := responseCache s; log := log s ++ [LeetCodeQuery topic] |}.

(** The [LeetCode] branch. *)
Definition leetCode (req : request) (key userProfileSummary : string)
  : M value :=
  if missing (topic req) || missing (description req)
  then ret (recommendations [])
  else
    let topic := default "" (topic req) in
    let description := default "" (description req) in
    let! candidates := fetchLeetCodeCandidates topic in
    catch
      (let! normalized := mentor topic (difficulty req) description
                            candidates userProfileSummary in
       do! setCache key normalized in
       ret normalized)
      (λ _,
        let fallback := recommendations (Value.slice0 5 candidates) in
        do! setCache key fallback in
        ret fallback).

(** The [HackerRank] branch. *)
Definition hackerRank (req : request) (key userProfileSummary : string)
  : M value :=
  if missing (topic req) || missing (description req)
  then ret (recommendations [])
  else
    let topic := default "" (topic req) in
    let description := default "" (description req) in
    let! candidates := fetchLeetCodeCandidates topic in
    catch
      (let! normalized := mentor topic (difficulty req) description
                            candidates userProfileSummary in
       do! setCache key normalized in
       ret normalized)
      (λ _, ret (recommendations (Value.slice0 5 candidates))).

(** [a] may stand before [b] in a list ranked by score. *)
Definition byScore (a b : string * Z) : Prop := snd b ≤ snd a.

(** [xs.sort((a, b) => b.score - a.score)], a stable sort: [insert] puts a
    course before the first one that does not score more. *)
Fixpoint insert (x : string * Z) (sorted : list (string * Z))
  : list (string * Z) :=
  match sorted with
  | [] => [x]
  | y :: rest => if snd x <? snd y then y :: insert x rest else x :: sorted
  end.

Definition sortByScore (courses : list (string * Z)) : list (string * Z) :=
  foldr insert [] courses.

(** What [map] makes of a title: the title and its score. *)
Definition scored (topic : string) (dominantTopics : list string)
                  (title : string) : completion (string * Z) :=
  try! score := Scoring.scoreCourse title topic dominantTopics in
  Normal (title, score).

(** The scored, sorted and cut list both catalogue branches build. *)
Definition rank (titles : list string) (topic : string)
            (dominantTopics : list string) : completion (list (string * Z)) :=
  try! courses := mapC (scored topic dominantTopics) titles in
  Normal (take 5 (sortByScore courses)).

(** What the [Coursera] branch makes of a ranked course. *)
Definition courseraEntry (topic : string) (course : string * Z) : value :=
  VObject
    [("title", VString (fst course));
     ("url", VString ("https://www.coursera.org/search?query="
                      ++ encodeURIComponent (fst course)));
     ("reason", VString
        ("Recommended because it aligns with your interest in "
         ++ topic ++ " and related areas."))].

(** What the [Udemy] branch makes of a ranked course. *)
Definition udemyEntry (topic : string) (course : string * Z) : value :=
  VObject
    [("title", VString (fst course));
     ("url", VString ("https://www.udemy.com/courses/search/?q="
                      ++ encodeURIComponent (fst course)));
     ("reason", VString
        ("Matches your learning pattern and strengthens your "
         ++ topic ++ " expertise."))].

(** The [Coursera] branch. *)
Definition coursera (req : request) (dominantTopics : list string) : M value :=
  if missing (topic req) then ret (recommendations [])
  else
    let topic := default "" (topic req) in
    let simulatedCourses :=
      [ topic ++ " Foundations";
        "Advanced " ++ topic;
        topic ++ " for Beginners";
        topic ++ " Specialization";
        "Practical " ++ topic ++ " Projects";
        "AI Applications in " ++ topic ] in
    let! ranked := lift (rank simulatedCourses topic dominantTopics) in
    ret (recommendations (map (courseraEntry topic) ranked)).

(** The [Udemy] branch. *)
Definition udemy (req : request) (dominantTopics : list string) : M value :=
  if missing (topic req) then ret (recommendations [])
  else
    let topic := default "" (topic req) in
    let simulatedCourses :=
      [ topic ++ " Bootcamp";
        "Complete " ++ topic ++ " Masterclass";
        topic ++ " Zero to Hero";
        topic ++ " Interview Preparation";
        "Hands-On " ++ topic ++ " Projects";
        topic ++ " for Professionals" ] in
    let! ranked := lift (rank simulatedCourses topic dominantTopics) in
    ret (recommendations (map (udemyEntry topic) ranked)).

(** The [YouTube] branch. *)
Definition youTube (req : request) (key userProfileSummary : string)
  : M value :=
  if missing (topic req) then ret (recommendations [])
  else
    let topic := default "" (topic req) in
    let! retrieved := fetchYouTubeResults topic in
    if (length retrieved =? 0)%nat then ret (recommendations [])
    else
      let! ranked := rankWithGemini topic retrieved userProfileSummary in
      let final :=
        VObject [("recommendations",
                  Value.or ranked (VArray (Value.slice0 3 retrieved)))] in
      do! setCache key final in
      ret final.

(** The computation [requestPromise] started on a cache miss.  It reads
    nothing of the shared maps and writes the cache at most once, as its
    last step. *)
Definition requestPromise (req : request) (userProfileSummary : string)
                          (dominantTopics : list string) : M value :=
  let key := cacheKey req in
  if equals (platform req) "LeetCode" then leetCode req key userProfileSummary
  else if equals (platform req) "HackerRank" then
    hackerRank req key userProfileSummary
  else if equals (platform req) "Coursera" then coursera req dominantTopics
  else if equals (platform req) "Udemy" then udemy req dominantTopics
  else if equals (platform req) "YouTube" then
    youTube req key userProfileSummary
  else ret (recommendations []).

End Pipeline.
End Pipeline.

(** ** What the providers' answers are turned into *)

Module Providers.
Import Pipeline.

Section Providers.
Variable String_of : value → string.

(** [`${v}`] *)
Definition template (v : value) : string :=
  match v with
  | VString s => s
  | VUndefined => "undefined"
  | VNull => "null"
  | VBool true => "true"
  | VBool false => "false"
  | _ => String_of v
  end.

(** The object [fetchYouTubeResults] makes of one item. *)
Definition video (item : value) : completion value :=
  try! snippet := Value.get item "snippet" in
  try! title := Value.get snippet "title" in
  try! description := Value.get snippet "description" in
  try! id := Value.get item "id" in
  try! videoId := Value.get id "videoId" in
  Normal (VObject
    [("title", title);
     ("description", description);
     ("url", VString ("https://www.youtube.com/watch?v=" ++ template videoId))]).

(** [fetchYouTubeResults], from [data = await res.json()] on. *)
Definition youTubeResults (data : value) : completion (list value) :=
  try! items := Value.get data "items" in
  if negb (Value.truthy items) then Normal []
  else
    match items with
    | VArray items => mapC video items
    | _ => Throw (TypeError "data.items.map is not a function")
    end.

(** The object [fetchLeetCodeCandidates] makes of one question. *)
Definition candidate (q : value) : completion value :=
  try! title := Value.get q "title" in
  try! difficulty := Value.get q "difficulty" in
  try! acRate := Value.get q "acRate" in
  try! titleSlug := Value.get q "titleSlug" in
  Normal (VObject
    [("title", title);
     ("difficulty", difficulty);
     ("acRate", acRate);
     ("description",
      VString ("Difficulty: " ++ template difficulty
               ++ ", Acceptance Rate: " ++ template acRate));
     ("url", VString ("https://leetcode.com/problems/" ++ template titleSlug))]).

(** [fetchLeetCodeCandidates], from [response.data] on. *)
Definition leetCodeCandidates (data : value) : completion (list value) :=
  try! data := Value.get data "data" in
  try! problemsetQuestionList := Value.get data "problemsetQuestionList" in
  try! questions := Value.get problemsetQuestionList "questions" in
  match questions with
  | VArray questions => mapC candidate questions
  | _ => Throw (TypeError "questions.map is not a function")
  end.

End Providers.
End Providers.

(** ** The [/recommend] handler on the event loop

    One process serves all requests; a handler runs until it awaits and
    others run meanwhile.  The part of the handler that follows the
    profile update touches the shared maps in two turns: from the cache
    lookup to [await requestPromise], and from there to the reply. *)

Module Server.
Import Pipeline.

Inductive promise :=
| Pending (req : request) (userProfileSummary : string)
          (dominantTopics : list string)
| Fulfilled (result : value)
| Rejected (err : exn).

(** What a caller receives: [res.json(body)], or
    [res.status(500).json({ error: "Internal Server Error" })]. *)
Inductive reply :=
| Json (body : value)
| InternalServerError.

Record server := {
  cache : gmap string (Cache.entry value);        (* responseCache *)
  pendingRequests : gmap string nat;              (* cache key ↦ promise *)
  promises : list promise;                        (* every [requestPromise] made *)
  awaiting : gmap nat (string * nat);             (* handler ↦ its key and promise *)
  replies : gmap nat reply;                       (* handler ↦ what it wrote to [res] *)
  arrivals : nat;                                 (* handlers started so far *)
}.

Definition init : server :=
  {| cache := ∅; pendingRequests := ∅; promises := []; awaiting := ∅;
     replies := ∅; arrivals := 0 |}.

Inductive event :=
(** a handler, its profile saved, runs from the cache lookup on;
    [Date.now()] reads [now] *)
| Arrive (req : request) (userProfileSummary : string)
         (dominantTopics : list string) (now : Z)
(** the computation behind a promise runs to its end in the world [w] *)
| Settle (p : nat) (w : world)
(** the handler waiting at [await requestPromise] goes on *)
| Resume (handler : nat).

(** A handler that has ended without writing to [res]: it has started,
    waits for nothing, and has sent nothing. *)
Definition silent (handler : nat) (s : server) : Prop :=
  (handler < arrivals s)%nat
  ∧ awaiting s !! handler = None
  ∧ replies s !! handler = None.

(** No handler that has not started yet waits or has replied. *)
Definition wf (s : server) : Prop :=
  ∀ handler, (arrivals s ≤ handler)%nat →
    awaiting s !! handler = None ∧ replies s !! handler = None.

(** The entry of [key] in [pendingRequests] is stale: it points to a
    rejected promise, no handler is left to remove it, nothing is cached
    under [key], and no computation under way would cache it. *)
Definition stale (key : string) (p0 : nat) (s : server) : Prop :=
  pendingRequests s !! key = Some p0
  ∧ (∃ err, promises s !! p0 = Some (Rejected err))
  ∧ (∀ handler k p, awaiting s !! handler = Some (k, p) → k ≠ key)
  ∧ (∀ p req summary dominantTopics,
       promises s !! p = Some (Pending req summary dominantTopics) →
       cacheKey req ≠ key)
  ∧ cache s !! key = None.

(** A handler that waits has not replied. *)
Definition unanswered (s : server) : Prop :=
  ∀ handler, is_Some (awaiting s !! handler) → replies s !! handler = None.

Section Server.
Variable JSON_parse : string → completion value.
Variable String_of : value → string.
Variable encodeURIComponent : string → string.
Variable mentorPrompt : string → value → string → string → string.
Variable rankingPrompt : string → string → list value → string.

(** [if (cached)] *)
Definition hit (cached : option value) : option value :=
  match cached with
  | Some body => if Value.truthy body then Some body else None
  | None => None
  end.

(** From [const cacheKey = ...] to [await requestPromise]. *)
Definition arrive (req : request) (userProfileSummary : string)
                  (dominantTopics : list string) (now : Z) (s : server)
  : server :=
  let handler := arrivals s in
  let key := cacheKey req in
  let (cached, cache') := Cache.getCache key now (cache s) in
  let s := {| cache := cache'; pendingRequests := pendingRequests s;
              promises := promises s; awaiting := awaiting s;
              replies := replies s; arrivals := S handler |} in
  match hit cached with
  | Some body =>
      (* return res.json(cached) *)
      {| cache := cache s; pendingRequests := pendingRequests s;
         promises := promises s; awaiting := awaiting s;
         replies := <[handler := Json body]> (replies s);
         arrivals := arrivals s |}
  | None =>
      match pendingRequests s !! key with
      | Some _ =>
          (* return pendingRequests.get(cacheKey): the handler ends here,
             nothing is written to [res] *)
          s
      | None =>
          let p := length (promises s) in
          {| cache := cache s;
             pendingRequests := <[key := p]> (pendingRequests s);
             promises :=
               promises s ++ [Pending req userProfileSummary dominantTopics];
             awaiting := <[handler := (key, p)]> (awaiting s);
             replies := replies s;
             arrivals := arrivals s |}
      end
  end.

(** The computation behind promise [p] runs to its end. *)
Definition settle (p : nat) (w : world) (s : server) : server :=
  match promises s !! p with
  | Some (Pending req userProfileSummary dominantTopics) =>
      let (outcome, st) :=
        requestPromise JSON_parse String_of encodeURIComponent mentorPrompt
          rankingPrompt w req userProfileSummary dominantTopics
          {| responseCache := cache s; log := [] |} in
      {| cache := responseCache st;
         pendingRequests := pendingRequests s;
         promises :=
           <[p := match outcome with
                  | Normal result => Fulfilled result
                  | Throw err => Rejected err
                  end]> (promises s);
         awaiting := awaiting s;
         replies := replies s;
         arrivals := arrivals s |}
  | _ => s
  end.

(** From [await requestPromise] to the end of the handler. *)
Definition resume (handler : nat) (s : server) : server :=
  match awaiting s !! handler with
  | Some (key, p) =>
      match promises s !! p with
      | Some (Fulfilled result) =>
          (* pendingRequests.delete(cacheKey); return res.json(result) *)
          {| cache := cache s;
             pendingRequests := delete key (pendingRequests s);
             promises := promises s;
             awaiting := delete handler (awaiting s);
             replies := <[handler := Json result]> (replies s);
             arrivals := arrivals s |}
      | Some (Rejected _) =>
          (* catch (err) { res.status(500).json(...) } *)
          {| cache := cache s;
             pendingRequests := pendingRequests s;
             promises := promises s;
             awaiting := delete handler (awaiting s);
             replies := <[handler := InternalServerError]> (replies s);
             arrivals := arrivals s |}
      | _ => s
      end
  | None => s
  end.

Definition step (s : server) (e : event) : server :=
  match e with
  | Arrive req userProfileSummary dominantTopics now =>
      arrive req userProfileSummary dominantTopics now s
  | Settle p w => settle p w s
  | Resume handler => resume handler s
  end.

Definition run (events : list event) (s : server) : server :=
  foldl step s events.

(** The number of computations started so far. *)
Definition computations (s : server) : nat := length (promises s).

End Server.
End Server.

(** ** Sample requests and worlds *)

Module Scenario.
Import Pipeline.

Definition problem (title slug : string) : value :=
  VObject [("title", VString title);
           ("difficulty", VString "Medium");
           ("description", VString "Difficulty: Medium");
           ("url", VString ("https://leetcode.com/problems/" ++ slug))].

(** Seven problems, as [fetchLeetCodeCandidates] may return them. *)
Definition sevenProblems : list value :=
  [ problem "Two Sum" "two-sum";
    problem "3Sum" "3sum";
    problem "4Sum" "4sum";
    problem "Subarray Sum Equals K" "subarray-sum-equals-k";
    problem "Path Sum" "path-sum";
    problem "Combination Sum" "combination-sum";
    problem "Range Sum Query" "range-sum-query" ].

(** The provider answers; both generation endpoints reject every post. *)
Definition generationDown : world :=
  {| axios_post := λ _ _ _, Failed (Some 503);
     leetcode := λ _, Normal sevenProblems;
     youtube := λ _, Normal [];
     now := 5000 |}.

(** The provider itself is unreachable. *)
Definition providerDown : world :=
  {| axios_post := λ _ _ _, Failed (Some 503);
     leetcode := λ _, Throw (AxiosError None);
     youtube := λ _, Throw (TypeError "fetch failed");
     now := 5000 |}.

(** A body as the generation service sends it, holding [text]. *)
Definition answer (text : string) : value :=
  VObject [("candidates",
    VArray [VObject [("content",
      VObject [("parts", VArray [VObject [("text", VString text)]])])]])].

(** The primary endpoint answers at once, with [text]. *)
Definition generationUp (text : string) : world :=
  {| axios_post := λ _ _ _, Responded (answer text);
     leetcode := λ _, Normal sevenProblems;
     youtube := λ _, Normal [];
     now := 5000 |}.

(** A double quote. *)
Definition q : string := String "034" EmptyString.

(** A body without text: the one candidate has no [content]. *)
Definition blocked : value :=
  VObject [("candidates",
    VArray [VObject [("finishReason", VString "SAFETY")]])].

(** Both endpoints answer, with the body [blocked]. *)
Definition generationBlocked : world :=
  {| axios_post := λ _ _ _, Responded blocked;
     leetcode := λ _, Normal sevenProblems;
     youtube := λ _, Normal [];
     now := 5000 |}.

(** The text [{"similar_problems": [], "hints": ["a", "b"],
    "solution_outline": "c"}]. *)
Definition mentorText : string :=
  "{" ++ q ++ "similar_problems" ++ q ++ ": [], "
      ++ q ++ "hints" ++ q ++ ": [" ++ q ++ "a" ++ q ++ ", " ++ q ++ "b" ++ q ++ "], "
      ++ q ++ "solution_outline" ++ q ++ ": " ++ q ++ "c" ++ q ++ "}".

(** What [JSON.parse] makes of that text. *)
Definition mentorObject : value :=
  VObject [("similar_problems", VArray []);
           ("hints", VArray [VString "a"; VString "b"]);
           ("solution_outline", VString "c")].

(** [JSON.parse], as far as the samples need it. *)
Definition parseMentor (text : string) : completion value :=
  if String.eqb text mentorText then Normal mentorObject
  else Throw (SyntaxError "Unexpected token").

Definition noString (v : value) : string := "".
Definition noEncoding (text : string) : string := text.
Definition mentorPrompt (title : string) (difficulty : value)
                        (description summary : string) : string :=
  "You are an AI LeetCode mentor. " ++ title ++ description ++ summary.
Definition rankingPrompt (topic summary : string) (results : list value)
  : string :=
  "You are an intelligent educational recommendation ranking agent. "
  ++ topic ++ summary.

(** The result assembled from [mentorObject]. *)
Definition mentorResult : value :=
  VObject
    [("recommendations",
      VArray
        [ VObject [("title", VString "💡 AI Hints");
                   ("description", VString ("a" ++ blankLine ++ "b"));
                   ("url", VString "#")];
          VObject [("title", VString "🧠 Solution Strategy");
                   ("description", VString "c");
                   ("url", VString "#")] ])].

Definition practice (platformName : string) : request :=
  {| userId := Some "u1";
     platform := Some platformName;
     activity_type := Some "solve";
     topic := Some "sum";
     difficulty := VString "Medium";
     description := Some "Given an array of integers" |}.

Definition catalogue (platformName : string) : request :=
  {| userId := Some "u1";
     platform := Some platformName;
     activity_type := Some "course";
     topic := Some "python";
     difficulty := VUndefined;
     description := None |}.

Definition video : request :=
  {| userId := Some "u1";
     platform := Some "YouTube";
     activity_type := Some "video";
     topic := Some "python";
     difficulty := VUndefined;
     description := None |}.

End Scenario.

Module Samples.
Import Pipeline.

Definition clip (title id : string) : value :=
  VObject [("title", VString title);
           ("description", VString "A tutorial");
           ("url", VString ("https://www.youtube.com/watch?v=" ++ id))].

(** Four videos, as [fetchYouTubeResults] may return them. *)
Definition fourVideos : list value :=
  [ clip "Python in 100 Seconds" "x7X9w_GIm1s";
    clip "Learn Python" "rfscVS0vtbw";
    clip "Python for Beginners" "kqtD5dpn9C8";
    clip "Python Full Course" "_uQrJ0TkZlc" ].

(** Samples are found; both generation endpoints reject every post. *)
Definition generationDown : world :=
  {| axios_post := λ _ _ _, Failed (Some 503);
     leetcode := λ _, Normal [];
     youtube := λ _, Normal fourVideos;
     now := 5000 |}.

(** Samples are found; the primary endpoint answers at once, with [text]. *)
Definition generationUp (text : string) : world :=
  {| axios_post := λ _ _ _, Responded (Scenario.answer text);
     leetcode := λ _, Normal [];
     youtube := λ _, Normal fourVideos;
     now := 5000 |}.

(** [JSON.parse], as far as these samples need it. *)
Definition parseEmptyList (text : string) : completion value :=
  if String.eqb text "[]" then Normal (VArray [])
  else Throw (SyntaxError "Unexpected token").

(** [JSON.parse] again: it reads the empty object, and nothing else. *)
Definition parseEmptyObject (text : string) : completion value :=
  if String.eqb text "{}" then Normal (VObject [])
  else Throw (SyntaxError "Unexpected token").

(** A catalogue request for a topic. *)
Definition catalogueOf (platformName topicName : string) : request :=
  {| userId := Some "u1"; platform := Some platformName;
     activity_type := Some "course"; topic := Some topicName;
     difficulty := VUndefined; description := None |}.

(** The request of another user for the key of [Scenario.practice]. *)
Definition practiceOfAnother (platformName : string) : request :=
  {| userId := Some "u2";
     platform := Some platformName;
     activity_type := Some "solve";
     topic := Some "sum";
     difficulty := VString "Hard";
     description := Some "Find two numbers that add up to a target" |}.

End Samples.

(** * Properties *)

(** ** Scoring *)

(** C9: [scoreCourse("Deep Learning Advanced", "machine learning", [])] is a
    fixed value, 6, the same at every call; it is made of the +3 of the
    related term "deep learning", found through the graph entry of
    "machine learning", and of the +3 of "advanced", and of nothing else. *)
Theorem scoreCourse_deep_learning_advanced :
  let title := JsString.toLowerCase "Deep Learning Advanced" in
  Scoring.scoreCourse "Deep Learning Advanced" "machine learning" [] = Normal 6
  ∧ Scoring.topicGraph !! "machine learning"
    = Some ["deep learning"; "neural networks"; "ai"; "data science";
            "supervised learning"]
  ∧ Scoring.directBonus title "machine learning" 0 = 0
  ∧ Scoring.forEach_bonus title 3 ["deep learning"] 0 = 3
  ∧ Scoring.forEach_bonus title 3
      ["neural networks"; "ai"; "data science"; "supervised learning"] 3 = 3
  ∧ Scoring.forEach_bonus title 2 [] 3 = 3
  ∧ Scoring.skillBonus title 3 = 3 + 3
  ∧ JsString.includes title "advanced" = true
  ∧ JsString.includes title "beginner" = false
  ∧ JsString.includes title "intermediate" = false.
Proof. repeat split; vm_compute; reflexivity. Qed.

(** ** Response cache *)

Section CacheFacts.
Context {A : Type}.
Implicit Types (responseCache : gmap string (Cache.entry A)) (data : A).

Lemma getCache_fresh key data stored now responseCache :
  now - stored ≤ Cache.CACHE_TTL →
  Cache.getCache key now (Cache.setCache key data stored responseCache)
  = (Some data, Cache.setCache key data stored responseCache).
Proof.
  intros Hage. unfold Cache.getCache, Cache.setCache.
  rewrite lookup_insert_eq. cbn.
  destruct (Z.ltb_spec Cache.CACHE_TTL (now - stored)); [lia | reflexivity].
Qed.

Lemma getCache_expired key data stored now responseCache :
  Cache.CACHE_TTL < now - stored →
  Cache.getCache key now (Cache.setCache key data stored responseCache)
  = (None, delete key responseCache).
Proof.
  intros Hage. unfold Cache.getCache, Cache.setCache.
  rewrite lookup_insert_eq. cbn.
  destruct (Z.ltb_spec Cache.CACHE_TTL (now - stored)); [| lia].
  by rewrite delete_insert_eq.
Qed.

End CacheFacts.

(** C6: a result stored under a key and read back while no more than
    [CACHE_TTL] (30 minutes) has passed comes back unchanged and the cache
    keeps it; read back later it is reported absent, and that read, not
    the passing of time, removes the entry. *)
Theorem cache_round_trip {A : Type} (key : string) (payload : A)
    (stored now : Z) (responseCache : gmap string (Cache.entry A)) :
  let written := Cache.setCache key payload stored responseCache in
  Cache.CACHE_TTL = 30 * 60 * 1000
  ∧ (now - stored ≤ Cache.CACHE_TTL →
     Cache.getCache key now written = (Some payload, written))
  ∧ (Cache.CACHE_TTL < now - stored →
     is_Some (written !! key)
     ∧ fst (Cache.getCache key now written) = None
     ∧ snd (Cache.getCache key now written) = delete key responseCache
     ∧ snd (Cache.getCache key now written) !! key = None).
Proof.
  intros written. split; [reflexivity |]. split.
  - apply getCache_fresh.
  - intros Hage. unfold written. rewrite getCache_expired by done. cbn.
    repeat split.
    + unfold Cache.setCache. rewrite lookup_insert_eq. by eexists.
    + apply lookup_delete_eq.
Qed.

Lemma cache_round_trip_witness :
  let written := Cache.setCache "YouTube-video-python" 7 1000 ∅ in
  Cache.getCache "YouTube-video-python" 1801000 written = (Some 7, written)
  ∧ fst (Cache.getCache "YouTube-video-python" 1801001 written) = None
  ∧ snd (Cache.getCache "YouTube-video-python" 1801001 written)
    = delete "YouTube-video-python" ∅.
Proof.
  pose proof (cache_round_trip "YouTube-video-python" 7 1000 1801000 ∅) as Hin.
  pose proof (cache_round_trip "YouTube-video-python" 7 1000 1801001 ∅) as Hout.
  cbv zeta in Hin, Hout.
  destruct Hin as (_ & Hin & _). destruct Hout as (_ & _ & Hout).
  split; [apply Hin; vm_compute; discriminate |].
  destruct Hout as (_ & Hnone & Hdel & _); [vm_compute; reflexivity |].
  split; assumption.
Defined.

(** ** Generation gateway *)

Section GatewayFacts.
Variable w : world.

Lemma posts_to_app url l1 l2 :
  posts_to url (l1 ++ l2) = (posts_to url l1 + posts_to url l2)%nat.
Proof.
  induction l1 as [| e l1 IH]; [reflexivity |].
  cbn. destruct e; try apply IH.
  destruct (same_endpoint url0 url); cbn; by rewrite IH.
Qed.

Lemma posts_to_post url prompt l :
  posts_to url (l ++ [Post url prompt]) = S (posts_to url l).
Proof.
  rewrite posts_to_app. cbn. destruct url; cbn; lia.
Qed.

(** What [callGeminiWithRetry] does, whatever the answers: it posts, and
    posts again after two seconds while the answer is 429 and retries are
    left; the answer to its last post is its outcome. *)
Lemma callGeminiWithRetry_spec url prompt retries s :
  ∃ k,
    (k ≤ retries)%nat
    ∧ (∀ i, (i < k)%nat →
         axios_post w url prompt (posts_to url (log s) + i) = Failed (Some 429))
    ∧ snd (Gateway.callGeminiWithRetry w url prompt retries s)
      = {| responseCache := responseCache s;
           log := log s ++ Gateway.attempts url prompt k |}
    ∧ match axios_post w url prompt (posts_to url (log s) + k) with
      | Responded data =>
          fst (Gateway.callGeminiWithRetry w url prompt retries s) = Normal data
      | Failed status =>
          fst (Gateway.callGeminiWithRetry w url prompt retries s)
          = Throw (AxiosError status)
          ∧ (k = retries ∨ status ≠ Some 429)
      end.
Proof.
  revert s. induction retries as [| r IH]; intros s.
  - exists O. split; [lia |]. split; [intros i Hi; lia |].
    rewrite Nat.add_0_r. cbn. unfold catch, Gateway.post.
    destruct (axios_post w url prompt (posts_to url (log s))); cbn; auto.
  - cbn. unfold catch, Gateway.post.
    destruct (axios_post w url prompt (posts_to url (log s))) as [data | status] eqn:Hans.
    + exists O. split; [lia |]. split; [intros i Hi; lia |].
      rewrite Nat.add_0_r, Hans. cbn. auto.
    + destruct (Gateway.rateLimited (AxiosError status)) eqn:Hrl.
      * assert (status = Some 429) as ->.
        { destruct status as [st |]; [| discriminate]. cbn in Hrl.
          apply Z.eqb_eq in Hrl. by subst. }
        unfold bindM, Gateway.sleep, emit. cbn.
        set (s' := {| responseCache := responseCache s;
                      log := (log s ++ [Post url prompt]) ++ [Sleep 2000] |}).
        destruct (IH s') as (k & Hk & Hall & Hsnd & Hfst).
        assert (posts_to url (log s') = S (posts_to url (log s))) as Hcount.
        { unfold s'. cbn. rewrite posts_to_app, posts_to_post. cbn. lia. }
        rewrite Hcount in Hall, Hfst.
        exists (S k). split; [lia |]. split.
        { intros [| i] Hi.
          - by rewrite Nat.add_0_r.
          - rewrite <- Nat.add_succ_comm. apply Hall. lia. }
        split.
        { rewrite Hsnd. unfold s'. cbn. f_equal.
          by rewrite <- !app_assoc. }
        rewrite <- Nat.add_succ_comm.
        destruct (axios_post w url prompt (S (posts_to url (log s)) + k));
          [assumption |].
        destruct Hfst as [Hfst Hlast]. split; [assumption |].
        destruct Hlast as [-> | Hne]; auto.
      * exists O. split; [lia |]. split; [intros i Hi; lia |].
        rewrite Nat.add_0_r, Hans. cbn. split; [reflexivity |].
        split; [reflexivity |]. right. intros ->. cbn in Hrl. discriminate.
Qed.

End GatewayFacts.

(** The fallback part of [generateWithAI], entered with no post to the
    fallback endpoint made yet: one post, and its text or ["[]"]. *)
Lemma fallback_run (w : world) (prompt : string)
    (cache : gmap string (Cache.entry value)) (l : list effect) :
  posts_to Fallback l = O →
  catch (bindM (Gateway.post w Fallback prompt)
               (λ r, lift (Gateway.textOrEmpty r)))
        (λ _, ret (VString "[]"))
        {| responseCache := cache; log := l |}
  = (Normal (Gateway.fallbackText w prompt),
     {| responseCache := cache; log := l ++ [Post Fallback prompt] |}).
Proof.
  intros Hl. unfold catch, bindM, Gateway.post, lift, ret, Gateway.fallbackText.
  cbn. rewrite Hl.
  destruct (axios_post w Fallback prompt 0) as [data |]; [| reflexivity].
  destruct (Gateway.textOrEmpty data); reflexivity.
Qed.

Lemma attempts_no_fallback prompt k :
  posts_to Fallback (Gateway.attempts Primary prompt k) = O.
Proof. induction k as [| k IH]; [reflexivity | exact IH]. Qed.

(** C3: [generateWithAI] always returns a value, never an exception.  It
    posts to the primary endpoint, again after a pause of two seconds each
    time the answer is 429, three times at most ([k ≤ 3] retries).  When
    the last primary attempt is answered, its text is the result and the
    fallback endpoint is not called.  When it fails (any error other than
    429, or a fourth 429) the fallback endpoint is posted to exactly once,
    with no pause and no retry, and a failure there gives ["[]"]. *)
Theorem generateWithAI_chain (w : world) (prompt : string)
    (cache : gmap string (Cache.entry value)) :
  ∃ (k : nat) (text : value) (tail : list effect),
    Gateway.generateWithAI w prompt {| responseCache := cache; log := [] |}
    = (Normal text,
       {| responseCache := cache;
          log := Gateway.attempts Primary prompt k ++ tail |})
    ∧ (k ≤ 3)%nat
    ∧ (∀ i, (i < k)%nat → axios_post w Primary prompt i = Failed (Some 429))
    ∧ match axios_post w Primary prompt k with
      | Responded data =>
          match Gateway.textOrEmpty data with
          | Normal answer => tail = [] ∧ text = answer
          | Throw _ =>
              tail = [Post Fallback prompt] ∧ text = Gateway.fallbackText w prompt
          end
      | Failed status =>
          (k = 3%nat ∨ status ≠ Some 429)
          ∧ tail = [Post Fallback prompt]
          ∧ text = Gateway.fallbackText w prompt
          ∧ (∀ status', axios_post w Fallback prompt 0 = Failed status' →
               text = VString "[]")
      end.
Proof.
  set (s0 := {| responseCache := cache; log := [] |}).
  destruct (callGeminiWithRetry_spec w Primary prompt 3 s0)
    as (k & Hk & Hall & Hsnd & Hfst).
  change (log s0) with (@nil effect) in Hall, Hsnd, Hfst.
  change (responseCache s0) with cache in Hsnd.
  cbn [posts_to Nat.add app] in Hall, Hsnd, Hfst.
  pose proof (attempts_no_fallback prompt k) as Hnone.
  unfold Gateway.generateWithAI, catch at 1, bindM at 1.
  destruct (Gateway.callGeminiWithRetry w Primary prompt 3 s0) as [r s1]
    eqn:Hcall.
  cbn [fst snd] in Hsnd, Hfst. subst s1.
  destruct (axios_post w Primary prompt k) as [data | status] eqn:Hans.
  - subst r. unfold lift at 1.
    destruct (Gateway.textOrEmpty data) as [answer | e] eqn:Htext.
    + exists k, answer, []. rewrite app_nil_r.
      repeat split; try done. by rewrite Hans, Htext.
    + rewrite (fallback_run w prompt cache _ Hnone).
      exists k, (Gateway.fallbackText w prompt), [Post Fallback prompt].
      repeat split; try done. by rewrite Hans, Htext.
  - destruct Hfst as [-> Hlast]. rewrite (fallback_run w prompt cache _ Hnone).
    exists k, (Gateway.fallbackText w prompt), [Post Fallback prompt].
    repeat split; try done. rewrite Hans. repeat split; try done.
    intros status' Hfail. unfold Gateway.fallbackText. by rewrite Hfail.
Qed.

(** With the primary endpoint rejecting every post, the gateway returns
    what the fallback endpoint gives. *)
Lemma generateWithAI_primary_fails w prompt cache :
  Gateway.fails w Primary prompt →
  fst (Gateway.generateWithAI w prompt {| responseCache := cache; log := [] |})
  = Normal (Gateway.fallbackText w prompt).
Proof.
  intros Hp. set (s0 := {| responseCache := cache; log := [] |}).
  destruct (callGeminiWithRetry_spec w Primary prompt 3 s0)
    as (k & _ & _ & Hsnd & Hfst).
  destruct (Hp (posts_to Primary (log s0) + k)%nat) as [status Hk].
  rewrite Hk in Hfst. destruct Hfst as [Hfst _].
  unfold Gateway.generateWithAI, catch at 1, bindM at 1.
  destruct (Gateway.callGeminiWithRetry w Primary prompt 3 s0) as [r s1].
  cbn [fst snd] in Hsnd, Hfst. subst r s1. unfold s0.
  cbn [responseCache log app].
  by rewrite (fallback_run w prompt cache _ (attempts_no_fallback prompt k)).
Qed.

Lemma textOrEmpty_noText data :
  Gateway.noText data → Gateway.textOrEmpty data = Normal (VString "[]").
Proof.
  intros [fields Hc | fields c rest Hc Hct | fields c rest ct Hc Hct Hp];
    unfold Gateway.textOrEmpty; cbn; rewrite Hc; cbn;
    rewrite ?Hct; cbn; rewrite ?Hp; reflexivity.
Qed.

(** With both endpoints rejecting every post the gateway returns ["[]"],
    whatever was logged before. *)
Lemma generateWithAI_all_fail w prompt s :
  Gateway.fails w Primary prompt → Gateway.fails w Fallback prompt →
  ∃ l, Gateway.generateWithAI w prompt s
       = (Normal (VString "[]"), {| responseCache := responseCache s; log := l |}).
Proof.
  intros Hp Hf.
  destruct (callGeminiWithRetry_spec w Primary prompt 3 s)
    as (k & _ & _ & Hsnd & Hfst).
  destruct (Hp (posts_to Primary (log s) + k)%nat) as [status Hk].
  rewrite Hk in Hfst. destruct Hfst as [Hfst _].
  unfold Gateway.generateWithAI, catch at 1, bindM at 1.
  destruct (Gateway.callGeminiWithRetry w Primary prompt 3 s) as [r s1].
  cbn [fst snd] in Hsnd, Hfst. subst r s1.
  unfold catch, bindM, Gateway.post. cbn.
  destruct (Hf (posts_to Fallback (log s ++ Gateway.attempts Primary prompt k)))
    as [status' ->].
  eexists. reflexivity.
Qed.

(** The gateway leaves the cache alone. *)
Lemma generateWithAI_cache w prompt s :
  responseCache (snd (Gateway.generateWithAI w prompt s)) = responseCache s.
Proof.
  destruct (callGeminiWithRetry_spec w Primary prompt 3 s)
    as (k & _ & _ & Hsnd & _).
  unfold Gateway.generateWithAI, catch at 1, bindM at 1.
  destruct (Gateway.callGeminiWithRetry w Primary prompt 3 s) as [r s1].
  cbn [fst snd] in Hsnd. subst s1.
  assert (∀ s', responseCache
     (snd (catch (bindM (Gateway.post w Fallback prompt)
                        (λ r, lift (Gateway.textOrEmpty r)))
                 (λ _, ret (VString "[]")) s')) = responseCache s') as Hfb.
  { intros s'. unfold catch, bindM, Gateway.post, lift, ret.
    destruct (axios_post w Fallback prompt _) as [data |]; [| reflexivity].
    destruct (Gateway.textOrEmpty data); reflexivity. }
  destruct r as [data | e]; [| by rewrite Hfb].
  unfold lift at 1. destruct (Gateway.textOrEmpty data); [reflexivity |].
  by rewrite Hfb.
Qed.

(** C10: ["[]"] does not tell failure from an empty answer.  A body
    without text (no candidates, no content, or no parts) makes the gateway
    return ["[]"], be it the primary endpoint's answer, in which case the
    fallback endpoint is not even called, or the fallback endpoint's after
    the primary one failed; and ["[]"] is also what it returns when both
    endpoints fail. *)
Theorem generateWithAI_empty_answer (w : world) (prompt : string)
    (cache : gmap string (Cache.entry value)) (data : value) :
  Gateway.noText data →
  let s0 := {| responseCache := cache; log := [] |} in
  (axios_post w Primary prompt 0 = Responded data →
   Gateway.generateWithAI w prompt s0
   = (Normal (VString "[]"),
      {| responseCache := cache; log := [Post Primary prompt] |}))
  ∧ (Gateway.fails w Primary prompt →
     axios_post w Fallback prompt 0 = Responded data →
     fst (Gateway.generateWithAI w prompt s0) = Normal (VString "[]"))
  ∧ (Gateway.fails w Primary prompt → Gateway.fails w Fallback prompt →
     fst (Gateway.generateWithAI w prompt s0) = Normal (VString "[]")).
Proof.
  intros Hempty s0. apply textOrEmpty_noText in Hempty. repeat split.
  - intros Hans. unfold Gateway.generateWithAI, catch, bindM, lift.
    cbn. unfold catch, Gateway.post. cbn. rewrite Hans, Hempty. reflexivity.
  - intros Hp Hfb. unfold s0. rewrite generateWithAI_primary_fails by done.
    unfold Gateway.fallbackText. by rewrite Hfb, Hempty.
  - intros Hp Hf.
    destruct (generateWithAI_all_fail w prompt s0 Hp Hf) as [l Hrun].
    by rewrite Hrun.
Qed.

(** ** Problem-practice pipelines *)

Section PipelineFacts.
Import Pipeline.
Variable JSON_parse : string → completion value.
Variable String_of : value → string.
Variable encodeURIComponent : string → string.
Variable mentorPrompt : string → value → string → string → string.
Variable rankingPrompt : string → string → list value → string.
Variable w : world.

Local Abbreviation mentor := (Pipeline.mentor JSON_parse String_of mentorPrompt w).
Local Abbreviation rankAndGenerate := (Pipeline.rankAndGenerate JSON_parse mentorPrompt w).
Local Abbreviation leetCode := (Pipeline.leetCode JSON_parse String_of mentorPrompt w).
Local Abbreviation hackerRank := (Pipeline.hackerRank JSON_parse String_of mentorPrompt w).
Local Abbreviation requestPromise :=
  (Pipeline.requestPromise JSON_parse String_of encodeURIComponent mentorPrompt
     rankingPrompt w).

(** [rankAndGenerate] and the assembly of [normalized] leave the cache
    alone. *)
Lemma mentor_cache t difficulty d candidates summary s :
  responseCache (snd (mentor t difficulty d candidates summary s))
  = responseCache s.
Proof.
  unfold Pipeline.mentor, Pipeline.rankAndGenerate, bindM.
  pose proof (generateWithAI_cache w (mentorPrompt t difficulty d summary) s)
    as Hgen.
  destruct (Gateway.generateWithAI w _ s) as [[text | e] s1]; cbn in Hgen;
    [| exact Hgen].
  unfold lift at 2. destruct (Extract.matchText _ _ text) as [[span |] | e];
    cbn; try exact Hgen.
  unfold lift. by destruct (JSON_parse span) as [ai | e]; cbn.
Qed.

(** With the generation service down, [rankAndGenerate] finds no object in
    ["[]"] and throws. *)
Lemma mentor_all_fail t difficulty d candidates summary s :
  (∀ prompt, Gateway.fails w Primary prompt) →
  (∀ prompt, Gateway.fails w Fallback prompt) →
  ∃ s', mentor t difficulty d candidates summary s
        = (Throw (Error "Invalid JSON"), s')
        ∧ responseCache s' = responseCache s.
Proof.
  intros Hp Hf.
  destruct (generateWithAI_all_fail w (mentorPrompt t difficulty d summary) s
              (Hp _) (Hf _)) as [l Hrun].
  unfold Pipeline.mentor, Pipeline.rankAndGenerate, bindM. rewrite Hrun. cbn.
  eexists. split; reflexivity.
Qed.

Lemma missing_present (x : option string) (v : string) :
  x = Some v → v ≠ "" → missing x = false.
Proof. intros -> Hv. by destruct v. Qed.

Lemma leetCode_run req key summary t d candidates s :
  topic req = Some t → t ≠ "" → description req = Some d → d ≠ "" →
  leetcode w t = Normal candidates →
  leetCode req key summary s
  = match mentor t (difficulty req) d candidates summary (afterFetch t s) with
    | (Normal normalized, s') =>
        (Normal normalized,
         {| responseCache :=
              Cache.setCache key normalized (now w) (responseCache s');
            log := log s' |})
    | (Throw _, s') =>
        (Normal (recommendations (take 5 candidates)),
         {| responseCache :=
              Cache.setCache key (recommendations (take 5 candidates)) (now w)
                (responseCache s');
            log := log s' |})
    end.
Proof.
  intros Ht Htne Hd Hdne Hfetch. unfold Pipeline.leetCode.
  rewrite (missing_present _ _ Ht Htne), (missing_present _ _ Hd Hdne).
  rewrite Ht, Hd. cbn [orb default from_option id].
  unfold fetchLeetCodeCandidates, bindM at 1 2, emit, lift at 1.
  rewrite Hfetch. fold (afterFetch t s). unfold catch, bindM at 1.
  destruct (mentor t (difficulty req) d candidates summary (afterFetch t s))
    as [[normalized | e] s']; reflexivity.
Qed.

Lemma hackerRank_run req key summary t d candidates s :
  topic req = Some t → t ≠ "" → description req = Some d → d ≠ "" →
  leetcode w t = Normal candidates →
  hackerRank req key summary s
  = match mentor t (difficulty req) d candidates summary (afterFetch t s) with
    | (Normal normalized, s') =>
        (Normal normalized,
         {| responseCache :=
              Cache.setCache key normalized (now w) (responseCache s');
            log := log s' |})
    | (Throw _, s') => (Normal (recommendations (take 5 candidates)), s')
    end.
Proof.
  intros Ht Htne Hd Hdne Hfetch. unfold Pipeline.hackerRank.
  rewrite (missing_present _ _ Ht Htne), (missing_present _ _ Hd Hdne).
  rewrite Ht, Hd. cbn [orb default from_option id].
  unfold fetchLeetCodeCandidates, bindM at 1 2, emit, lift at 1.
  rewrite Hfetch. fold (afterFetch t s). unfold catch, bindM at 1.
  destruct (mentor t (difficulty req) d candidates summary (afterFetch t s))
    as [[normalized | e] s']; reflexivity.
Qed.

Lemma requestPromise_LeetCode req summary dominantTopics :
  platform req = Some "LeetCode" →
  requestPromise req summary dominantTopics = leetCode req (cacheKey req) summary.
Proof. intros Hp. unfold Pipeline.requestPromise. by rewrite Hp. Qed.

Lemma requestPromise_HackerRank req summary dominantTopics :
  platform req = Some "HackerRank" →
  requestPromise req summary dominantTopics
  = hackerRank req (cacheKey req) summary.
Proof. intros Hp. unfold Pipeline.requestPromise. by rewrite Hp. Qed.

(** C7: a [LeetCode] or [HackerRank] request that carries a topic and a
    description, whose candidates were fetched, and for which the generation
    service fails on both endpoints, is answered with the first five
    candidates of the provider, in their order, and nothing else: the
    value computed, and the body sent, is the object whose one field
    [recommendations] is the array of these candidates. *)
Theorem practice_fallback_is_raw_top5 (req : request) (summary : string)
    (dominantTopics : list string) (t d : string) (candidates : list value)
    (s : state) (arrival : Z) :
  platform req = Some "LeetCode" ∨ platform req = Some "HackerRank" →
  topic req = Some t → t ≠ "" →
  description req = Some d → d ≠ "" →
  leetcode w t = Normal candidates →
  (∀ prompt, Gateway.fails w Primary prompt) →
  (∀ prompt, Gateway.fails w Fallback prompt) →
  fst (requestPromise req summary dominantTopics s)
  = Normal (VObject [("recommendations", VArray (take 5 candidates))])
  ∧ Server.replies
      (Server.run JSON_parse String_of encodeURIComponent mentorPrompt
         rankingPrompt
         [Server.Arrive req summary dominantTopics arrival;
          Server.Settle 0 w; Server.Resume 0]
         Server.init) !! 0%nat
    = Some (Server.Json
              (VObject [("recommendations", VArray (take 5 candidates))])).
Proof.
  intros Hplat Ht Htne Hd Hdne Hfetch Hp Hf.
  change (VObject [("recommendations", VArray (take 5 candidates))])
    with (recommendations (take 5 candidates)).
  assert (∀ s, fst (requestPromise req summary dominantTopics s)
               = Normal (recommendations (take 5 candidates))) as Hrun.
  { clear s. intros s.
    destruct (mentor_all_fail t (difficulty req) d candidates summary
                (afterFetch t s) Hp Hf) as (s' & Hthrow & _).
    destruct Hplat as [Hplat | Hplat].
    - rewrite (requestPromise_LeetCode _ _ _ Hplat).
      rewrite (leetCode_run _ _ _ _ _ _ _ Ht Htne Hd Hdne Hfetch).
      by rewrite Hthrow.
    - rewrite (requestPromise_HackerRank _ _ _ Hplat).
      rewrite (hackerRank_run _ _ _ _ _ _ _ Ht Htne Hd Hdne Hfetch).
      by rewrite Hthrow. }
  split; [apply Hrun |].
  unfold Server.run. cbn [foldl Server.step].
  unfold Server.arrive, Server.init, Cache.getCache. cbn.
  rewrite !lookup_empty. cbn.
  unfold Server.settle. cbn.
  specialize (Hrun {| responseCache := ∅; log := [] |}).
  destruct (requestPromise req summary dominantTopics _) as [outcome st].
  cbn in Hrun. subst outcome. cbn.
  unfold Server.resume. cbn. rewrite lookup_insert_eq. cbn.
  by rewrite lookup_insert_eq.
Qed.

(** C8: of the two problem-practice branches only [LeetCode] stores its
    fallback (the first five candidates) in the cache: afterwards the cache
    holds, under the key of the request, that fallback with the time of the
    call, and is otherwise as before; [HackerRank] returns the same
    fallback and leaves the cache as it was.  When the generated answer is
    usable both store the assembled result in that way. *)
Theorem fallback_caching_asymmetry (req : request) (summary : string)
    (dominantTopics : list string) (t d : string) (candidates : list value)
    (cache : gmap string (Cache.entry value)) :
  topic req = Some t → t ≠ "" →
  description req = Some d → d ≠ "" →
  leetcode w t = Normal candidates →
  let s0 := {| responseCache := cache; log := [] |} in
  let fallback := VObject [("recommendations", VArray (take 5 candidates))] in
  let attempt :=
    fst (mentor t (difficulty req) d candidates summary (afterFetch t s0)) in
  let outcome := requestPromise req summary dominantTopics s0 in
  (platform req = Some "LeetCode" →
   match attempt with
   | Normal normalized =>
       fst outcome = Normal normalized
       ∧ responseCache (snd outcome)
         = <[cacheKey req :=
               {| Cache.data := normalized; Cache.timestamp := now w |}]> cache
   | Throw _ =>
       fst outcome = Normal fallback
       ∧ responseCache (snd outcome)
         = <[cacheKey req :=
               {| Cache.data := fallback; Cache.timestamp := now w |}]> cache
   end)
  ∧ (platform req = Some "HackerRank" →
     match attempt with
     | Normal normalized =>
         fst outcome = Normal normalized
         ∧ responseCache (snd outcome)
           = <[cacheKey req :=
                 {| Cache.data := normalized; Cache.timestamp := now w |}]> cache
     | Throw _ =>
         fst outcome = Normal fallback
         ∧ responseCache (snd outcome) = cache
     end).
Proof.
  intros Ht Htne Hd Hdne Hfetch s0 fallback attempt outcome.
  change fallback with (recommendations (take 5 candidates)).
  pose proof (mentor_cache t (difficulty req) d candidates summary
                (afterFetch t s0)) as Hframe.
  subst attempt outcome. split; intros Hplat.
  - rewrite (requestPromise_LeetCode _ _ _ Hplat).
    rewrite (leetCode_run _ _ _ _ _ _ _ Ht Htne Hd Hdne Hfetch).
    destruct (mentor t (difficulty req) d candidates summary (afterFetch t s0))
      as [[normalized | e] s']; cbn in *; by rewrite Hframe.
  - rewrite (requestPromise_HackerRank _ _ _ Hplat).
    rewrite (hackerRank_run _ _ _ _ _ _ _ Ht Htne Hd Hdne Hfetch).
    destruct (mentor t (difficulty req) d candidates summary (afterFetch t s0))
      as [[normalized | e] s']; cbn in *; by rewrite ?Hframe.
Qed.

End PipelineFacts.

Lemma generationDown_fails url prompt :
  Gateway.fails Scenario.generationDown url prompt.
Proof. intros n. by eexists. Defined.

Lemma practice_fallback_is_raw_top5_witness :
  fst (Pipeline.requestPromise Scenario.parseMentor Scenario.noString
         Scenario.noEncoding Scenario.mentorPrompt Scenario.rankingPrompt
         Scenario.generationDown (Scenario.practice "HackerRank") "" []
         {| responseCache := ∅; log := [] |})
  = Normal (VObject [("recommendations",
                      VArray (take 5 Scenario.sevenProblems))])
  ∧ Server.replies
      (Server.run Scenario.parseMentor Scenario.noString Scenario.noEncoding
         Scenario.mentorPrompt Scenario.rankingPrompt
         [Server.Arrive (Scenario.practice "HackerRank") "" [] 1000;
          Server.Settle 0 Scenario.generationDown; Server.Resume 0]
         Server.init) !! 0%nat
    = Some (Server.Json
              (VObject [("recommendations",
                         VArray (take 5 Scenario.sevenProblems))])).
Proof.
  apply (practice_fallback_is_raw_top5 Scenario.parseMentor Scenario.noString
           Scenario.noEncoding Scenario.mentorPrompt Scenario.rankingPrompt
           Scenario.generationDown (Scenario.practice "HackerRank") "" []
           "sum" "Given an array of integers" Scenario.sevenProblems
           {| responseCache := ∅; log := [] |} 1000).
  - right. reflexivity.
  - reflexivity.
  - discriminate.
  - reflexivity.
  - discriminate.
  - reflexivity.
  - intros prompt. apply generationDown_fails.
  - intros prompt. apply generationDown_fails.
Defined.

Lemma fallback_caching_asymmetry_witness :
  let run := λ w platformName,
    Pipeline.requestPromise Scenario.parseMentor Scenario.noString
      Scenario.noEncoding Scenario.mentorPrompt Scenario.rankingPrompt
      w (Scenario.practice platformName) "" []
      {| responseCache := ∅; log := [] |} in
  let fallback :=
    VObject [("recommendations", VArray (take 5 Scenario.sevenProblems))] in
  let up := Scenario.generationUp Scenario.mentorText in
  (fst (run Scenario.generationDown "LeetCode") = Normal fallback
   ∧ responseCache (snd (run Scenario.generationDown "LeetCode"))
     = {[ "LeetCode-solve-sum" :=
            {| Cache.data := fallback; Cache.timestamp := 5000 |} ]})
  ∧ (fst (run Scenario.generationDown "HackerRank") = Normal fallback
     ∧ responseCache (snd (run Scenario.generationDown "HackerRank")) = ∅)
  ∧ (fst (run up "LeetCode") = Normal Scenario.mentorResult
     ∧ responseCache (snd (run up "LeetCode"))
       = {[ "LeetCode-solve-sum" :=
              {| Cache.data := Scenario.mentorResult;
                 Cache.timestamp := 5000 |} ]})
  ∧ (fst (run up "HackerRank") = Normal Scenario.mentorResult
     ∧ responseCache (snd (run up "HackerRank"))
       = {[ "HackerRank-solve-sum" :=
              {| Cache.data := Scenario.mentorResult;
                 Cache.timestamp := 5000 |} ]}).
Proof.
  intros run fallback up.
  pose proof (λ w platformName Hfetch,
    fallback_caching_asymmetry Scenario.parseMentor Scenario.noString
      Scenario.noEncoding Scenario.mentorPrompt Scenario.rankingPrompt
      w (Scenario.practice platformName) "" [] "sum"
      "Given an array of integers" Scenario.sevenProblems ∅
      eq_refl ltac:(discriminate) eq_refl ltac:(discriminate) Hfetch) as H.
  cbv zeta in H.
  destruct (H Scenario.generationDown "LeetCode" eq_refl) as [Hdown_lc _].
  destruct (H Scenario.generationDown "HackerRank" eq_refl) as [_ Hdown_hr].
  destruct (H up "LeetCode" eq_refl) as [Hup_lc _].
  destruct (H up "HackerRank" eq_refl) as [_ Hup_hr].
  specialize (Hdown_lc eq_refl). specialize (Hdown_hr eq_refl).
  specialize (Hup_lc eq_refl). specialize (Hup_hr eq_refl).
  split; [exact Hdown_lc |]. split; [exact Hdown_hr |].
  split; [exact Hup_lc | exact Hup_hr].
Defined.

Lemma generateWithAI_empty_answer_witness :
  Gateway.generateWithAI Scenario.generationBlocked "prompt"
    {| responseCache := ∅; log := [] |}
  = (Normal (VString "[]"),
     {| responseCache := ∅; log := [Post Primary "prompt"] |})
  ∧ fst (Gateway.generateWithAI Scenario.generationDown "prompt"
           {| responseCache := ∅; log := [] |})
    = Normal (VString "[]").
Proof.
  assert (Gateway.noText Scenario.blocked) as Hblocked.
  { eapply Gateway.no_content; reflexivity. }
  split.
  - apply (generateWithAI_empty_answer Scenario.generationBlocked "prompt" ∅
             Scenario.blocked Hblocked). reflexivity.
  - apply (generateWithAI_empty_answer Scenario.generationDown "prompt" ∅
             Scenario.blocked Hblocked); apply generationDown_fails.
Defined.

(** ** What a computation may write *)

Section FrameFacts.
Import Pipeline.
Variable JSON_parse : string → completion value.
Variable String_of : value → string.
Variable encodeURIComponent : string → string.
Variable mentorPrompt : string → value → string → string → string.
Variable rankingPrompt : string → string → list value → string.
Variable w : world.
Variable key : string.

Lemma writes_only_ret {A} (a : A) : writes_only key (ret a).
Proof. by intros s k Hk. Qed.

Lemma writes_only_throw {A} (e : exn) : writes_only key (@throw A e).
Proof. by intros s k Hk. Qed.

Lemma writes_only_lift {A} (c : completion A) : writes_only key (lift c).
Proof. by intros s k Hk. Qed.

Lemma writes_only_emit (e : effect) : writes_only key (emit e).
Proof. by intros s k Hk. Qed.

Lemma writes_only_bind {A B} (c : M A) (f : A → M B) :
  writes_only key c → (∀ a, writes_only key (f a)) →
  writes_only key (bindM c f).
Proof.
  intros Hc Hf s k Hk. unfold bindM. specialize (Hc s k Hk).
  destruct (c s) as [[a | e] s1]; cbn in *; [| done].
  by rewrite (Hf a s1 k Hk).
Qed.

Lemma writes_only_catch {A} (c : M A) (h : exn → M A) :
  writes_only key c → (∀ e, writes_only key (h e)) →
  writes_only key (catch c h).
Proof.
  intros Hc Hh s k Hk. unfold catch. specialize (Hc s k Hk).
  destruct (c s) as [[a | e] s1]; cbn in *; [done |].
  by rewrite (Hh e s1 k Hk).
Qed.

Lemma writes_only_setCache data :
  writes_only key (Pipeline.setCache w key data).
Proof.
  intros s k Hk. cbn. unfold Cache.setCache. by rewrite lookup_insert_ne.
Qed.

Lemma writes_only_generateWithAI prompt :
  writes_only key (Gateway.generateWithAI w prompt).
Proof. intros s k Hk. by rewrite generateWithAI_cache. Qed.

Lemma writes_only_mentor t difficulty d candidates summary :
  writes_only key
    (Pipeline.mentor JSON_parse String_of mentorPrompt w t difficulty d
       candidates summary).
Proof. intros s k Hk. by rewrite mentor_cache. Qed.

Lemma writes_only_rankWithGemini t results summary :
  writes_only key (Pipeline.rankWithGemini JSON_parse rankingPrompt w t results summary).
Proof.
  unfold Pipeline.rankWithGemini.
  apply writes_only_bind; [apply writes_only_generateWithAI |]. intros text.
  apply writes_only_bind; [apply writes_only_lift |]. intros [span |].
  - apply writes_only_catch; [apply writes_only_lift |].
    intros e. apply writes_only_ret.
  - apply writes_only_ret.
Qed.

End FrameFacts.

(** The computation of a request writes no cache entry but that of the
    request's own key. *)
Lemma writes_only_requestPromise JSON_parse String_of encodeURIComponent
    mentorPrompt rankingPrompt w req summary dominantTopics :
  writes_only (Pipeline.cacheKey req)
    (Pipeline.requestPromise JSON_parse String_of encodeURIComponent
       mentorPrompt rankingPrompt w req summary dominantTopics).
Proof.
  unfold Pipeline.requestPromise, Pipeline.leetCode, Pipeline.hackerRank,
    Pipeline.coursera, Pipeline.udemy, Pipeline.youTube,
    Pipeline.fetchLeetCodeCandidates, Pipeline.fetchYouTubeResults.
  repeat first
    [ match goal with |- writes_only _ (if ?b then _ else _) => destruct b end
    | apply writes_only_ret
    | apply writes_only_lift
    | apply writes_only_emit
    | apply writes_only_setCache
    | apply writes_only_mentor
    | apply writes_only_rankWithGemini
    | apply writes_only_bind; [| intros ?]
    | apply writes_only_catch; [| intros ?] ].
Qed.

(** ** Request deduplication *)

Section ServerFacts.
Import Server.
Variable JSON_parse : string → completion value.
Variable String_of : value → string.
Variable encodeURIComponent : string → string.
Variable mentorPrompt : string → value → string → string → string.
Variable rankingPrompt : string → string → list value → string.

Local Abbreviation step :=
  (Server.step JSON_parse String_of encodeURIComponent mentorPrompt rankingPrompt).
Local Abbreviation run :=
  (Server.run JSON_parse String_of encodeURIComponent mentorPrompt rankingPrompt).

Lemma silent_step handler s e : silent handler s → silent handler (step s e).
Proof.
  unfold silent. intros (Hlt & Hwait & Hsent).
  destruct e as [req summary dominant now | p w | h]; cbn [Server.step].
  - unfold arrive.
    destruct (Cache.getCache (Pipeline.cacheKey req) now (cache s))
      as [cached cache'].
    destruct (hit cached) as [body |]; cbn.
    + split_and!; [lia | done |]. rewrite lookup_insert_ne; [done | lia].
    + destruct (pendingRequests s !! Pipeline.cacheKey req); cbn.
      * split_and!; [lia | done | done].
      * split_and!; [lia | | done]. rewrite lookup_insert_ne; [done | lia].
  - unfold settle.
    destruct (promises s !! p) as [[req summary dominant | |] |]; try done.
    destruct (Pipeline.requestPromise _ _ _ _ _ _ _ _ _ _) as [outcome st].
    done.
  - unfold resume.
    destruct (awaiting s !! h) as [[key p] |] eqn:Hh; [| done].
    assert (h ≠ handler) by (intros ->; congruence).
    destruct (promises s !! p) as [[| |] |]; try done; cbn;
      (split_and!; [done | by rewrite lookup_delete_ne
                         | by rewrite lookup_insert_ne]).
Qed.

(** Such a handler never sends anything, whatever happens later. *)
Lemma silent_forever handler events s :
  silent handler s → replies (run events s) !! handler = None.
Proof.
  revert s. induction events as [| e events IH]; intros s Hs.
  - apply Hs.
  - cbn. apply IH. by apply silent_step.
Qed.

Lemma wf_step s e : wf s → wf (step s e).
Proof.
  intros Hwf. destruct e as [req summary dominant now | p w | h];
    cbn [Server.step].
  - unfold arrive.
    destruct (Cache.getCache (Pipeline.cacheKey req) now (cache s))
      as [cached cache'].
    destruct (hit cached) as [body |]; cbn.
    + intros h Hh. cbn in *. destruct (Hwf h ltac:(lia)) as [Ha Hr].
      split; [done |]. rewrite lookup_insert_ne; [done | lia].
    + destruct (pendingRequests s !! Pipeline.cacheKey req); cbn.
      * intros h Hh. cbn in *. apply Hwf. lia.
      * intros h Hh. cbn in *. destruct (Hwf h ltac:(lia)) as [Ha Hr].
        split; [| done]. rewrite lookup_insert_ne; [done | lia].
  - unfold settle.
    destruct (promises s !! p) as [[req summary dominant | |] |]; try done.
    by destruct (Pipeline.requestPromise _ _ _ _ _ _ _ _ _ _) as [outcome st].
  - unfold resume.
    destruct (awaiting s !! h) as [[key p] |] eqn:Hh; [| done].
    assert (h < arrivals s)%nat as Hlt.
    { destruct (Nat.lt_ge_cases h (arrivals s)) as [| Hge]; [done |].
      destruct (Hwf h Hge). congruence. }
    destruct (promises s !! p) as [[| |] |]; try done;
      intros h' Hh'; cbn in *; destruct (Hwf h' Hh') as [Ha Hr];
      (split; [rewrite lookup_delete_ne; [done | lia]
              | rewrite lookup_insert_ne; [done | lia]]).
Qed.

Lemma wf_run events s : wf s → wf (run events s).
Proof.
  revert s. induction events as [| e events IH]; intros s Hs; [done |].
  cbn. by apply IH, wf_step.
Qed.

Lemma wf_init : wf init.
Proof. intros h _. split; apply lookup_empty. Qed.

(** A request that finds an entry for its key in [pendingRequests] joins
    it: no computation starts, and its handler ends without a reply. *)
Lemma join_silent s req summary dominant now :
  wf s →
  hit (fst (Cache.getCache (Pipeline.cacheKey req) now (cache s))) = None →
  is_Some (pendingRequests s !! Pipeline.cacheKey req) →
  computations (run [Arrive req summary dominant now] s) = computations s
  ∧ silent (arrivals s) (run [Arrive req summary dominant now] s).
Proof.
  intros Hwf Hmiss [p Hp]. cbn. unfold arrive.
  destruct (Cache.getCache (Pipeline.cacheKey req) now (cache s))
    as [cached cache'].
  cbn in Hmiss. rewrite Hmiss. cbn. rewrite Hp.
  destruct (Hwf (arrivals s) ltac:(lia)) as [Ha Hr].
  unfold silent, computations. cbn. split_and!; [done | lia | done | done].
Qed.

(** C1, on the code: two requests with the same cache key, the second
    arriving while the computation of the first is in flight.  One
    computation runs and the first caller gets its result; the handler of
    the second returns the pending promise without writing to [res], so the
    second caller is never answered.  It is so in every state the server
    can reach: a request that joins a pending computation starts none of
    its own, as claimed, and never gets a reply. *)
Theorem joined_request_is_never_answered :
  let req := Scenario.practice "LeetCode" in
  let s := run [Arrive req "" [] 1000; Arrive req "" [] 1001;
                Settle 0 Scenario.generationDown; Resume 0] init in
  computations s = 1%nat
  ∧ replies s !! 0%nat
    = Some (Json (VObject [("recommendations", VArray (take 5 Scenario.sevenProblems))]))
  ∧ silent 1 s
  ∧ (∀ later, replies (run later s) !! 1%nat = None)
  ∧ ∀ before req' summary dominantTopics now later,
      let s1 := run before init in
      let s2 := run [Arrive req' summary dominantTopics now] s1 in
      hit (fst (Cache.getCache (Pipeline.cacheKey req') now (cache s1))) = None →
      is_Some (pendingRequests s1 !! Pipeline.cacheKey req') →
      computations s2 = computations s1
      ∧ replies (run later s2) !! arrivals s1 = None.
Proof.
  intros req s.
  assert (silent 1 s) as Hsilent by (vm_compute; split_and!; [lia | done | done]).
  split_and!; [by vm_compute | by vm_compute | exact Hsilent | |].
  - intros later. by apply silent_forever.
  - intros before req' summary dominantTopics now later s1 s2 Hmiss Hpending.
    destruct (join_silent s1 req' summary dominantTopics now
                (wf_run before init wf_init) Hmiss Hpending) as [Hsame Hquiet].
    split; [exact Hsame |]. by apply silent_forever.
Qed.

(** A stale entry stays stale, whatever happens. *)
Lemma stale_step key p0 s e : stale key p0 s → stale key p0 (step s e).
Proof.
  intros (Hpending & [err Hrejected] & Hwaiting & Hcomputing & Hcache).
  destruct e as [req summary dominant now | p w | h]; cbn [Server.step].
  - unfold arrive, Cache.getCache.
    destruct (decide (Pipeline.cacheKey req = key)) as [-> | Hne].
    + rewrite Hcache. cbn. rewrite Hpending. by split_and!; [| eexists | | |].
    + assert (∀ c : gmap string (Cache.entry value),
                c !! key = None → delete (Pipeline.cacheKey req) c !! key = None)
        as Hdel by (intros c Hc; by rewrite lookup_delete_ne).
      destruct (cache s !! Pipeline.cacheKey req) as [entry |];
        [destruct (Cache.CACHE_TTL <? now - Cache.timestamp entry) |];
        cbn [hit]; try destruct (Value.truthy (Cache.data entry)); cbn;
        try (destruct (pendingRequests s !! Pipeline.cacheKey req) eqn:Hp; cbn);
        (split_and!; cbn [Server.cache Server.pendingRequests Server.promises
                          Server.awaiting];
         [ by rewrite ?lookup_insert_ne
         | exists err; (exact Hrejected
                        || (apply lookup_app_l_Some; exact Hrejected))
         | first [ exact Hwaiting
                 | intros h k p; rewrite lookup_insert_Some;
                   intros [[_ [= <- _]] | [_ Hh]]; [done | by eapply Hwaiting] ]
         | first [ exact Hcomputing
                 | intros p r a b Hl;
                   apply lookup_app_Some in Hl as [Hl | [_ Hl]];
                   [ by eapply Hcomputing
                   | apply list_lookup_singleton_Some in Hl as [_ [= <- _ _]];
                     done ] ]
         | first [ exact Hcache | by apply Hdel ] ]).
  - unfold settle.
    destruct (promises s !! p) as [[req summary dominant | |] |] eqn:Hp;
      try by split_and!; [| eexists | | |].
    pose proof (writes_only_requestPromise JSON_parse String_of
                  encodeURIComponent mentorPrompt rankingPrompt w req summary
                  dominant {| responseCache := cache s; log := [] |} key
                  (not_eq_sym (Hcomputing _ _ _ _ Hp))) as Hframe.
    destruct (Pipeline.requestPromise _ _ _ _ _ _ _ _ _ _) as [outcome st].
    cbn in Hframe |- *.
    assert (p ≠ p0) as Hpp by (intros ->; congruence).
    split_and!; cbn.
    + done.
    + exists err. by rewrite list_lookup_insert_ne.
    + done.
    + intros p' r a b. destruct (decide (p = p')) as [<- | Hne].
      * rewrite list_lookup_insert_eq by (by eapply lookup_lt_Some).
        by destruct outcome.
      * rewrite list_lookup_insert_ne by done. apply Hcomputing.
    + by rewrite Hframe.
  - unfold resume.
    destruct (awaiting s !! h) as [[k p] |] eqn:Hh;
      [| by split_and!; [| eexists | | |]].
    pose proof (Hwaiting _ _ _ Hh) as Hk.
    assert (∀ h' k' p', delete h (awaiting s) !! h' = Some (k', p') → k' ≠ key)
      as Hwaiting'.
    { intros h' k' p'. rewrite lookup_delete_Some. intros [_ Hh'].
      by eapply Hwaiting. }
    destruct (promises s !! p) as [[| |] |];
      try (by split_and!; [| eexists | | |]);
      (split_and!; cbn [Server.cache Server.pendingRequests Server.promises
                        Server.awaiting];
       [ by rewrite ?lookup_delete_ne | by eexists | exact Hwaiting'
       | exact Hcomputing | exact Hcache ]).
Qed.

Lemma stale_run key p0 events s : stale key p0 s → stale key p0 (run events s).
Proof.
  revert s. induction events as [| e events IH]; intros s Hs; [done |].
  cbn. by apply IH, stale_step.
Qed.

(** A request that arrives at a stale entry joins it: no computation
    starts and its handler writes nothing to [res]. *)
Lemma stale_join key p0 s req summary dominant now :
  stale key p0 s → wf s → Pipeline.cacheKey req = key →
  computations (run [Arrive req summary dominant now] s) = computations s
  ∧ silent (arrivals s) (run [Arrive req summary dominant now] s).
Proof.
  intros (Hpending & _ & _ & _ & Hcache) Hwf <-.
  cbn. unfold arrive, Cache.getCache. rewrite Hcache. cbn. rewrite Hpending.
  destruct (Hwf (arrivals s) ltac:(lia)) as [Ha Hr].
  unfold silent, computations. cbn. split_and!; [done | lia | done | done].
Qed.

(** C2, on the code: the provider is unreachable, so the computation a
    request started is rejected.  Its handler answers 500 from [catch] and
    never reaches [pendingRequests.delete]: the entry stays, pointing to
    the rejected promise.  From then on, whatever else happens, the entry
    is there, and every request for that key joins it instead of
    computing. *)
Theorem rejected_computation_leaves_stale_entry :
  let req := Scenario.practice "LeetCode" in
  let key := Pipeline.cacheKey req in
  let s := run [Arrive req "" [] 1000; Settle 0 Scenario.providerDown;
                Resume 0] init in
  replies s !! 0%nat = Some InternalServerError
  ∧ promises s !! 0%nat = Some (Rejected (AxiosError None))
  ∧ pendingRequests s !! key = Some 0%nat
  ∧ awaiting s = ∅
  ∧ ∀ later req' summary dominantTopics now,
      Pipeline.cacheKey req' = key →
      let s1 := run later s in
      let s2 := run [Arrive req' summary dominantTopics now] s1 in
      pendingRequests s1 !! key = Some 0%nat
      ∧ pendingRequests s2 !! key = Some 0%nat
      ∧ computations s2 = computations s1
      ∧ silent (arrivals s1) s2.
Proof.
  intros req key s.
  assert (awaiting s = ∅) as Hnone by (by vm_compute).
  assert (promises s = [Rejected (AxiosError None)]) as Hone by (by vm_compute).
  assert (stale key 0 s) as Hstale.
  { split_and!.
    - by vm_compute.
    - eexists. by rewrite Hone.
    - intros h k p. by rewrite Hnone, lookup_empty.
    - intros p r a b. rewrite Hone. intros Hl.
      by apply list_lookup_singleton_Some in Hl as [_ [=]].
    - by vm_compute. }
  assert (wf s) as Hwf by apply wf_run, wf_init.
  split_and!;
    [by vm_compute | by rewrite Hone | by vm_compute | exact Hnone |].
  intros later req' summary dominantTopics now Hkey s1 s2.
  pose proof (stale_run key 0 later s Hstale) as Hstale1.
  pose proof (wf_run later s Hwf) as Hwf1.
  destruct (stale_join key 0 s1 req' summary dominantTopics now Hstale1 Hwf1 Hkey)
    as [Hsame Hsilent].
  split_and!; [apply Hstale1 | | exact Hsame | exact Hsilent].
  by apply (stale_step key 0 s1 (Arrive req' summary dominantTopics now)).
Qed.

End ServerFacts.

(** ** Weighted interest profile *)

Section ProfileFacts.
Import Profile.

Lemma decay_lookup (weightedProfile : profile) (k : string) :
  decay weightedProfile !! k
  = (λ v, Num.mul (toNumber v) Num.c098) <$> weightedProfile !! k.
Proof. unfold decay. apply lookup_fmap. Qed.

Lemma decayed_lookup (weightedProfile : profile) (k : string) :
  (number <$> decay weightedProfile : profile) !! k
  = (λ v, number (Num.mul (toNumber v) Num.c098)) <$> weightedProfile !! k.
Proof.
  rewrite lookup_fmap, decay_lookup. by destruct (weightedProfile !! k).
Qed.

Lemma reinforce_none (topic : value) (decayed : gmap string spec_float) :
  uncounted topic → reinforce topic decayed = Normal (number <$> decayed).
Proof. intros H. destruct topic; cbn in H |- *; by rewrite ?H. Qed.

(** The update under a key that counts. *)
Lemma reinforce_counted (t : string) (decayed : gmap string spec_float) :
  hasTopic t = true →
  is_Some (decayed !! normalize t) ∨ Prototype.inherited (normalize t) = false →
  reinforce (VString t) decayed
  = Normal (<[normalize t :=
                number (Num.add (orZero (decayed !! normalize t)) Num.one)]>
              (number <$> decayed)).
Proof.
  intros Ht Hk. unfold reinforce. rewrite Ht. cbv zeta.
  destruct (decayed !! normalize t) as [x |] eqn:Hx; [done |].
  destruct Hk as [[? [=]] | Hk]. rewrite Hk.
  destruct (String.eqb_spec (normalize t) "__proto__") as [Hproto | _]; [| done].
  rewrite Hproto in Hk. discriminate.
Qed.

(** The update under the name of an inherited member. *)
Lemma reinforce_inherited (t : string) (decayed : gmap string spec_float) :
  hasTopic t = true →
  decayed !! normalize t = None → Prototype.inherited (normalize t) = true →
  reinforce (VString t) decayed
  = Normal (if String.eqb (normalize t) "__proto__" then number <$> decayed
            else <[normalize t := printed (normalize t)]> (number <$> decayed)).
Proof.
  intros Ht Hx Hk. unfold reinforce. rewrite Ht. cbv zeta. rewrite Hx, Hk.
  by destruct (String.eqb (normalize t) "__proto__").
Qed.

(** C4, on the code: the update of the profile at the topic
    ["constructor"], and at every topic.  For a new user the profile gets,
    under ["constructor"], not the weight 1 but a string, the text of the
    function that every plain object inherits under that name followed by
    ["1"]; the other weights are decayed as claimed.  The next request
    turns the string into [NaN], so the count is lost, and a second
    request for the topic starts from 1.  Under ["__proto__"] nothing is
    stored.  It is so for every topic of ASCII characters whose normal
    form names an inherited member and is no key of the profile.  For
    every other such topic the claim holds: every stored weight is
    multiplied by [0.98], the topic is counted after that, under its normal
    form, its weight being the decayed old weight plus 1, or 1 when it is
    new, and the profile is saved; without topic the weights are decayed
    and the profile is saved all the same.  A truthy topic that is no
    string ends the handler before the save. *)
Theorem inherited_topic_is_not_counted :
  loadAndUpdate "u1" None (VString "constructor")
  = ([FindOne "u1"; Save "u1" {[ "constructor" := printed "constructor" ]}],
     Normal {[ "constructor" := printed "constructor" ]})
  ∧ loadAndUpdate "u1" (Some {[ "python" := number Num.one ]})
      (VString " Constructor ")
    = ([FindOne "u1";
        Save "u1" (<[ "constructor" := printed "constructor" ]>
                     {[ "python" := number Num.c098 ]})],
       Normal (<[ "constructor" := printed "constructor" ]>
                 {[ "python" := number Num.c098 ]}))
  ∧ snd (loadAndUpdate "u1" (Some {[ "constructor" := printed "constructor" ]})
           VUndefined)
    = Normal {[ "constructor" := number S754_nan ]}
  ∧ snd (loadAndUpdate "u1" (Some {[ "constructor" := printed "constructor" ]})
           (VString "constructor"))
    = Normal {[ "constructor" := number Num.one ]}
  ∧ loadAndUpdate "u1" None (VString "__proto__")
    = ([FindOne "u1"; Save "u1" ∅], Normal ∅)
  ∧ loadAndUpdate "u1" None (VString "python")
    = ([FindOne "u1"; Save "u1" {[ "python" := number Num.one ]}],
       Normal {[ "python" := number Num.one ]})
  ∧ (∀ userId found t,
       let stored : profile := default ∅ found in
       let key := normalize t in
       JsString.isAscii t = true → hasTopic t = true →
       stored !! key = None → Prototype.inherited key = true →
       ∃ updated : profile,
         loadAndUpdate userId found (VString t)
         = ([FindOne userId; Save userId updated], Normal updated)
         ∧ updated !! key
           = (if String.eqb key "__proto__" then None else Some (printed key))
         ∧ ∀ k, k ≠ key →
             updated !! k
             = (λ v, number (Num.mul (toNumber v) Num.c098)) <$> stored !! k)
  ∧ (∀ userId found t,
       let stored : profile := default ∅ found in
       let key := normalize t in
       JsString.isAscii t = true → hasTopic t = true →
       is_Some (stored !! key) ∨ Prototype.inherited key = false →
       ∃ updated : profile,
         loadAndUpdate userId found (VString t)
         = ([FindOne userId; Save userId updated], Normal updated)
         ∧ (∀ v, stored !! key = Some v →
              let decayed := Num.mul (toNumber v) Num.c098 in
              updated !! key
              = Some (number (Num.add (if Num.truthy decayed then decayed
                                       else Num.zero) Num.one)))
         ∧ (stored !! key = None → updated !! key = Some (number Num.one))
         ∧ ∀ k, k ≠ key →
             updated !! k
             = (λ v, number (Num.mul (toNumber v) Num.c098)) <$> stored !! k)
  ∧ (∀ userId found topic,
       let stored : profile := default ∅ found in
       uncounted topic →
       ∃ updated : profile,
         loadAndUpdate userId found topic
         = ([FindOne userId; Save userId updated], Normal updated)
         ∧ ∀ k, updated !! k
                = (λ v, number (Num.mul (toNumber v) Num.c098)) <$> stored !! k)
  ∧ (∀ userId found topic,
       Value.truthy topic = true → (∀ t, topic ≠ VString t) →
       ∃ msg, loadAndUpdate userId found topic
              = ([FindOne userId], Throw (TypeError msg))).
Proof.
  do 6 (split; [reflexivity |]). split_and!.
  - intros userId found t stored key _ Ht Hnone Hin.
    unfold loadAndUpdate. fold stored.
    assert (decay stored !! key = None) as Hd by (by rewrite decay_lookup, Hnone).
    rewrite (reinforce_inherited t _ Ht Hd Hin). fold key.
    eexists. split; [reflexivity |].
    destruct (String.eqb key "__proto__").
    + split; [by rewrite decayed_lookup, Hnone |].
      intros k _. apply decayed_lookup.
    + split; [apply lookup_insert_eq |].
      intros k Hk. rewrite lookup_insert_ne by done. apply decayed_lookup.
  - intros userId found t stored key _ Ht Hkey.
    unfold loadAndUpdate. fold stored.
    rewrite (reinforce_counted t _ Ht).
    2:{ fold key. destruct Hkey as [Hown | Hno]; [left | by right].
        rewrite decay_lookup. by apply fmap_is_Some. }
    fold key. eexists. split; [reflexivity |]. split_and!.
    + intros v Hv. cbv zeta. rewrite lookup_insert_eq, decay_lookup, Hv. reflexivity.
    + intros Hnone. rewrite lookup_insert_eq, decay_lookup, Hnone. by vm_compute.
    + intros k Hk. rewrite lookup_insert_ne by done. apply decayed_lookup.
  - intros userId found topic stored Hno.
    unfold loadAndUpdate. fold stored. rewrite (reinforce_none _ _ Hno).
    eexists. split; [reflexivity |]. intros k. apply decayed_lookup.
  - intros userId found topic Htruthy Hstring.
    unfold loadAndUpdate, reinforce.
    destruct topic; try discriminate; try (by destruct (Hstring s));
      cbn in Htruthy |- *; rewrite ?Htruthy; by eexists.
Qed.

End ProfileFacts.

(** ** Decay in binary64 arithmetic *)

Section DecayFacts.

(** One step of the shift used by rounding: halve the mantissa, keep the
    bit shifted out as round bit, fold the old round bit into the sticky
    bit. *)
Lemma shr_1_spec m r s :
  0 <= m -> shr_1 {| shr_m := m; shr_r := r; shr_s := s |}
            = {| shr_m := m / 2; shr_r := Z.odd m; shr_s := r || s |}.
Proof.
  intros Hm. rewrite <- Z.div2_div.
  destruct m as [| p | p]; [reflexivity | | lia].
  destruct p; reflexivity.
Qed.

(** [iter_pos] iterates [Pos.to_nat p] times. *)
Lemma iter_pos_nat {A} (f : A -> A) p x :
  SpecFloat.iter_pos f p x = Nat.iter (Pos.to_nat p) f x.
Proof.
  revert x. induction p as [p IH | p IH |]; intros x; cbn [SpecFloat.iter_pos].
  - rewrite !IH, Pos2Nat.inj_xI. 
    replace (S (2 * Pos.to_nat p))%nat with (Pos.to_nat p + (Pos.to_nat p + 1))%nat by lia.
    rewrite !Nat.iter_add. reflexivity.
  - rewrite !IH, Pos2Nat.inj_xO.
    replace (2 * Pos.to_nat p)%nat with (Pos.to_nat p + Pos.to_nat p)%nat by lia.
    rewrite Nat.iter_add. reflexivity.
  - reflexivity.
Qed.

(** [k + 1] shifts of [M]: the quotient by [2^(k+1)], with bit [k] of
    [M] as round bit and the bits below as sticky bit. *)
Lemma iter_shr_1 k M :
  0 <= M ->
  Nat.iter (S k) shr_1 {| shr_m := M; shr_r := false; shr_s := false |}
  = {| shr_m := M / 2 ^ Z.of_nat (S k);
       shr_r := Z.odd (M / 2 ^ Z.of_nat k);
       shr_s := negb (M mod 2 ^ Z.of_nat k =? 0) |}.
Proof.
  intros HM. induction k as [| k IH].
  - cbn [Nat.iter]. rewrite shr_1_spec by assumption.
    change (2 ^ Z.of_nat 1) with 2. change (2 ^ Z.of_nat 0) with 1.
    rewrite Z.div_1_r, Z.mod_1_r. reflexivity.
  - rewrite Nat.iter_succ, IH.
    assert (0 < 2 ^ Z.of_nat k) by (apply Z.pow_pos_nonneg; lia).
    assert (0 < 2 ^ Z.of_nat (S k)) by (apply Z.pow_pos_nonneg; lia).
    rewrite shr_1_spec by (apply Z.div_pos; lia).
    assert (2 ^ Z.of_nat (S k) = 2 ^ Z.of_nat k * 2) as Hpow.
    { rewrite Nat2Z.inj_succ, Z.pow_succ_r by lia. lia. }
    f_equal.
    + rewrite Z.div_div by lia. f_equal.
      rewrite (Nat2Z.inj_succ (S k)), Z.pow_succ_r by lia. lia.
    + rewrite Hpow, Z.rem_mul_r by lia.
      set (a := M / 2 ^ Z.of_nat k).
      set (b := M mod 2 ^ Z.of_nat k).
      assert (0 <= b < 2 ^ Z.of_nat k) by (apply Z.mod_pos_bound; lia).
      pose proof (Z.mod_pos_bound a 2 ltac:(lia)).
      rewrite Zodd_mod.
      destruct (Z.eqb_spec (a mod 2) 1) as [Ha | Ha];
      destruct (Z.eqb_spec b 0) as [Hb | Hb]; cbn;
      destruct (Z.eqb_spec (b + 2 ^ Z.of_nat k * (a mod 2)) 0);
        try reflexivity; try lia; nia.
Qed.

(** Shifting by [p] and rounding to nearest-even is [rne] by [2^p]. *)
Lemma shr_round M E p :
  0 <= M ->
  let '(mrs, e) := shr {| shr_m := M; shr_r := false; shr_s := false |} E (Zpos p) in
  round_nearest_even (shr_m mrs) (loc_of_shr_record mrs) = Num.rne M (2 ^ Zpos p)
  /\ e = E + Zpos p.
Proof.
  intros HM. cbn [shr]. split; [| reflexivity].
  rewrite iter_pos_nat.
  destruct (Pos2Nat.is_succ p) as [k Hk]. rewrite Hk.
  rewrite iter_shr_1 by assumption.
  assert (Zpos p = Z.of_nat (S k)) as -> by lia.
  assert (0 < 2 ^ Z.of_nat k) by (apply Z.pow_pos_nonneg; lia).
  assert (2 ^ Z.of_nat (S k) = 2 ^ Z.of_nat k * 2) as Hpow.
  { rewrite Nat2Z.inj_succ, Z.pow_succ_r by lia. lia. }
  assert (M mod 2 ^ Z.of_nat (S k)
          = M mod 2 ^ Z.of_nat k + 2 ^ Z.of_nat k * ((M / 2 ^ Z.of_nat k) mod 2))
    as Hrem by (rewrite Hpow, Z.rem_mul_r by lia; reflexivity).
  unfold Num.rne. rewrite Hrem.
  set (q := M / 2 ^ Z.of_nat (S k)).
  set (a := M / 2 ^ Z.of_nat k).
  set (b := M mod 2 ^ Z.of_nat k).
  assert (0 <= b < 2 ^ Z.of_nat k) by (apply Z.mod_pos_bound; lia).
  pose proof (Z.mod_pos_bound a 2 ltac:(lia)).
  cbn [shr_m loc_of_shr_record].
  rewrite Zodd_mod.
  destruct (Z.eqb_spec (a mod 2) 1) as [Ha | Ha];
  destruct (Z.eqb_spec b 0) as [Hb | Hb]; cbn [negb round_nearest_even];
  destruct (Z.compare_spec (2 * (b + 2 ^ Z.of_nat k * (a mod 2)))
                           (2 ^ Z.of_nat (S k)));
  try reflexivity; try lia; nia.
Qed.

(** [digits2_pos] counts binary digits. *)
Lemma digits2_bounds p :
  2 ^ (Zpos (digits2_pos p) - 1) <= Zpos p < 2 ^ Zpos (digits2_pos p).
Proof.
  induction p as [p IH | p IH |]; cbn [digits2_pos].
  - rewrite Pos2Z.inj_succ, Z.pow_succ_r by lia.
    replace (Z.succ (Zpos (digits2_pos p)) - 1)
      with (Z.succ (Zpos (digits2_pos p) - 1)) by lia.
    rewrite Z.pow_succ_r by lia. lia.
  - rewrite Pos2Z.inj_succ, Z.pow_succ_r by lia.
    replace (Z.succ (Zpos (digits2_pos p)) - 1)
      with (Z.succ (Zpos (digits2_pos p) - 1)) by lia.
    rewrite Z.pow_succ_r by lia. lia.
  - cbn. lia.
Qed.

Lemma digits2_unique p d :
  2 ^ (d - 1) <= Zpos p < 2 ^ d -> Zpos (digits2_pos p) = d.
Proof.
  intros [Hlo Hhi]. pose proof (digits2_bounds p) as [Hlo' Hhi'].
  assert (0 < d).
  { destruct (Z_lt_le_dec 0 d) as [| Hd]; [assumption |].
    assert (2 ^ d <= 2 ^ 0) by (apply Z.pow_le_mono_r; lia).
    change (2 ^ 0) with 1 in *. lia. }
  destruct (Z.lt_trichotomy (Zpos (digits2_pos p)) d) as [Hlt | [Heq | Hgt]];
    [| assumption |].
  - assert (2 ^ Zpos (digits2_pos p) <= 2 ^ (d - 1))
      by (apply Z.pow_le_mono_r; lia). lia.
  - assert (2 ^ d <= 2 ^ (Zpos (digits2_pos p) - 1))
      by (apply Z.pow_le_mono_r; lia). lia.
Qed.

(** Rounding an exact product whose rounded mantissa has at most 53
    digits: shift by [n], round to nearest-even, done. *)
Lemma round_shift_plain (M : positive) (E : Z) (n : positive) (d : Z) (r : positive) :
  Zpos (digits2_pos M) = d ->
  fexp 53 1024 (d + E) - E = Zpos n ->
  Num.rne (Zpos M) (2 ^ Zpos n) = Zpos r ->
  fexp 53 1024 (Zpos (digits2_pos r) + (E + Zpos n)) <= E + Zpos n ->
  E + Zpos n <= 971 ->
  Num.round (Zpos M) E = S754_finite false r (E + Zpos n).
Proof.
  intros Hd Hn Hr Hcanon Hmax.
  unfold Num.round, Num.prec, Num.emax, binary_round_aux, shr_fexp.
  cbn [Zdigits2 shr_record_of_loc]. rewrite Hd, Hn.
  pose proof (shr_round (Zpos M) E n ltac:(lia)) as Hshr.
  destruct (shr _ E (Zpos n)) as [mrs e']. destruct Hshr as [Hround ->].
  rewrite Hround, Hr. cbn [Zdigits2].
  destruct (fexp 53 1024 (Zpos (digits2_pos r) + (E + Zpos n)) - (E + Zpos n))
    as [| k | k] eqn:Hk; try lia.
  - cbn [shr shr_m]. destruct (Z.leb_spec (E + Zpos n) (1024 - 53)); [reflexivity | lia].
  - cbn [shr shr_m]. destruct (Z.leb_spec (E + Zpos n) (1024 - 53)); [reflexivity | lia].
Qed.

(** [rne M D] is within a half of [M / D]. *)
Lemma rne_near M D :
  0 < D -> 2 * M - D <= 2 * D * Num.rne M D <= 2 * M + D.
Proof.
  intros HD. unfold Num.rne.
  pose proof (Z.div_mod M D ltac:(lia)).
  pose proof (Z.mod_pos_bound M D HD).
  destruct (Z.compare_spec (2 * (M mod D)) D); [destruct (Z.even (M / D)) | |]; nia.
Qed.

(** The heart of the decay: the product of a positive double and [0.98]
    is again a positive double, below the first in the order of pairs
    (exponent, mantissa), or equal to it, which happens only for the
    multiples of 2^-1074 up to 24. *)
Lemma decay_finite m e :
  bounded 53 1024 m e = true ->
  exists m' e',
    Num.mul (S754_finite false m e) Num.c098 = S754_finite false m' e'
    /\ bounded 53 1024 m' e' = true
    /\ (e' < e
        \/ (e' = e /\ Zpos m' < Zpos m)
        \/ (e' = e /\ m' = m /\ e = -1074 /\ Zpos m <= 24)).
Proof.
  intros Hb. unfold bounded, canonical_mantissa in Hb.
  apply andb_true_iff in Hb as [Hcan Hmax].
  apply Z.eqb_eq in Hcan. apply Z.leb_le in Hmax.
  pose proof (digits2_bounds m) as Hm.
  unfold fexp, emin in Hcan.
  change (Num.mul (S754_finite false m e) Num.c098)
    with (Num.round (Zpos (m * 8827055269646172)) (e + -53)).
  pose proof (digits2_bounds (m * 8827055269646172)) as HM.
  assert (Zpos (m * 8827055269646172) = Zpos m * 8827055269646172) as HMval by reflexivity.
  destruct (Z.eq_dec e (-1074)) as [-> | He].
  - (* the lowest binade: subnormal numbers and the smallest normal ones *)
    assert (Zpos (digits2_pos m) <= 53) as Hd by lia.
    assert (Zpos m < 2 ^ 53) as Hm53.
    { eapply Z.lt_le_trans; [apply Hm |]. apply Z.pow_le_mono_r; lia. }
    change (2 ^ 53) with 9007199254740992 in Hm53.
    assert (Zpos (digits2_pos (m * 8827055269646172)) <= 106) as HdM.
    { destruct (Z_le_gt_dec (Zpos (digits2_pos (m * 8827055269646172))) 106); [assumption |].
      assert (2 ^ 106 <= 2 ^ (Zpos (digits2_pos (m * 8827055269646172)) - 1))
        by (apply Z.pow_le_mono_r; lia).
      change (2 ^ 106) with 81129638414606681695789005144064 in *. lia. }
    pose proof (rne_near (Zpos (m * 8827055269646172)) (2 ^ 53) ltac:(reflexivity)) as Hnear.
    change (2 ^ 53) with 9007199254740992 in Hnear.
    destruct (Num.rne (Zpos (m * 8827055269646172)) 9007199254740992) as [| r | r] eqn:Hr; try lia.
    assert (Zpos r <= Zpos m) as Hrm by lia.
    assert (Zpos (digits2_pos r) <= 53) as Hdr.
    { pose proof (digits2_bounds r) as Hr'.
      destruct (Z_le_gt_dec (Zpos (digits2_pos r)) 53); [assumption |].
      assert (2 ^ 53 <= 2 ^ (Zpos (digits2_pos r) - 1))
        by (apply Z.pow_le_mono_r; lia).
      change (2 ^ 53) with 9007199254740992 in *. lia. }
    exists r, (-1074).
    rewrite (round_shift_plain (m * 8827055269646172) (-1074 + -53) 53 _ r eq_refl);
      try (unfold fexp, emin; lia); try exact Hr.
    split; [reflexivity |]. split.
    + unfold bounded, canonical_mantissa, fexp, emin.
      apply andb_true_iff. split; [apply Z.eqb_eq | apply Z.leb_le]; lia.
    + destruct (Z.eq_dec (Zpos r) (Zpos m)) as [Heq | Hne].
      * right. right. injection Heq as ->. repeat split; lia.
      * right. left. lia.
  - (* normal numbers above the lowest binade *)
    assert (Zpos (digits2_pos m) = 53) as Hd by lia.
    rewrite Hd in Hm. change (2 ^ (53 - 1)) with 4503599627370496 in Hm.
    change (2 ^ 53) with 9007199254740992 in Hm.
    destruct (Z_lt_le_dec (Zpos (m * 8827055269646172)) (2 ^ 105)) as [Hlow | Hhigh].
    + (* the product has 105 digits *)
      change (2 ^ 105) with 40564819207303340847894502572032 in Hlow.
      assert (Zpos (digits2_pos (m * 8827055269646172)) = 105) as HdM.
      { apply digits2_unique.
        change (2 ^ (105 - 1)) with 20282409603651670423947251286016.
        change (2 ^ 105) with 40564819207303340847894502572032. lia. }
      pose proof (rne_near (Zpos (m * 8827055269646172)) (2 ^ 52) ltac:(reflexivity)) as Hnear.
      change (2 ^ 52) with 4503599627370496 in Hnear.
      destruct (Num.rne (Zpos (m * 8827055269646172)) 4503599627370496) as [| r | r] eqn:Hr;
        try lia.
      (* no multiple of the mantissa of 0.98 is close enough to 2^105 for
         the rounding to carry into a 54th digit *)
      assert (Zpos r < 9007199254740992) as Hplain by lia.
      assert (Zpos (digits2_pos r) = 53) as Hdr.
      { apply digits2_unique.
        change (2 ^ (53 - 1)) with 4503599627370496.
        change (2 ^ 53) with 9007199254740992. lia. }
      exists r, (e + -53 + 52).
      rewrite (round_shift_plain (m * 8827055269646172) (e + -53) 52 _ r HdM);
        try (unfold fexp, emin; lia); try exact Hr.
      split; [reflexivity |]. split.
      * unfold bounded, canonical_mantissa, fexp, emin.
        apply andb_true_iff. split; [apply Z.eqb_eq | apply Z.leb_le]; lia.
      * left. lia.
    + (* the product has 106 digits *)
      change (2 ^ 105) with 40564819207303340847894502572032 in Hhigh.
      assert (Zpos (digits2_pos (m * 8827055269646172)) = 106) as HdM.
      { apply digits2_unique.
        change (2 ^ (106 - 1)) with 40564819207303340847894502572032.
        change (2 ^ 106) with 81129638414606681695789005144064. lia. }
      pose proof (rne_near (Zpos (m * 8827055269646172)) (2 ^ 53) ltac:(reflexivity)) as Hnear.
      change (2 ^ 53) with 9007199254740992 in Hnear.
      destruct (Num.rne (Zpos (m * 8827055269646172)) 9007199254740992) as [| r | r] eqn:Hr;
        try lia.
      assert (Zpos (digits2_pos r) = 53) as Hdr.
      { apply digits2_unique.
        change (2 ^ (53 - 1)) with 4503599627370496.
        change (2 ^ 53) with 9007199254740992. lia. }
      exists r, (e + -53 + 53).
      rewrite (round_shift_plain (m * 8827055269646172) (e + -53) 53 _ r HdM);
        try (unfold fexp, emin; lia); try exact Hr.
      split; [reflexivity |]. split.
      * unfold bounded, canonical_mantissa, fexp, emin.
        apply andb_true_iff. split; [apply Z.eqb_eq | apply Z.leb_le]; lia.
      * right. left. split; lia.
Qed.

(** The order on positive doubles in canonical form is the order of the
    pairs (exponent, mantissa). *)
Lemma leb_finite m1 e1 m2 e2 :
  Num.leb (S754_finite false m1 e1) (S754_finite false m2 e2) = true
  <-> e1 < e2 \/ (e1 = e2 /\ Zpos m1 <= Zpos m2).
Proof.
  unfold Num.leb, SFleb, SFcompare.
  change (Pos.compare_cont Eq m1 m2) with (Pos.compare m1 m2).
  destruct (Z.compare_spec e1 e2); [destruct (Pos.compare_spec m1 m2) | |];
    split; intros; try discriminate; try reflexivity; lia.
Qed.

Lemma ltb_finite m1 e1 m2 e2 :
  Num.ltb (S754_finite false m1 e1) (S754_finite false m2 e2) = true
  <-> e1 < e2 \/ (e1 = e2 /\ Zpos m1 < Zpos m2).
Proof.
  unfold Num.ltb, SFltb, SFcompare.
  change (Pos.compare_cont Eq m1 m2) with (Pos.compare m1 m2).
  destruct (Z.compare_spec e1 e2); [destruct (Pos.compare_spec m1 m2) | |];
    split; intros; try discriminate; try reflexivity; lia.
Qed.

Lemma pos_finite_inv w :
  Num.pos_finite w = true ->
  exists m e, w = S754_finite false m e /\ bounded 53 1024 m e = true.
Proof.
  destruct w as [| | | [|] m e]; try discriminate. intros H. by exists m, e.
Qed.

(** The 24 smallest positive doubles are fixed points of the decay. *)
Lemma decay_fixed m :
  Zpos m <= 24 -> Num.mul (Num.tiny m) Num.c098 = Num.tiny m.
Proof.
  intros Hm.
  do 5 (try destruct m as [m | m |]); try lia; reflexivity.
Qed.

(** One decay of one weight. *)
Lemma decay_weight w :
  Num.pos_finite w = true ->
  Num.pos_finite (Num.mul w Num.c098) = true
  /\ Num.ltb Num.zero (Num.mul w Num.c098) = true
  /\ Num.leb (Num.mul w Num.c098) w = true
  /\ (Num.leb (Num.tiny 25) w = true -> Num.ltb (Num.mul w Num.c098) w = true)
  /\ (Num.leb w (Num.tiny 24) = true -> Num.mul w Num.c098 = w).
Proof.
  intros Hw. destruct (pos_finite_inv w Hw) as (m & e & -> & Hb).
  destruct (decay_finite m e Hb) as (m' & e' & Hmul & Hb' & Hord).
  rewrite Hmul. split_and!.
  - exact Hb'.
  - reflexivity.
  - apply leb_finite. lia.
  - intros Hbig. apply leb_finite in Hbig. apply ltb_finite. lia.
  - intros Hsmall. apply leb_finite in Hsmall. rewrite <- Hmul.
    unfold bounded, canonical_mantissa, fexp, emin in Hb.
    apply andb_true_iff in Hb as [Hcan _]. apply Z.eqb_eq in Hcan.
    assert (e = -1074) as -> by lia.
    apply decay_fixed. lia.
Qed.

Lemma leb_trans a b c :
  Num.pos_finite a = true -> Num.pos_finite b = true ->
  Num.pos_finite c = true ->
  Num.leb a b = true -> Num.leb b c = true -> Num.leb a c = true.
Proof.
  intros Ha Hb Hc.
  destruct (pos_finite_inv a Ha) as (ma & ea & -> & _).
  destruct (pos_finite_inv b Hb) as (mb & eb & -> & _).
  destruct (pos_finite_inv c Hc) as (mc & ec & -> & _).
  rewrite !leb_finite. lia.
Qed.

Lemma leb_refl a : Num.pos_finite a = true -> Num.leb a a = true.
Proof.
  intros Ha. destruct (pos_finite_inv a Ha) as (m & e & -> & _).
  apply leb_finite. lia.
Qed.

End DecayFacts.

Section DecayOnly.
Import Profile.

Lemma loadAndUpdate_no_topic userId (weightedProfile : profile) :
  loadAndUpdate userId (Some weightedProfile) VUndefined
  = ([FindOne userId; Save userId (number <$> decay weightedProfile)],
     Normal (number <$> decay weightedProfile)).
Proof. reflexivity. Qed.

Lemma decay_all_positive (weightedProfile : profile) :
  all_positive weightedProfile →
  all_positive (number <$> decay weightedProfile).
Proof.
  intros Hall k v. rewrite decayed_lookup.
  destruct (weightedProfile !! k) as [v0 |] eqn:Hk; [| discriminate].
  intros [= <-]. destruct (Hall k v0 Hk) as (x & -> & Hx).
  eexists. split; [reflexivity |]. by apply decay_weight.
Qed.

Lemma decayOnly_positive userId n (weightedProfile : profile) k w :
  all_positive weightedProfile →
  weightedProfile !! k = Some (number w) →
  ∃ w', decayOnly userId n weightedProfile !! k = Some (number w')
        ∧ Num.pos_finite w' = true
        ∧ Num.leb w' w = true.
Proof.
  revert weightedProfile w.
  induction n as [| n IH]; intros weightedProfile w Hall Hk.
  - destruct (Hall k _ Hk) as (x & [= <-] & Hx).
    exists w. split_and!; [done | done | by apply leb_refl].
  - cbn [decayOnly]. rewrite loadAndUpdate_no_topic. cbn [snd].
    destruct (Hall k _ Hk) as (x & [= <-] & Hx).
    destruct (decay_weight w Hx) as (Hpos & _ & Hle & _).
    destruct (IH (number <$> decay weightedProfile) (Num.mul w Num.c098))
      as (w' & Hk' & Hpos' & Hle').
    + by apply decay_all_positive.
    + by rewrite decayed_lookup, Hk.
    + exists w'. split_and!; [done | done |].
      by apply (leb_trans w' (Num.mul w Num.c098) w).
Qed.

(** C5, amended: a request without topic replaces every weight [w] by the
    double nearest to [w × 0.98].  For a positive weight the new weight is
    positive again and never greater; it is smaller as long as [w] is at
    least 25 × 2^-1074, and it is [w] itself for the 24 positive doubles
    below that.  So however many such requests follow one another, every
    weight stays positive: none reaches zero or turns negative. *)
Theorem decay_only_keeps_weights_positive (userId : string)
    (weightedProfile : profile) :
  all_positive weightedProfile →
  (∃ updated : profile,
     snd (loadAndUpdate userId (Some weightedProfile) VUndefined)
     = Normal updated
     ∧ ∀ k w, weightedProfile !! k = Some (number w) →
         let w' := Num.mul w Num.c098 in
         updated !! k = Some (number w')
         ∧ Num.pos_finite w' = true
         ∧ Num.ltb Num.zero w' = true
         ∧ Num.leb w' w = true
         ∧ (Num.leb (Num.tiny 25) w = true → Num.ltb w' w = true)
         ∧ (Num.leb w (Num.tiny 24) = true → w' = w))
  ∧ (∀ n k w, weightedProfile !! k = Some (number w) →
       ∃ w', decayOnly userId n weightedProfile !! k = Some (number w')
             ∧ Num.pos_finite w' = true
             ∧ Num.ltb Num.zero w' = true
             ∧ Num.leb w' w = true).
Proof.
  intros Hall. split.
  - rewrite loadAndUpdate_no_topic. eexists. split; [reflexivity |].
    intros k w Hk w'.
    destruct (Hall k _ Hk) as (x & [= <-] & Hx).
    destruct (decay_weight w Hx) as (Hpos & Hzero & Hle & Hlt & Hfix).
    split_and!; try done.
    by rewrite decayed_lookup, Hk.
  - intros n k w Hk.
    destruct (decayOnly_positive userId n weightedProfile k w Hall Hk)
      as (w' & Hk' & Hpos' & Hle').
    exists w'. split_and!; try done.
    destruct (pos_finite_inv w' Hpos') as (m & e & -> & _). reflexivity.
Qed.

End DecayOnly.

Lemma decay_only_keeps_weights_positive_witness :
  let weightedProfile : Profile.profile :=
    {[ "python" := Profile.number Num.one ]} in
  Profile.all_positive weightedProfile
  ∧ snd (Profile.loadAndUpdate "u1" (Some weightedProfile) VUndefined)
    = Normal {[ "python" := Profile.number Num.c098 ]}
  ∧ Num.ltb Num.c098 Num.one = true
  ∧ ∃ w', Profile.decayOnly "u1" 1000 weightedProfile !! "python"
          = Some (Profile.number w')
          ∧ Num.ltb Num.zero w' = true.
Proof.
  intros weightedProfile.
  assert (Profile.all_positive weightedProfile) as Hall.
  { intros k v Hk. unfold weightedProfile in Hk.
    apply lookup_singleton_Some in Hk as [_ <-]. by eexists. }
  destruct (decay_only_keeps_weights_positive "u1" weightedProfile Hall)
    as [(updated & Hrun & Hone) Hmany].
  destruct (Hone "python" Num.one) as (Hk & _ & _ & _ & Hlt & _);
    [reflexivity |].
  destruct (Hmany 1000%nat "python" Num.one) as (w' & Hk' & _ & Hpos & _);
    [reflexivity |].
  split_and!; [exact Hall | reflexivity | apply Hlt; reflexivity |].
  exists w'. by split.
Defined.

(** C5 as stated fails: a weight of 24 × 2^-1074, which a weight of 1
    reaches after 36700 requests without topic, is left as it is by the
    next such request, since 24 × 0.98 = 23.52 rounds back to 24.  So not
    every positive weight is strictly decreased. *)
Lemma decay_stalls_at_24_ulps :
  Profile.decayOnly "u1" (Z.to_nat 36700) {[ "python" := Profile.number Num.one ]}
    !! "python"
  = Some (Profile.number (Num.tiny 24))
  ∧ ¬ (∀ (weightedProfile : Profile.profile) (k : string) (w : spec_float),
         weightedProfile !! k = Some (Profile.number w) →
         Num.pos_finite w = true →
         ∃ (updated : Profile.profile) (w' : spec_float),
           snd (Profile.loadAndUpdate "u1" (Some weightedProfile) VUndefined)
           = Normal updated
           ∧ updated !! k = Some (Profile.number w')
           ∧ Num.ltb w' w = true).
Proof.
  split; [by vm_compute |].
  intros Hclaim.
  destruct (Hclaim {[ "python" := Profile.number (Num.tiny 24) ]} "python"
              (Num.tiny 24))
    as (updated & w' & Hrun & Hk & Hlt); [reflexivity | reflexivity |].
  change (Normal {[ "python" := Profile.number (Num.tiny 24) ]} = Normal updated)
    in Hrun.
  injection Hrun as <-.
  apply lookup_singleton_Some in Hk as [_ [= <-]]. discriminate.
Qed.

(** ** Course catalogues, the video pipeline, cache hits *)

Section CatalogueFacts.
Import Pipeline.

Lemma insert_length x sorted : length (insert x sorted) = S (length sorted).
Proof.
  induction sorted as [| y rest IH]; [reflexivity |].
  cbn. destruct (snd x <? snd y); cbn; by rewrite ?IH.
Qed.

Lemma insert_elem x y sorted : y ∈ insert x sorted ↔ y = x ∨ y ∈ sorted.
Proof.
  induction sorted as [| z rest IH]; cbn.
  - rewrite list_elem_of_singleton, elem_of_nil. tauto.
  - destruct (snd x <? snd z); rewrite ?elem_of_cons, ?IH; tauto.
Qed.

Lemma insert_sorted x sorted :
  StronglySorted byScore sorted → StronglySorted byScore (insert x sorted).
Proof.
  induction 1 as [| y rest Hsorted IH Hy]; cbn.
  - by repeat constructor.
  - destruct (Z.ltb_spec (snd x) (snd y)) as [Hlt | Hge].
    + constructor; [exact IH |].
      apply Forall_forall. intros z Hz. apply insert_elem in Hz as [-> | Hz].
      * unfold byScore. lia.
      * by eapply Forall_forall in Hy.
    + constructor; [by constructor |].
      constructor; [exact Hge |].
      eapply Forall_impl; [exact Hy |]. unfold byScore. intros z Hz. lia.
Qed.

Lemma sortByScore_sorted courses : StronglySorted byScore (sortByScore courses).
Proof.
  induction courses as [| c courses IH]; [constructor |].
  change (sortByScore (c :: courses)) with (insert c (sortByScore courses)).
  by apply insert_sorted.
Qed.

Lemma sortByScore_length courses : length (sortByScore courses) = length courses.
Proof.
  induction courses as [| c courses IH]; [reflexivity |].
  change (sortByScore (c :: courses)) with (insert c (sortByScore courses)).
  by rewrite insert_length, IH.
Qed.

Lemma sortByScore_elem c courses : c ∈ sortByScore courses ↔ c ∈ courses.
Proof.
  induction courses as [| c' courses IH]; [done |].
  change (sortByScore (c' :: courses)) with (insert c' (sortByScore courses)).
  by rewrite insert_elem, elem_of_cons, IH.
Qed.

Lemma insert_score_perm x sorted : Pipeline.insert x sorted ≡ₚ x :: sorted.
Proof.
  induction sorted as [| y rest IH]; [done |]. cbn.
  destruct (snd x <? snd y); [| done]. rewrite IH. apply Permutation_swap.
Qed.

Lemma sortByScore_perm courses : sortByScore courses ≡ₚ courses.
Proof.
  induction courses as [| c courses IH]; [done |].
  change (sortByScore (c :: courses)) with (Pipeline.insert c (sortByScore courses)).
  by rewrite insert_score_perm, IH.
Qed.

Lemma StronglySorted_take {A} (R : A → A → Prop) n (l : list A) :
  StronglySorted R l → StronglySorted R (take n l).
Proof.
  intros Hl. revert n. induction Hl as [| x l Hl IH Hx]; intros [| n]; cbn;
    try constructor; [apply IH | by apply Forall_take].
Qed.

(** The names of the inherited members are no topics of the graph. *)
Lemma related_Throw baseTopic :
  Prototype.inherited baseTopic = true →
  Scoring.related baseTopic
  = Throw (TypeError "related.forEach is not a function").
Proof.
  intros Hin. unfold Scoring.related.
  destruct (Scoring.topicGraph !! baseTopic) as [related |] eqn:Hk;
    [| by rewrite Hin].
  unfold Scoring.topicGraph in Hk. apply elem_of_list_to_map_2 in Hk.
  repeat (apply elem_of_cons in Hk as [[= -> ->] | Hk]; [discriminate |]).
  by apply elem_of_nil in Hk.
Qed.

(** Every other topic has five related topics at most. *)
Lemma related_Normal baseTopic :
  Prototype.inherited baseTopic = false →
  ∃ related, Scoring.related baseTopic = Normal related
             ∧ (length related ≤ 5)%nat.
Proof.
  intros Hin. unfold Scoring.related. rewrite Hin.
  destruct (Scoring.topicGraph !! baseTopic) as [related |] eqn:Hk.
  - exists related. split; [done |].
    unfold Scoring.topicGraph in Hk. apply elem_of_list_to_map_2 in Hk.
    repeat (apply elem_of_cons in Hk as [[= -> ->] | Hk]; [cbn; lia |]).
    by apply elem_of_nil in Hk.
  - exists []. split; [done | cbn; lia].
Qed.

(** The score, once the related topics are found. *)
Lemma scoreCourse_related courseTitle topic dominantTopics related :
  Scoring.related (JsString.toLowerCase topic) = Normal related →
  Scoring.scoreCourse courseTitle topic dominantTopics
  = Normal
      (let title := JsString.toLowerCase courseTitle in
       Scoring.skillBonus title
         (Scoring.forEach_bonus title 2 dominantTopics
            (Scoring.forEach_bonus title 3 related
               (Scoring.directBonus title (JsString.toLowerCase topic) 0)))).
Proof. intros Hrel. unfold Scoring.scoreCourse. cbv zeta. by rewrite Hrel. Qed.

Lemma scoreCourse_Throw courseTitle topic dominantTopics :
  Prototype.inherited (JsString.toLowerCase topic) = true →
  Scoring.scoreCourse courseTitle topic dominantTopics
  = Throw (TypeError "related.forEach is not a function").
Proof.
  intros Hin. unfold Scoring.scoreCourse. cbv zeta.
  by rewrite (related_Throw _ Hin).
Qed.

Lemma mapC_total {A B} (f : A → completion B) (g : A → B) (xs : list A) :
  (∀ x, f x = Normal (g x)) → mapC f xs = Normal (map g xs).
Proof.
  intros Hf. induction xs as [| x xs IH]; [done |].
  cbn [mapC map]. rewrite Hf. cbn. by rewrite IH.
Qed.

(** The scores of the titles made around a topic that names no inherited
    member. *)
Lemma scores_exist t dominantTopics :
  Prototype.inherited (JsString.toLowerCase t) = false →
  ∃ score : string → Z,
    (∀ title, Scoring.scoreCourse title t dominantTopics = Normal (score title))
    ∧ ∀ titles,
        rank titles t dominantTopics
        = Normal (take 5 (sortByScore
                    (map (λ title, (title, score title)) titles))).
Proof.
  intros Hin. destruct (related_Normal _ Hin) as (related & Hrel & _).
  pose proof (λ title, scoreCourse_related title t dominantTopics _ Hrel)
    as Hscore.
  set (score := λ courseTitle,
    let title := JsString.toLowerCase courseTitle in
    Scoring.skillBonus title
      (Scoring.forEach_bonus title 2 dominantTopics
         (Scoring.forEach_bonus title 3 related
            (Scoring.directBonus title (JsString.toLowerCase t) 0)))).
  exists score. split; [exact Hscore |].
  intros titles. unfold rank.
  rewrite (mapC_total _ (λ title, (title, score title))); [reflexivity |].
  intros title. unfold scored. by rewrite Hscore.
Qed.

(** What [rank] returns for six titles: five of them with their scores,
    the higher score first. *)
Lemma rank_six (score : string → Z) titles :
  length titles = 6%nat →
  let ranked :=
    take 5 (sortByScore (map (λ title, (title, score title)) titles)) in
  length ranked = 5%nat
  ∧ StronglySorted byScore ranked
  ∧ map fst ranked ⊆+ titles
  ∧ ∀ c, c ∈ ranked → snd c = score (fst c).
Proof.
  intros Hsix ranked. subst ranked. split_and!.
  - rewrite length_take, sortByScore_length, length_map, Hsix. reflexivity.
  - apply StronglySorted_take, sortByScore_sorted.
  - etrans; [apply sublist_submseteq, fmap_sublist, sublist_take |].
    change (map fst) with (fmap (M := list) (@fst string Z)).
    rewrite sortByScore_perm, <- list_fmap_compose.
    apply Permutation_submseteq. by rewrite list_fmap_id.
  - intros c Hc. apply subseteq_take in Hc.
    apply (proj1 (sortByScore_elem _ _)) in Hc.
    apply list_elem_of_In, in_map_iff in Hc as (title & <- & Htitle).
    reflexivity.
Qed.

Section OtherPipelines.
Variable JSON_parse : string → completion value.
Variable String_of : value → string.
Variable encodeURIComponent : string → string.
Variable mentorPrompt : string → value → string → string → string.
Variable rankingPrompt : string → string → list value → string.
Variable w : world.

Local Abbreviation requestPromise :=
  (Pipeline.requestPromise JSON_parse String_of encodeURIComponent mentorPrompt
     rankingPrompt w).

(** A catalogue branch, run. *)
Lemma coursera_run req dominantTopics t s :
  topic req = Some t → t ≠ "" →
  coursera encodeURIComponent req dominantTopics s
  = match rank [ t ++ " Foundations"; "Advanced " ++ t; t ++ " for Beginners";
                 t ++ " Specialization"; "Practical " ++ t ++ " Projects";
                 "AI Applications in " ++ t ] t dominantTopics with
    | Normal ranked =>
        (Normal (recommendations
                   (map (courseraEntry encodeURIComponent t) ranked)), s)
    | Throw e => (Throw e, s)
    end.
Proof.
  intros Ht Htne. unfold coursera.
  rewrite (missing_present _ t Ht Htne), Ht. cbn [default from_option id].
  unfold bindM, lift. by destruct (rank _ t dominantTopics).
Qed.

Lemma udemy_run req dominantTopics t s :
  topic req = Some t → t ≠ "" →
  udemy encodeURIComponent req dominantTopics s
  = match rank [ t ++ " Bootcamp"; "Complete " ++ t ++ " Masterclass";
                 t ++ " Zero to Hero"; t ++ " Interview Preparation";
                 "Hands-On " ++ t ++ " Projects"; t ++ " for Professionals" ]
            t dominantTopics with
    | Normal ranked =>
        (Normal (recommendations
                   (map (udemyEntry encodeURIComponent t) ranked)), s)
    | Throw e => (Throw e, s)
    end.
Proof.
  intros Ht Htne. unfold udemy.
  rewrite (missing_present _ t Ht Htne), Ht. cbn [default from_option id].
  unfold bindM, lift. by destruct (rank _ t dominantTopics).
Qed.

Lemma requestPromise_Coursera req summary dominantTopics :
  platform req = Some "Coursera" →
  requestPromise req summary dominantTopics
  = coursera encodeURIComponent req dominantTopics.
Proof. intros Hp. unfold Pipeline.requestPromise. by rewrite Hp. Qed.

Lemma requestPromise_Udemy req summary dominantTopics :
  platform req = Some "Udemy" →
  requestPromise req summary dominantTopics
  = udemy encodeURIComponent req dominantTopics.
Proof. intros Hp. unfold Pipeline.requestPromise. by rewrite Hp. Qed.

(** X1: a [Coursera] or [Udemy] request with a topic is answered with no
    outside call and no cache write.  When the lower-cased topic is no
    name of an inherited member, the answer holds exactly five of the six
    templated courses, the scores never increasing along the list, and
    every entry carries its title, the search link of its title and the
    reason worded for the platform.  When it is such a name, the scorer
    throws and the computation is rejected. *)
Theorem catalogue_top5 (req : request) (summary : string)
    (dominantTopics : list string) (t : string) (s : state) :
  platform req = Some "Coursera" ∨ platform req = Some "Udemy" →
  topic req = Some t → t ≠ "" → JsString.isAscii t = true →
  let coursera := equals (platform req) "Coursera" in
  let titles :=
    if coursera then
      [ t ++ " Foundations"; "Advanced " ++ t; t ++ " for Beginners";
        t ++ " Specialization"; "Practical " ++ t ++ " Projects";
        "AI Applications in " ++ t ]
    else
      [ t ++ " Bootcamp"; "Complete " ++ t ++ " Masterclass";
        t ++ " Zero to Hero"; t ++ " Interview Preparation";
        "Hands-On " ++ t ++ " Projects"; t ++ " for Professionals" ] in
  let entry := λ course : string * Z,
    if coursera then
      VObject
        [("title", VString (fst course));
         ("url", VString ("https://www.coursera.org/search?query="
                          ++ encodeURIComponent (fst course)));
         ("reason", VString
            ("Recommended because it aligns with your interest in "
             ++ t ++ " and related areas."))]
    else
      VObject
        [("title", VString (fst course));
         ("url", VString ("https://www.udemy.com/courses/search/?q="
                          ++ encodeURIComponent (fst course)));
         ("reason", VString
            ("Matches your learning pattern and strengthens your "
             ++ t ++ " expertise."))] in
  (Prototype.inherited (JsString.toLowerCase t) = false →
   ∃ ranked : list (string * Z),
     requestPromise req summary dominantTopics s
     = (Normal (VObject [("recommendations", VArray (map entry ranked))]), s)
     ∧ length ranked = 5%nat
     ∧ StronglySorted (λ a b : string * Z, snd b ≤ snd a) ranked
     ∧ map fst ranked ⊆+ titles
     ∧ ∀ c, c ∈ ranked →
            Scoring.scoreCourse (fst c) t dominantTopics = Normal (snd c))
  ∧ (Prototype.inherited (JsString.toLowerCase t) = true →
     ∃ msg, requestPromise req summary dominantTopics s
            = (Throw (TypeError msg), s)).
Proof.
  intros Hplat Ht Htne _ coursera titles entry. split.
  - intros Hin. destruct (scores_exist t dominantTopics Hin) as (score & Hscore & Hrank).
    destruct Hplat as [Hplat | Hplat]; subst coursera titles entry;
      rewrite Hplat; cbn [equals String.eqb Ascii.eqb Bool.eqb].
    + rewrite (requestPromise_Coursera _ _ _ Hplat), (coursera_run _ _ t _ Ht Htne).
      rewrite Hrank.
      match goal with |- context [map (λ title, (title, score title)) ?titles] =>
        destruct (rank_six score titles eq_refl) as (Hlen & Hsorted & Hsub & Hc) end.
      eexists. split_and!; [reflexivity | done | done | done |].
      intros c Hin'. by rewrite Hscore, (Hc c Hin').
    + rewrite (requestPromise_Udemy _ _ _ Hplat), (udemy_run _ _ t _ Ht Htne).
      rewrite Hrank.
      match goal with |- context [map (λ title, (title, score title)) ?titles] =>
        destruct (rank_six score titles eq_refl) as (Hlen & Hsorted & Hsub & Hc) end.
      eexists. split_and!; [reflexivity | done | done | done |].
      intros c Hin'. by rewrite Hscore, (Hc c Hin').
  - intros Hin. eexists.
    destruct Hplat as [Hplat | Hplat].
    + rewrite (requestPromise_Coursera _ _ _ Hplat), (coursera_run _ _ t _ Ht Htne).
      unfold rank. cbn [mapC]. unfold scored at 1.
      by rewrite (scoreCourse_Throw _ _ _ Hin).
    + rewrite (requestPromise_Udemy _ _ _ Hplat), (udemy_run _ _ t _ Ht Htne).
      unfold rank. cbn [mapC]. unfold scored at 1.
      by rewrite (scoreCourse_Throw _ _ _ Hin).
Qed.

(** X2: a [YouTube] request for which the provider finds nothing is
    answered with an empty list; the generation service is not called and
    the cache is not written. *)
Theorem video_without_candidates (req : request) (summary : string)
    (dominantTopics : list string) (t : string) (s : state) :
  platform req = Some "YouTube" →
  topic req = Some t → t ≠ "" →
  youtube w t = Normal [] →
  requestPromise req summary dominantTopics s
  = (Normal (VObject [("recommendations", VArray [])]),
     {| responseCache := responseCache s; log := log s ++ [YouTubeQuery t] |}).
Proof.
  intros Hplat Ht Htne Hnone.
  unfold Pipeline.requestPromise. rewrite Hplat.
  cbn [equals String.eqb Ascii.eqb Bool.eqb]. unfold youTube.
  rewrite (missing_present _ t Ht Htne), Ht. cbn [default from_option id].
  unfold fetchYouTubeResults, bindM, emit, lift. by rewrite Hnone.
Qed.

(** X3: a platform other than the five known ones gets an empty list, not
    an error, with no outside call. *)
Theorem unknown_platform (req : request) (summary : string)
    (dominantTopics : list string) (s : state) :
  (∀ name, name ∈ ["LeetCode"; "HackerRank"; "Coursera"; "Udemy"; "YouTube"] →
           platform req ≠ Some name) →
  requestPromise req summary dominantTopics s
  = (Normal (VObject [("recommendations", VArray [])]), s).
Proof.
  intros Hother. unfold Pipeline.requestPromise.
  assert (∀ name,
    name ∈ ["LeetCode"; "HackerRank"; "Coursera"; "Udemy"; "YouTube"] →
    equals (platform req) name = false) as Hneq.
  { intros name Hname. specialize (Hother name Hname).
    unfold equals. destruct (platform req) as [p |]; [| done].
    destruct (String.eqb_spec p name); [congruence | done]. }
  rewrite !Hneq; [done | | | | |]; set_solver.
Qed.

(** X4: a request whose key has a cached result no older than [CACHE_TTL]
    is answered with that result at once: nothing is computed and neither
    map changes. *)
Theorem cache_hit (req : request) (summary : string)
    (dominantTopics : list string) (now : Z) (s : Server.server)
    (entry : Cache.entry value) :
  Server.cache s !! cacheKey req = Some entry →
  now - Cache.timestamp entry ≤ Cache.CACHE_TTL →
  Value.truthy (Cache.data entry) = true →
  let s' := Server.arrive req summary dominantTopics now s in
  Server.replies s' !! Server.arrivals s = Some (Server.Json (Cache.data entry))
  ∧ Server.computations s' = Server.computations s
  ∧ Server.pendingRequests s' = Server.pendingRequests s
  ∧ Server.cache s' = Server.cache s.
Proof.
  intros Hentry Hfresh Htruthy. unfold Server.arrive, Cache.getCache.
  rewrite Hentry.
  destruct (Z.ltb_spec Cache.CACHE_TTL (now - Cache.timestamp entry)); [lia |].
  cbn. rewrite Htruthy. cbn. by rewrite lookup_insert_eq.
Qed.

End OtherPipelines.
End CatalogueFacts.

Lemma catalogue_top5_witness :
  (∃ ranked : list (string * Z),
     Pipeline.requestPromise Scenario.parseMentor Scenario.noString
       Scenario.noEncoding Scenario.mentorPrompt Scenario.rankingPrompt
       Scenario.generationDown (Scenario.catalogue "Coursera") "" ["python"]
       {| responseCache := ∅; log := [] |}
     = (Normal (VObject
          [("recommendations",
            VArray (map (λ course : string * Z,
              VObject
                [("title", VString (fst course));
                 ("url", VString ("https://www.coursera.org/search?query="
                                  ++ fst course));
                 ("reason", VString
                    ("Recommended because it aligns with your interest in "
                     ++ "python and related areas."))])
              ranked))]),
        {| responseCache := ∅; log := [] |})
     ∧ length ranked = 5%nat
     ∧ StronglySorted (λ a b : string * Z, snd b ≤ snd a) ranked
     ∧ map fst ranked
       ⊆+ [ "python Foundations"; "Advanced python"; "python for Beginners";
            "python Specialization"; "Practical python Projects";
            "AI Applications in python" ]
     ∧ ∀ c, c ∈ ranked →
            Scoring.scoreCourse (fst c) "python" ["python"] = Normal (snd c))
  ∧ (∃ items,
       fst (Pipeline.requestPromise Scenario.parseMentor Scenario.noString
              Scenario.noEncoding Scenario.mentorPrompt Scenario.rankingPrompt
              Scenario.generationDown (Scenario.catalogue "Coursera") ""
              ["python"] {| responseCache := ∅; log := [] |})
       = Normal (VObject [("recommendations", VArray items)])
       ∧ map (Value.member "title") items
         = [ VString "Advanced python"; VString "python for Beginners";
             VString "python Foundations"; VString "python Specialization";
             VString "Practical python Projects" ])
  ∧ ∃ msg,
      Pipeline.requestPromise Scenario.parseMentor Scenario.noString
        Scenario.noEncoding Scenario.mentorPrompt Scenario.rankingPrompt
        Scenario.generationDown (Samples.catalogueOf "Udemy" "Constructor")
        "" ["python"] {| responseCache := ∅; log := [] |}
      = (Throw (TypeError msg), {| responseCache := ∅; log := [] |}).
Proof.
  split; [| split; [eexists; split; reflexivity |]].
  - apply (catalogue_top5 Scenario.parseMentor Scenario.noString
             Scenario.noEncoding Scenario.mentorPrompt Scenario.rankingPrompt
             Scenario.generationDown (Scenario.catalogue "Coursera") ""
             ["python"] "python" {| responseCache := ∅; log := [] |});
      [left; reflexivity | reflexivity | discriminate | reflexivity
      | reflexivity].
  - apply (catalogue_top5 Scenario.parseMentor Scenario.noString
             Scenario.noEncoding Scenario.mentorPrompt Scenario.rankingPrompt
             Scenario.generationDown (Samples.catalogueOf "Udemy" "Constructor")
             "" ["python"] "Constructor" {| responseCache := ∅; log := [] |});
      [right; reflexivity | reflexivity | discriminate | reflexivity
      | reflexivity].
Defined.

Lemma video_without_candidates_witness :
  Pipeline.requestPromise Scenario.parseMentor Scenario.noString
    Scenario.noEncoding Scenario.mentorPrompt Scenario.rankingPrompt
    Scenario.generationDown Scenario.video "" []
    {| responseCache := ∅; log := [] |}
  = (Normal (VObject [("recommendations", VArray [])]),
     {| responseCache := ∅; log := [YouTubeQuery "python"] |}).
Proof.
  apply (video_without_candidates Scenario.parseMentor Scenario.noString
           Scenario.noEncoding Scenario.mentorPrompt Scenario.rankingPrompt
           Scenario.generationDown Scenario.video "" [] "python"
           {| responseCache := ∅; log := [] |}).
  - reflexivity.
  - reflexivity.
  - discriminate.
  - reflexivity.
Defined.

Lemma unknown_platform_witness :
  Pipeline.requestPromise Scenario.parseMentor Scenario.noString
    Scenario.noEncoding Scenario.mentorPrompt Scenario.rankingPrompt
    Scenario.generationDown (Scenario.catalogue "edX") "" []
    {| responseCache := ∅; log := [] |}
  = (Normal (VObject [("recommendations", VArray [])]), {| responseCache := ∅; log := [] |}).
Proof.
  apply (unknown_platform Scenario.parseMentor Scenario.noString
           Scenario.noEncoding Scenario.mentorPrompt Scenario.rankingPrompt
           Scenario.generationDown (Scenario.catalogue "edX") "" []
           {| responseCache := ∅; log := [] |}).
  intros name Hname.
  repeat (apply elem_of_cons in Hname as [-> | Hname]; [discriminate |]).
  by apply elem_of_nil in Hname.
Defined.

Lemma cache_hit_witness :
  let body :=
    VObject [("recommendations", VArray (take 5 Scenario.sevenProblems))] in
  let s := {| Server.cache :=
                {[ "LeetCode-solve-sum" :=
                     {| Cache.data := body; Cache.timestamp := 5000 |} ]};
              Server.pendingRequests := ∅; Server.promises := [];
              Server.awaiting := ∅; Server.replies := ∅;
              Server.arrivals := 0 |} in
  let s' := Server.arrive (Scenario.practice "LeetCode") "" [] 6000 s in
  Server.replies s' !! 0%nat = Some (Server.Json body)
  ∧ Server.computations s' = 0%nat.
Proof.
  intros body s s'.
  destruct (cache_hit (Scenario.practice "LeetCode") "" [] 6000 s
              {| Cache.data := body; Cache.timestamp := 5000 |})
    as (Hreply & Hsame & _).
  - reflexivity.
  - vm_compute. discriminate.
  - reflexivity.
  - split; [exact Hreply | exact Hsame].
Defined.

(** ** Rounding, in general *)

Section RoundingFacts.

Lemma digits2_le p d : Zpos p < 2 ^ d -> 0 <= d -> Zpos (digits2_pos p) <= d.
Proof.
  intros Hp Hd. pose proof (digits2_bounds p) as [Hlo _].
  destruct (Z_le_gt_dec (Zpos (digits2_pos p)) d); [assumption |].
  assert (2 ^ d <= 2 ^ (Zpos (digits2_pos p) - 1)) by (apply Z.pow_le_mono_r; lia).
  lia.
Qed.

Lemma rne_bounds M D q :
  0 < D -> q * D <= M -> q <= Num.rne M D.
Proof.
  intros HD HM. unfold Num.rne.
  pose proof (Z.div_mod M D ltac:(lia)).
  pose proof (Z.mod_pos_bound M D HD).
  assert (q <= M / D) by (apply Z.div_le_lower_bound; lia).
  destruct (Z.compare_spec (2 * (M mod D)) D); [destruct (Z.even (M / D)) | |]; lia.
Qed.

Lemma rne_upper M D q :
  0 < D -> M <= q * D -> Num.rne M D <= q.
Proof.
  intros HD HM. unfold Num.rne.
  pose proof (Z.div_mod M D ltac:(lia)).
  pose proof (Z.mod_pos_bound M D HD).
  destruct (Z.compare_spec (2 * (M mod D)) D); [destruct (Z.even (M / D)) | |]; nia.
Qed.

(** Rounding the exact positive value [M * 2^E]. *)
Lemma round_cases (M : positive) (E : Z) :
  Num.round (Zpos M) E = Num.finish (fst (Num.rounded M E)) (snd (Num.rounded M E)).
Proof.
  unfold Num.rounded.
  set (d := Zpos (digits2_pos M)). set (n := fexp 53 1024 (d + E) - E).
  cbv zeta.
  enough (Num.round (Zpos M) E =
    if n <=? 0 then Num.finish (Zpos M) E
    else
      if Num.rne (Zpos M) (2 ^ n) =? 2 ^ 53 then Num.finish (2 ^ 52) (E + n + 1)
      else Num.finish (Num.rne (Zpos M) (2 ^ n)) (E + n)) as ->.
  { destruct (n <=? 0); [reflexivity |].
    destruct (Num.rne (Zpos M) (2 ^ n) =? 2 ^ 53); reflexivity. }
  unfold Num.round, Num.prec, Num.emax, binary_round_aux, shr_fexp.
  cbn [Zdigits2 shr_record_of_loc]. fold d. fold n.
  pose proof (digits2_bounds M) as HM. fold d in HM.
  assert (n = Z.max (d + E - 53) (-1074) - E) as Hndef by reflexivity.
  destruct (Z.leb_spec n 0) as [Hn | Hn].
  - assert (shr {| shr_m := Zpos M; shr_r := false; shr_s := false |} E n
            = ({| shr_m := Zpos M; shr_r := false; shr_s := false |}, E)) as Hid.
    { destruct n; try reflexivity; lia. }
    rewrite Hid.
    cbn [shr_m loc_of_shr_record round_nearest_even Zdigits2 shr_record_of_loc].
    fold d. fold n. rewrite Hid. reflexivity.
  - assert (exists p, n = Zpos p) as [p Hp] by (destruct n as [| p | p]; try lia; by exists p).
    rewrite Hp.
    pose proof (shr_round (Zpos M) E p ltac:(lia)) as Hshr.
    destruct (shr _ E (Zpos p)) as [mrs e']. destruct Hshr as [Hround ->].
    rewrite Hround. cbv zeta.
    assert (0 < 2 ^ Zpos p) as Hpow by (apply Z.pow_pos_nonneg; lia).
    assert (d - Zpos p <= 53) as Hdn by lia.
    assert (-1074 <= E + Zpos p) as Hlow by lia.
    assert (0 <= Num.rne (Zpos M) (2 ^ Zpos p)) as Hnonneg
      by (apply rne_bounds; lia).
    assert (Num.rne (Zpos M) (2 ^ Zpos p) <= 2 ^ 53) as Hle.
    { apply rne_upper; [lia |].
      destruct (Z_le_gt_dec d (Zpos p)).
      - assert (2 ^ d <= 2 ^ Zpos p) by (apply Z.pow_le_mono_r; lia).
        change (2 ^ 53) with 9007199254740992. lia.
      - rewrite <- Z.pow_add_r by lia.
        assert (2 ^ d <= 2 ^ (53 + Zpos p)) by (apply Z.pow_le_mono_r; lia). lia. }
    destruct (Z.eqb_spec (Num.rne (Zpos M) (2 ^ Zpos p)) (2 ^ 53)) as [Hcarry | Hplain].
    + rewrite Hcarry. change (2 ^ 53) with 9007199254740992.
      cbn [Zdigits2 digits2_pos Pos.succ].
      change (Zpos (Pos.succ _)) with 54.
      replace (fexp 53 1024 (54 + (E + Zpos p)) - (E + Zpos p)) with 1
        by (unfold fexp, emin; lia).
      cbn [shr SpecFloat.iter_pos shr_1 shr_m].
      reflexivity.
    + destruct (Num.rne (Zpos M) (2 ^ Zpos p)) as [| r | r] eqn:Hr; try lia.
      * cbn [Zdigits2].
        destruct (fexp 53 1024 (0 + (E + Zpos p)) - (E + Zpos p)) as [| k | k] eqn:Hk;
          try (unfold fexp, emin in Hk; lia); reflexivity.
      * cbn [Zdigits2].
        assert (Zpos (digits2_pos r) <= 53) as Hdr by (apply digits2_le; lia).
        destruct (fexp 53 1024 (Zpos (digits2_pos r) + (E + Zpos p)) - (E + Zpos p))
          as [| k | k] eqn:Hk; try (unfold fexp, emin in Hk; lia); reflexivity.
Qed.


Lemma finish_pos m e : 0 < m -> Num.ltb Num.zero (Num.finish m e) = true.
Proof.
  intros Hm. destruct m as [| p | p]; try lia. cbn.
  destruct (e <=? 971); reflexivity.
Qed.

Lemma round_pos (M : positive) (E : Z) :
  -1074 <= E -> Num.ltb Num.zero (Num.round (Zpos M) E) = true.
Proof.
  intros HE. rewrite round_cases. unfold Num.rounded. cbv zeta.
  pose proof (digits2_bounds M) as HM.
  set (d := Zpos (digits2_pos M)) in *.
  set (n := fexp 53 1024 (d + E) - E).
  assert (n = Z.max (d + E - 53) (-1074) - E) as Hndef by reflexivity.
  destruct (Z.leb_spec n 0) as [Hn | Hn]; [by apply finish_pos |].
  destruct (Z.eqb_spec (Num.rne (Zpos M) (2 ^ n)) (2 ^ 53)); [by apply finish_pos |].
  apply finish_pos. cbn [fst].
  assert (2 ^ 52 <= Num.rne (Zpos M) (2 ^ n)); [| lia].
  apply rne_bounds; [apply Z.pow_pos_nonneg; lia |].
  rewrite <- Z.pow_add_r by lia.
  replace (52 + n) with (d - 1) by lia. lia.
Qed.

Lemma shl_align_spec m e e' :
  e' <= e ->
  Zpos (fst (shl_align m e e')) = Zpos m * 2 ^ (e - e')
  /\ snd (shl_align m e e') = e'.
Proof.
  intros He. unfold shl_align.
  destruct (e' - e) as [| d | d] eqn:Hd; try lia.
  - assert (e' = e) as -> by lia. rewrite Z.sub_diag. cbn [fst snd]. lia.
  - cbn [fst snd]. split; [| reflexivity].
    replace (e - e') with (Zpos d) by lia.
    clear Hd He.
    induction d as [| d IH] using Pos.peano_ind.
    + cbn. lia.
    + rewrite Pos.iter_succ, Pos2Z.inj_xO, IH, Pos2Z.inj_succ, Z.pow_succ_r by lia.
      lia.
Qed.

Lemma binary_round_pos m e :
  -1074 <= e -> Num.ltb Num.zero (binary_round 53 1024 false m e) = true.
Proof.
  intros He. unfold binary_round.
  destruct (Z_le_gt_dec (fexp 53 1024 (Zpos (digits2_pos m) + e)) e) as [Hle | Hgt].
  - pose proof (shl_align_spec m e _ Hle) as [_ Hsnd].
    destruct (shl_align m e _) as [mz ez]. cbn [snd] in Hsnd. subst ez.
    apply round_pos. unfold fexp, emin. lia.
  - unfold shl_align.
    destruct (fexp 53 1024 (Zpos (digits2_pos m) + e) - e) eqn:Hd; try lia.
    by apply round_pos.
Qed.

Lemma binary_round_neg m e :
  Num.ltb Num.zero (binary_round 53 1024 true m e) = false.
Proof.
  unfold binary_round. destruct (shl_align _ _ _) as [mz ez].
  unfold binary_round_aux.
  destruct (shr_fexp _ _ _ _ _) as [mrs' e'].
  destruct (shr_fexp _ _ _ _ _) as [mrs'' e''].
  destruct (shr_m mrs''); try reflexivity.
  destruct (e'' <=? 1024 - 53); reflexivity.
Qed.

Lemma bounded_inv m e :
  bounded 53 1024 m e = true ->
  -1074 <= e /\ Zpos m < 2 ^ 53 /\ (-1074 < e -> 2 ^ 52 <= Zpos m).
Proof.
  intros Hb. unfold bounded, canonical_mantissa, fexp, emin in Hb.
  apply andb_true_iff in Hb as [Hcan _]. apply Z.eqb_eq in Hcan.
  pose proof (digits2_bounds m) as [Hlo Hhi].
  split; [lia |]. split.
  - eapply Z.lt_le_trans; [exact Hhi |]. apply Z.pow_le_mono_r; lia.
  - intros He. replace (Zpos (digits2_pos m)) with 53 in Hlo by lia. exact Hlo.
Qed.

(** For positive doubles the sign of [y - x] tells their order. *)
Lemma sub_sign x y :
  Num.pos_finite x = true -> Num.pos_finite y = true ->
  Num.ltb Num.zero (Num.sub y x) = Num.ltb x y.
Proof.
  intros Hx Hy.
  destruct (pos_finite_inv x Hx) as (mx & ex & -> & Hbx).
  destruct (pos_finite_inv y Hy) as (my & ey & -> & Hby).
  apply bounded_inv in Hbx as (Hex & Hmx & Hnx).
  apply bounded_inv in Hby as (Hey & Hmy & Hny).
  unfold Num.sub, SFsub, Num.prec, Num.emax. cbv zeta. cbn [cond_Zopp].
  pose proof (shl_align_spec my ey (Z.min ey ex) ltac:(lia)) as [Hy' _].
  pose proof (shl_align_spec mx ex (Z.min ey ex) ltac:(lia)) as [Hx' _].
  set (D := Zpos (fst (shl_align my ey (Z.min ey ex)))
            - Zpos (fst (shl_align mx ex (Z.min ey ex)))).
  assert (D = Zpos my * 2 ^ (ey - Z.min ey ex) - Zpos mx * 2 ^ (ex - Z.min ey ex))
    as HD by (unfold D; lia).
  clearbody D. clear Hx' Hy'.
  assert ((0 < D <-> (ex < ey \/ (ex = ey /\ Zpos mx < Zpos my)))
          /\ (D = 0 -> ex = ey /\ Zpos mx = Zpos my)) as [Hsign Hzero].
  { destruct (Z.lt_trichotomy ex ey) as [Hlt | [Heq | Hgt]].
    - rewrite Z.min_r in HD by lia. rewrite Z.sub_diag, Z.mul_1_r in HD.
      assert (2 ^ 1 <= 2 ^ (ey - ex)) by (apply Z.pow_le_mono_r; lia).
      specialize (Hny ltac:(lia)).
      change (2 ^ 1) with 2 in *. change (2 ^ 52) with 4503599627370496 in *.
      change (2 ^ 53) with 9007199254740992 in *. split; [split |]; nia.
    - subst ey. rewrite Z.min_id, Z.sub_diag, !Z.mul_1_r in HD. lia.
    - rewrite Z.min_l in HD by lia. rewrite Z.sub_diag, Z.mul_1_r in HD.
      assert (2 ^ 1 <= 2 ^ (ex - ey)) by (apply Z.pow_le_mono_r; lia).
      specialize (Hnx ltac:(lia)).
      change (2 ^ 1) with 2 in *. change (2 ^ 52) with 4503599627370496 in *.
      change (2 ^ 53) with 9007199254740992 in *. split; [split |]; nia. }
  unfold binary_normalize.
  destruct D as [| p | p].
  - destruct (Hzero eq_refl) as [-> Hm]. symmetry.
    apply not_true_is_false. rewrite ltb_finite. lia.
  - rewrite binary_round_pos by lia. symmetry. apply ltb_finite, Hsign. lia.
  - rewrite binary_round_neg. symmetry.
    apply not_true_is_false. rewrite ltb_finite. lia.
Qed.

Lemma pow_lt_inv a b : 0 <= b -> 2 ^ a < 2 ^ b -> a < b.
Proof.
  intros Hb Hlt. destruct (Z_lt_le_dec a b) as [| Hge]; [assumption |].
  assert (2 ^ b <= 2 ^ a) by (apply Z.pow_le_mono_r; lia). lia.
Qed.

Lemma pow_split a b : 0 <= a -> 0 <= b -> 2 ^ (a + b) = 2 ^ a * 2 ^ b.
Proof. intros. apply Z.pow_add_r; lia. Qed.

(** A mantissa in canonical form: at most 53 digits, and exactly 53 above
    the lowest exponent. *)
Lemma canonical_inv m e :
  canonical_mantissa 53 1024 m e = true ->
  -1074 <= e /\ Zpos m < 2 ^ 53 /\ (-1074 < e -> 2 ^ 52 <= Zpos m).
Proof.
  intros Hcan. unfold canonical_mantissa, fexp, emin in Hcan.
  apply Z.eqb_eq in Hcan.
  pose proof (digits2_bounds m) as [Hlo Hhi].
  split; [lia |]. split.
  - eapply Z.lt_le_trans; [exact Hhi |]. apply Z.pow_le_mono_r; lia.
  - intros He. replace (Zpos (digits2_pos m)) with 53 in Hlo by lia. exact Hlo.
Qed.

Lemma canonical_intro m e :
  -1074 <= e -> Zpos m < 2 ^ 53 -> (-1074 < e -> 2 ^ 52 <= Zpos m) ->
  canonical_mantissa 53 1024 m e = true.
Proof.
  intros He Hhi Hlo. unfold canonical_mantissa, fexp, emin. apply Z.eqb_eq.
  assert (Zpos (digits2_pos m) <= 53) by (apply digits2_le; lia).
  destruct (Z.eq_dec e (-1074)) as [-> | Hne]; [lia |].
  assert (Zpos (digits2_pos m) = 53); [| lia].
  apply digits2_unique. split; [apply Hlo; lia | assumption].
Qed.

(** Among canonical mantissas the order of the values is the order of the
    pairs (exponent, mantissa). *)
Lemma canonical_order m1 e1 m2 e2 B :
  canonical_mantissa 53 1024 m1 e1 = true ->
  canonical_mantissa 53 1024 m2 e2 = true ->
  1074 <= B ->
  Zpos m1 * 2 ^ (e1 + B) <= Zpos m2 * 2 ^ (e2 + B)
  <-> e1 < e2 \/ (e1 = e2 /\ Zpos m1 <= Zpos m2).
Proof.
  intros H1 H2 HB.
  apply canonical_inv in H1 as (He1 & Hm1 & Hn1).
  apply canonical_inv in H2 as (He2 & Hm2 & Hn2).
  change (2 ^ 53) with 9007199254740992 in *.
  change (2 ^ 52) with 4503599627370496 in *.
  destruct (Z.lt_trichotomy e1 e2) as [Hlt | [Heq | Hgt]].
  - replace (e2 + B) with ((e1 + B) + (e2 - e1)) by lia.
    rewrite (pow_split (e1 + B) (e2 - e1)) by lia.
    assert (0 < 2 ^ (e1 + B)) by (apply Z.pow_pos_nonneg; lia).
    assert (2 ^ 1 <= 2 ^ (e2 - e1)) by (apply Z.pow_le_mono_r; lia).
    change (2 ^ 1) with 2 in *. specialize (Hn2 ltac:(lia)).
    split; [intros _; lia | intros _].
    set (P := 2 ^ (e1 + B)) in *. set (Q := 2 ^ (e2 - e1)) in *.
    assert (9007199254740992 <= Zpos m2 * Q) by nia.
    assert (Zpos m1 * P <= 9007199254740992 * P) by nia.
    assert (9007199254740992 * P <= Zpos m2 * Q * P)
      by (apply Z.mul_le_mono_nonneg_r; lia).
    lia.
  - subst e2. assert (0 < 2 ^ (e1 + B)) by (apply Z.pow_pos_nonneg; lia).
    split; [intros; right; split; [reflexivity | nia] | intros; nia].
  - replace (e1 + B) with ((e2 + B) + (e1 - e2)) by lia.
    rewrite (pow_split (e2 + B) (e1 - e2)) by lia.
    assert (0 < 2 ^ (e2 + B)) by (apply Z.pow_pos_nonneg; lia).
    assert (2 ^ 1 <= 2 ^ (e1 - e2)) by (apply Z.pow_le_mono_r; lia).
    change (2 ^ 1) with 2 in *. specialize (Hn1 ltac:(lia)).
    split; [intros Hle | intros; lia]. exfalso.
    set (P := 2 ^ (e2 + B)) in *. set (Q := 2 ^ (e1 - e2)) in *.
    assert (9007199254740992 <= Zpos m1 * Q) by nia.
    assert (Zpos m2 * P < 9007199254740992 * P) by nia.
    assert (9007199254740992 * P <= Zpos m1 * Q * P)
      by (apply Z.mul_le_mono_nonneg_r; lia).
    lia.
Qed.

Lemma finish_finite mm ee m' e' :
  Num.finish mm ee = S754_finite false m' e' -> mm = Zpos m' /\ ee = e'.
Proof.
  unfold Num.finish. destruct mm as [| p | p]; try discriminate.
  destruct (ee <=? 971); [| discriminate]. by intros [= -> ->].
Qed.

Lemma rne_le_pow53 M n :
  0 < n -> Zpos (digits2_pos M) - n <= 53 -> Num.rne (Zpos M) (2 ^ n) <= 2 ^ 53.
Proof.
  intros Hn Hd. pose proof (digits2_bounds M) as [_ HM].
  assert (0 < 2 ^ n) by (apply Z.pow_pos_nonneg; lia).
  apply rne_upper; [lia |]. rewrite <- Z.pow_add_r by lia.
  assert (2 ^ Zpos (digits2_pos M) <= 2 ^ (53 + n))
    by (apply Z.pow_le_mono_r; lia). lia.
Qed.

Section Rounding.
Variables (M : positive) (E : Z).
Let d := Zpos (digits2_pos M).
Let n := fexp 53 1024 (d + E) - E.
Hypothesis HE : -1127 <= E.
Hypothesis Hn : 0 <= n.

Lemma shift_eq : n = Z.max (d + E - 53) (-1074) - E.
Proof. reflexivity. Qed.

(** Rounding does not pass a double above the exact value. *)
Lemma round_le mh eh :
  canonical_mantissa 53 1024 mh eh = true ->
  Zpos M * 2 ^ (E + 1127) <= Zpos mh * 2 ^ (eh + 1127) ->
  snd (Num.rounded M E) < eh
  \/ (snd (Num.rounded M E) = eh /\ fst (Num.rounded M E) <= Zpos mh).
Proof.
  intros Hcan HX. unfold Num.rounded. cbv zeta.
  fold d. fold n. pose proof shift_eq as Hndef.
  pose proof (digits2_bounds M) as [HMlo HMhi]. fold d in HMlo, HMhi.
  pose proof (canonical_inv _ _ Hcan) as (Heh & Hmh & Hnh).
  assert (0 < 2 ^ (E + 1127)) as HpE by (apply Z.pow_pos_nonneg; lia).
  destruct (Z.leb_spec n 0) as [Hz | Hpos]; cbn [fst snd].
  - apply (canonical_order M E mh eh 1127); [| assumption | lia | assumption].
    unfold canonical_mantissa. apply Z.eqb_eq. fold d. unfold n in *. lia.
  - assert (0 < 2 ^ n) as Hpn by (apply Z.pow_pos_nonneg; lia).
    assert (E + n <= eh) as Hexp.
    { assert (d + E - 53 <= eh); [| lia].
      assert (d - 1 + (E + 1127) < 53 + (eh + 1127)); [| lia].
      apply pow_lt_inv; [lia |].
      rewrite (pow_split (d - 1) (E + 1127)), (pow_split 53 (eh + 1127)) by lia.
      assert (0 < 2 ^ (eh + 1127)) by (apply Z.pow_pos_nonneg; lia).
      change (2 ^ 53) with 9007199254740992 in *. nia. }
    assert (E + n = eh -> Num.rne (Zpos M) (2 ^ n) <= Zpos mh) as Hsame.
    { intros Heq. apply rne_upper; [assumption |].
      replace (eh + 1127) with ((E + 1127) + n) in HX by lia.
      rewrite (pow_split (E + 1127) n) in HX by lia. nia. }
    change (2 ^ 53) with 9007199254740992 in *.
    change (2 ^ 52) with 4503599627370496 in *.
    destruct (Z.eqb_spec (Num.rne (Zpos M) (2 ^ n)) 9007199254740992)
      as [Hcarry | Hplain]; cbn [fst snd].
    + destruct (Z.eq_dec (E + n) eh) as [Heq | Hne]; [specialize (Hsame Heq); lia |].
      destruct (Z.eq_dec (E + n + 1) eh) as [Heq1 | Hne1]; [| lia].
      right. split; [assumption |]. specialize (Hnh ltac:(lia)). lia.
    + destruct (Z.eq_dec (E + n) eh) as [Heq | Hne]; [| lia].
      right. split; [assumption |]. by apply Hsame.
Qed.

(** Nor one below it; and it gives a mantissa in canonical form. *)
Lemma round_ge ml el :
  canonical_mantissa 53 1024 ml el = true ->
  Zpos ml * 2 ^ (el + 1127) <= Zpos M * 2 ^ (E + 1127) ->
  exists m' e',
    Num.rounded M E = (Zpos m', e')
    /\ canonical_mantissa 53 1024 m' e' = true
    /\ (el < e' \/ (el = e' /\ Zpos ml <= Zpos m')).
Proof.
  intros Hcan HX. unfold Num.rounded. cbv zeta.
  fold d. fold n. pose proof shift_eq as Hndef.
  pose proof (digits2_bounds M) as [HMlo HMhi]. fold d in HMlo, HMhi.
  pose proof (canonical_inv _ _ Hcan) as (Hel & Hml & Hnl).
  assert (0 < 2 ^ (E + 1127)) as HpE by (apply Z.pow_pos_nonneg; lia).
  assert (0 < 2 ^ (el + 1127)) as Hpl by (apply Z.pow_pos_nonneg; lia).
  destruct (Z.leb_spec n 0) as [Hz | Hpos].
  - assert (canonical_mantissa 53 1024 M E = true) as HcanM.
    { unfold canonical_mantissa. apply Z.eqb_eq. fold d. unfold n in *. lia. }
    exists M, E. split; [reflexivity |]. split; [assumption |].
    by apply (canonical_order ml el M E 1127).
  - assert (0 < 2 ^ n) as Hpn by (apply Z.pow_pos_nonneg; lia).
    assert (el <= E + n) as Hexp.
    { destruct (Z.eq_dec el (-1074)) as [-> | Hne]; [lia |].
      specialize (Hnl ltac:(lia)).
      assert (52 + (el + 1127) < d + (E + 1127)); [| lia].
      apply pow_lt_inv; [lia |].
      rewrite (pow_split 52 (el + 1127)), (pow_split d (E + 1127)) by lia.
      change (2 ^ 52) with 4503599627370496 in *. nia. }
    assert (el = E + n -> Zpos ml <= Num.rne (Zpos M) (2 ^ n)) as Hsame.
    { intros Heq. apply rne_bounds; [assumption |].
      replace (el + 1127) with ((E + 1127) + n) in HX by lia.
      rewrite (pow_split (E + 1127) n) in HX by lia. nia. }
    assert (-1074 < E + n -> 2 ^ 52 <= Num.rne (Zpos M) (2 ^ n)) as Hnormal.
    { intros Hlow. apply rne_bounds; [assumption |].
      rewrite <- Z.pow_add_r by lia. replace (52 + n) with (d - 1) by lia.
      assumption. }
    pose proof (rne_le_pow53 M n Hpos ltac:(fold d; lia)) as Hle.
    change (2 ^ 53) with 9007199254740992 in *.
    change (2 ^ 52) with 4503599627370496 in *.
    destruct (Z.eqb_spec (Num.rne (Zpos M) (2 ^ n)) 9007199254740992) as [Hcarry | Hplain].
    + exists 4503599627370496%positive, (E + n + 1).
      split; [reflexivity |]. split; [| lia].
      apply canonical_intro; [lia | reflexivity | intros _; reflexivity].
    + assert (0 < Num.rne (Zpos M) (2 ^ n)) as Hpos'.
      { destruct (Z.eq_dec el (E + n)) as [Heq | Hne];
          [specialize (Hsame Heq) | specialize (Hnormal ltac:(lia))]; lia. }
      destruct (Num.rne (Zpos M) (2 ^ n)) as [| r | r] eqn:Hr; try lia.
      exists r, (E + n). split; [reflexivity |]. split.
      * apply canonical_intro; [lia | |].
        -- change (2 ^ 53) with 9007199254740992. lia.
        -- change (2 ^ 52) with 4503599627370496. assumption.
      * destruct (Z.eq_dec el (E + n)) as [Heq | Hne]; [| lia].
        right. split; [assumption | by apply Hsame].
Qed.

End Rounding.

Lemma digits2_shift (S : positive) (k : Z) :
  0 <= k ->
  forall Mz, Zpos Mz = Zpos S * 2 ^ k ->
  Zpos (digits2_pos Mz) = Zpos (digits2_pos S) + k.
Proof.
  intros Hk Mz HMz. pose proof (digits2_bounds S) as [Hlo Hhi].
  assert (0 < 2 ^ k) by (apply Z.pow_pos_nonneg; lia).
  apply digits2_unique. rewrite HMz.
  replace (Zpos (digits2_pos S) + k - 1) with ((Zpos (digits2_pos S) - 1) + k) by lia.
  rewrite (pow_split (Zpos (digits2_pos S) - 1) k), (pow_split (Zpos (digits2_pos S)) k) by lia.
  nia.
Qed.

(** [binary_round] puts the mantissa in place first, then rounds. *)
Lemma binary_round_rounded (S : positive) (ez : Z) :
  -1074 <= ez ->
  exists Mz Ez,
    binary_round 53 1024 false S ez = Num.round (Zpos Mz) Ez
    /\ Zpos Mz * 2 ^ (Ez + 1127) = Zpos S * 2 ^ (ez + 1127)
    /\ -1127 <= Ez
    /\ 0 <= fexp 53 1024 (Zpos (digits2_pos Mz) + Ez) - Ez.
Proof.
  intros Hez. unfold binary_round.
  set (fe := fexp 53 1024 (Zpos (digits2_pos S) + ez)).
  assert (fe = Z.max (Zpos (digits2_pos S) + ez - 53) (-1074)) as Hfe by reflexivity.
  destruct (Z_le_gt_dec fe ez) as [Hle | Hgt].
  - pose proof (shl_align_spec S ez fe Hle) as [Hfst Hsnd].
    destruct (shl_align S ez fe) as [Mz Ez]. cbn [fst snd] in Hfst, Hsnd. subst Ez.
    exists Mz, fe. split; [reflexivity |].
    pose proof (digits2_shift S (ez - fe) ltac:(lia) Mz Hfst) as Hd.
    split_and!.
    + rewrite Hfst. replace (ez + 1127) with ((ez - fe) + (fe + 1127)) by lia.
      rewrite (pow_split (ez - fe) (fe + 1127)) by lia. lia.
    + lia.
    + rewrite Hd. replace (Zpos (digits2_pos S) + (ez - fe) + fe)
        with (Zpos (digits2_pos S) + ez) by lia. fold fe. lia.
  - unfold shl_align. destruct (fe - ez) eqn:Hd; try lia.
    exists S, ez. split; [reflexivity |]. split_and!; [reflexivity | lia |].
    fold fe. lia.
Qed.

(** The sum of two positive doubles, between two doubles that enclose the
    exact sum. *)
Lemma add_between x y lo hi :
  Num.pos_finite x = true -> Num.pos_finite y = true ->
  Num.pos_finite lo = true -> Num.pos_finite hi = true ->
  Num.fine lo <= Num.fine x + Num.fine y <= Num.fine hi ->
  Num.pos_finite (Num.add x y) = true
  /\ Num.leb lo (Num.add x y) = true
  /\ Num.leb (Num.add x y) hi = true.
Proof.
  intros Hx Hy Hlo Hhi [Hlow Hhigh].
  destruct (pos_finite_inv x Hx) as (mx & ex & -> & Hbx).
  destruct (pos_finite_inv y Hy) as (my & ey & -> & Hby).
  destruct (pos_finite_inv lo Hlo) as (ml & el & -> & Hbl).
  destruct (pos_finite_inv hi Hhi) as (mh & eh & -> & Hbh).
  pose proof (bounded_inv _ _ Hbx) as (Hex & _ & _).
  pose proof (bounded_inv _ _ Hby) as (Hey & _ & _).
  unfold bounded in Hbl, Hbh.
  apply andb_true_iff in Hbl as [Hcl _].
  apply andb_true_iff in Hbh as [Hch Hmaxh]. apply Z.leb_le in Hmaxh.
  cbn [Num.fine] in Hlow, Hhigh.
  unfold Num.add, SFadd, Num.prec, Num.emax. cbv zeta. cbn [cond_Zopp].
  set (ez := Z.min ex ey).
  pose proof (shl_align_spec mx ex ez ltac:(lia)) as [Hx' _].
  pose proof (shl_align_spec my ey ez ltac:(lia)) as [Hy' _].
  set (ax := fst (shl_align mx ex ez)) in *.
  set (ay := fst (shl_align my ey ez)) in *.
  change (Zpos ax + Zpos ay) with (Zpos (ax + ay)). cbn [binary_normalize].
  destruct (binary_round_rounded (ax + ay) ez ltac:(lia))
    as (Mz & Ez & -> & Hval & HEz & Hnz).
  assert (Zpos (ax + ay) * 2 ^ (ez + 1127)
          = Zpos mx * 2 ^ (ex + 1127) + Zpos my * 2 ^ (ey + 1127)) as Hsum.
  { replace (ex + 1127) with ((ex - ez) + (ez + 1127)) by lia.
    replace (ey + 1127) with ((ey - ez) + (ez + 1127)) by lia.
    rewrite (pow_split (ex - ez) (ez + 1127)), (pow_split (ey - ez) (ez + 1127)) by lia.
    rewrite Pos2Z.inj_add. lia. }
  rewrite <- Hval in Hsum.
  destruct (round_ge Mz Ez HEz Hnz ml el Hcl ltac:(lia)) as (m' & e' & Hr & Hcan & Hge).
  pose proof (round_le Mz Ez HEz Hnz mh eh Hch ltac:(lia)) as Hle.
  rewrite round_cases. rewrite Hr in *. cbn [fst snd] in *.
  unfold Num.finish.
  destruct (Z.leb_spec e' 971); [| lia].
  split_and!.
  - unfold Num.pos_finite, Num.prec, Num.emax, bounded. rewrite Hcan.
    cbn [andb]. apply Z.leb_le. lia.
  - by apply leb_finite.
  - by apply leb_finite.
Qed.

(** The decay of a weight stays below a double that is above the exact
    product. *)
Lemma decay_le w hi :
  Num.pos_finite w = true -> Num.pos_finite hi = true ->
  Num.fine w * 8827055269646172 <= Num.fine hi * 2 ^ 53 ->
  Num.leb (Num.mul w Num.c098) hi = true.
Proof.
  intros Hw Hhi Hval.
  destruct (decay_weight w Hw) as (Hpos & _).
  destruct (pos_finite_inv w Hw) as (m & e & -> & Hb).
  destruct (pos_finite_inv hi Hhi) as (mh & eh & -> & Hbh).
  destruct (pos_finite_inv _ Hpos) as (m' & e' & Hmul & Hb').
  rewrite Hmul. apply leb_finite.
  pose proof (bounded_inv _ _ Hb) as (He & _ & _).
  unfold bounded in Hbh. apply andb_true_iff in Hbh as [Hch _].
  change (Num.mul (S754_finite false m e) Num.c098)
    with (Num.round (Zpos (m * 8827055269646172)) (e + -53)) in Hmul.
  rewrite round_cases in Hmul. apply finish_finite in Hmul as [Hm He'].
  cbn [Num.fine] in Hval.
  assert (53 <= Zpos (digits2_pos (m * 8827055269646172))) as Hd.
  { pose proof (digits2_bounds (m * 8827055269646172)) as [_ Hhigh].
    destruct (Z_le_gt_dec 53 (Zpos (digits2_pos (m * 8827055269646172))));
      [assumption | exfalso].
    assert (2 ^ Zpos (digits2_pos (m * 8827055269646172)) <= 2 ^ 52)
      by (apply Z.pow_le_mono_r; lia).
    change (2 ^ 52) with 4503599627370496 in *. lia. }
  pose proof (round_le (m * 8827055269646172) (e + -53) ltac:(lia)
                ltac:(unfold fexp, emin; lia) mh eh Hch) as Hle.
  rewrite Hm, He' in Hle. apply Hle.
  replace (e + -53 + 1127) with (e + 1074) by lia.
  replace (e + 1127) with (53 + (e + 1074)) in Hval by lia.
  rewrite (pow_split 53 (e + 1074)) in Hval by lia.
  assert (0 < 2 ^ 53) by reflexivity.
  rewrite Pos2Z.inj_mul. nia.
Qed.

End RoundingFacts.

(** ** The range of the weights *)

Section RangeFacts.
Import Profile.

Lemma fine_leb x y :
  Num.pos_finite x = true → Num.pos_finite y = true →
  Num.leb x y = true ↔ Num.fine x ≤ Num.fine y.
Proof.
  intros Hx Hy.
  destruct (pos_finite_inv x Hx) as (mx & ex & -> & Hbx).
  destruct (pos_finite_inv y Hy) as (my & ey & -> & Hby).
  unfold bounded in Hbx, Hby.
  apply andb_true_iff in Hbx as [Hcx _]. apply andb_true_iff in Hby as [Hcy _].
  rewrite leb_finite. cbn [Num.fine].
  symmetry. by apply canonical_order.
Qed.

Lemma fine_consts :
  Num.fine Num.fifty * 8827055269646172 ≤ Num.fine Num.fortynine * 2 ^ 53
  ∧ Num.fine Num.fortynine + Num.fine Num.one = Num.fine Num.fifty.
Proof. by vm_compute. Qed.

Lemma decay_in_range w :
  Num.pos_finite w = true → Num.leb w Num.fifty = true →
  Num.pos_finite (Num.mul w Num.c098) = true
  ∧ Num.leb (Num.mul w Num.c098) Num.fortynine = true.
Proof.
  intros Hw Hle. split; [by apply decay_weight |].
  apply decay_le; [done | done |].
  apply fine_leb in Hle; [| done | done].
  destruct fine_consts as [Hc _].
  assert (0 ≤ Num.fine w).
  { destruct (pos_finite_inv w Hw) as (m & e & -> & Hb). cbn [Num.fine].
    apply Z.mul_nonneg_nonneg; [lia |]. apply Z.pow_nonneg. lia. }
  etrans; [| exact Hc]. apply Z.mul_le_mono_nonneg_r; lia.
Qed.

Lemma reinforce_in_range w :
  Num.pos_finite w = true → Num.leb w Num.fortynine = true →
  Num.pos_finite (Num.add w Num.one) = true
  ∧ Num.leb Num.one (Num.add w Num.one) = true
  ∧ Num.leb (Num.add w Num.one) Num.fifty = true.
Proof.
  intros Hw Hle. apply add_between; try done.
  apply fine_leb in Hle; [| done | done].
  destruct fine_consts as [_ Hc].
  assert (0 ≤ Num.fine w).
  { destruct (pos_finite_inv w Hw) as (m & e & -> & Hb). cbn [Num.fine].
    apply Z.mul_nonneg_nonneg; [lia |]. apply Z.pow_nonneg. lia. }
  lia.
Qed.

Lemma orZero_pos w : Num.pos_finite w = true → orZero (Some w) = w.
Proof. intros Hw. by destruct (pos_finite_inv w Hw) as (m & e & -> & _). Qed.

(** Decay brings a profile in range to weights of 49 at most. *)
Lemma decay_range (stored : profile) :
  in_range stored →
  ∀ k x, decay stored !! k = Some x →
         Num.pos_finite x = true ∧ Num.leb x Num.fortynine = true.
Proof.
  intros Hrange k x'. rewrite decay_lookup.
  destruct (stored !! k) as [v |] eqn:Hk; [| discriminate].
  intros [= <-]. destruct (Hrange k v Hk) as (x & -> & Hpos & Hle).
  by apply decay_in_range.
Qed.

Lemma decayed_in_range (stored : profile) :
  in_range stored → in_range (number <$> decay stored).
Proof.
  intros Hrange k v. rewrite lookup_fmap.
  destruct (decay stored !! k) as [x |] eqn:Hk; [| discriminate].
  intros [= <-]. destruct (decay_range stored Hrange k x Hk) as [Hpos Hle].
  exists x. split_and!; [done | done |].
  by apply (leb_trans x Num.fortynine Num.fifty).
Qed.

(** The update of a profile in range, under a key that counts. *)
Lemma counted_in_range (stored : profile) (t : string) :
  in_range stored → hasTopic t = true →
  is_Some (stored !! normalize t) ∨ Prototype.inherited (normalize t) = false →
  ∃ w : spec_float,
    reinforce (VString t) (decay stored)
    = Normal (<[normalize t := number w]> (number <$> decay stored))
    ∧ in_range (<[normalize t := number w]> (number <$> decay stored))
    ∧ Num.leb Num.one w = true ∧ Num.leb w Num.fifty = true.
Proof.
  intros Hrange Ht Hkey.
  pose proof (decay_range stored Hrange) as Hdecayed.
  pose proof (decayed_in_range stored Hrange) as Hdecay.
  rewrite (reinforce_counted t _ Ht).
  2:{ destruct Hkey as [Hown | Hno]; [left | by right].
      rewrite decay_lookup. by apply fmap_is_Some. }
  set (k := normalize t).
  assert (Num.pos_finite (Num.add (orZero (decay stored !! k)) Num.one) = true
          ∧ Num.leb Num.one (Num.add (orZero (decay stored !! k)) Num.one) = true
          ∧ Num.leb (Num.add (orZero (decay stored !! k)) Num.one) Num.fifty = true)
    as (Hpos & Hone & Hfifty).
  { destruct (decay stored !! k) as [x |] eqn:Hk.
    - destruct (Hdecayed k x Hk) as [Hx Hle]. rewrite orZero_pos by done.
      by apply reinforce_in_range.
    - by vm_compute. }
  eexists. split_and!; [reflexivity | | done | done].
  intros k' v'. rewrite lookup_insert_Some.
  intros [[_ <-] | [_ Hk']]; [by eexists | by apply Hdecay in Hk'].
Qed.

(** X7: the weights stay within bounds.  A request turns a profile whose
    weights are positive doubles of at most 50 into one of the same kind:
    a weight of at most 50 decays to at most 49, and the 1 added for the
    topic of the request brings it to at most 50 again, rounding included.
    The weight of that topic is then at least 1.  This holds for a request
    without topic, and for a topic of ASCII characters whose normal form
    is a key of the profile or no name of an inherited member. *)
Theorem weights_stay_in_range (userId : string) (found : option profile) :
  let stored : profile := default ∅ found in
  in_range stored →
  (∀ topic, uncounted topic →
     ∃ updated : profile,
       snd (loadAndUpdate userId found topic) = Normal updated
       ∧ in_range updated
       ∧ ∀ k v, updated !! k = Some v →
                Num.leb (toNumber v) Num.fortynine = true)
  ∧ (∀ t, JsString.isAscii t = true → hasTopic t = true →
       is_Some (stored !! normalize t)
       ∨ Prototype.inherited (normalize t) = false →
       ∃ (updated : profile) (w : spec_float),
         snd (loadAndUpdate userId found (VString t)) = Normal updated
         ∧ in_range updated
         ∧ updated !! normalize t = Some (number w)
         ∧ Num.leb Num.one w = true ∧ Num.leb w Num.fifty = true).
Proof.
  intros stored Hrange.
  pose proof (decay_range stored Hrange) as Hdecayed.
  pose proof (decayed_in_range stored Hrange) as Hdecay.
  split.
  - intros topic Hno. unfold loadAndUpdate. fold stored.
    rewrite (reinforce_none _ _ Hno). eexists. split_and!; [reflexivity | done |].
    intros k v. rewrite lookup_fmap.
    destruct (decay stored !! k) as [x |] eqn:Hk; [| discriminate].
    intros [= <-]. by apply (Hdecayed k x).
  - intros t _ Ht Hkey. unfold loadAndUpdate. fold stored.
    destruct (counted_in_range stored t Hrange Ht Hkey)
      as (w & -> & Hupdated & Hone & Hfifty).
    eexists _, w. split_and!; [reflexivity | done | apply lookup_insert_eq
                              | done | done].
Qed.

End RangeFacts.

(** ** Dominant interests *)

Section InterestFacts.
Import Interests Profile.

Lemma ltb_false_leb a b :
  Num.pos_finite a = true → Num.pos_finite b = true →
  Num.ltb a b = false → Num.leb b a = true.
Proof.
  intros Ha Hb Hlt.
  destruct (pos_finite_inv a Ha) as (ma & ea & -> & _).
  destruct (pos_finite_inv b Hb) as (mb & eb & -> & _).
  apply leb_finite. apply not_true_iff_false in Hlt.
  rewrite ltb_finite in Hlt. lia.
Qed.

Lemma ltb_leb a b :
  Num.pos_finite a = true → Num.pos_finite b = true →
  Num.ltb a b = true → Num.leb a b = true.
Proof.
  intros Ha Hb Hlt.
  destruct (pos_finite_inv a Ha) as (ma & ea & -> & _).
  destruct (pos_finite_inv b Hb) as (mb & eb & -> & _).
  apply leb_finite. apply ltb_finite in Hlt. lia.
Qed.

Section Sorting.
Context {A : Type} (compare : A → A → spec_float).

Lemma insert_perm x l : insert compare x l ≡ₚ x :: l.
Proof.
  induction l as [| y l IH]; [done |]. cbn.
  destruct (follows compare x y); [| done].
  rewrite IH. apply Permutation_swap.
Qed.

Lemma sort_perm l : sort compare l ≡ₚ l.
Proof.
  induction l as [| x l IH]; [done |].
  change (sort compare (x :: l)) with (insert compare x (sort compare l)).
  by rewrite insert_perm, IH.
Qed.

End Sorting.

Abbreviation weighted :=
  (Forall (λ e : string * weight, Num.pos_finite (toNumber (snd e)) = true)).

(** On positive weights the comparator of the source orders by weight. *)
Lemma follows_byWeight x y :
  Num.pos_finite (toNumber (snd x)) = true →
  Num.pos_finite (toNumber (snd y)) = true →
  follows byWeight x y = Num.ltb (toNumber (snd x)) (toNumber (snd y)).
Proof. intros Hx Hy. unfold follows, byWeight. by apply sub_sign. Qed.

Lemma insert_byWeight_sorted x l :
  Num.pos_finite (toNumber (snd x)) = true → weighted l →
  StronglySorted outweighs l → StronglySorted outweighs (insert byWeight x l).
Proof.
  intros Hx Hl Hsorted. induction Hsorted as [| y rest Hsorted IH Hy]; cbn.
  - by repeat constructor.
  - apply Forall_cons in Hl as [Hpy Hrest].
    rewrite follows_byWeight by done.
    destruct (Num.ltb (toNumber (snd x)) (toNumber (snd y))) eqn:Hlt.
    + constructor; [by apply IH |].
      rewrite insert_perm. constructor; [| done].
      by apply ltb_leb.
    + constructor; [by constructor |].
      assert (outweighs x y) as Hxy by (by apply ltb_false_leb).
      constructor; [done |].
      rewrite Forall_forall in Hy, Hrest |- *. intros z Hz.
      apply (leb_trans (toNumber (snd z)) (toNumber (snd y)) (toNumber (snd x)));
        auto. by apply Hy.
Qed.

Lemma sort_byWeight_sorted l :
  weighted l → StronglySorted outweighs (sort byWeight l).
Proof.
  induction l as [| x l IH]; intros Hl; [constructor |].
  apply Forall_cons in Hl as [Hx Hl].
  change (sort byWeight (x :: l)) with (insert byWeight x (sort byWeight l)).
  apply insert_byWeight_sorted; [done | by rewrite sort_perm | by apply IH].
Qed.

Lemma StronglySorted_across {A} (R : A → A → Prop) (l1 l2 : list A) :
  StronglySorted R (l1 ++ l2) → ∀ a b, a ∈ l1 → b ∈ l2 → R a b.
Proof.
  induction l1 as [| x l1 IH]; intros Hs a b Ha Hb.
  - by apply elem_of_nil in Ha.
  - cbn in Hs. apply StronglySorted_inv in Hs as [Hs Hx].
    apply elem_of_cons in Ha as [-> | Ha].
    + rewrite Forall_forall in Hx. apply Hx. apply elem_of_app. by right.
    + by apply IH.
Qed.

Variable Object_entries : profile → list (string * weight).
Variable Weight_toString : weight → string.
Hypothesis entries_of : ∀ p, Object_entries p ≡ₚ map_to_list p.

Lemma entries_weighted (weightedProfile : profile) :
  all_positive weightedProfile → weighted (Object_entries weightedProfile).
Proof.
  intros Hall. rewrite entries_of. apply Forall_forall. intros [k v] Hkv.
  apply elem_of_map_to_list in Hkv.
  by destruct (Hall k v Hkv) as (x & -> & Hx).
Qed.

(** X5: [extractDominantTopics] returns the lower-cased names of the
    heaviest topics of a profile whose weights are positive numbers: of
    all topics when there are five at most, of five otherwise; they come
    in order of weight, the heaviest first, and no topic left out weighs
    more than one that is returned.  [Object.entries] may list the
    profile in any order. *)
Theorem dominant_topics_are_the_heaviest (weightedProfile : profile) :
  all_positive weightedProfile →
  ∃ chosen rest : list (string * weight),
    extractDominantTopics Object_entries (Some weightedProfile)
    = map (λ entry, JsString.toLowerCase (fst entry)) chosen
    ∧ chosen ++ rest ≡ₚ map_to_list weightedProfile
    ∧ length chosen = (5 `min` size weightedProfile)%nat
    ∧ StronglySorted outweighs chosen
    ∧ (∀ a b, a ∈ chosen → b ∈ rest → outweighs a b).
Proof.
  intros Hall.
  pose proof (sort_byWeight_sorted _ (entries_weighted _ Hall)) as Hsorted.
  pose proof (sort_perm byWeight (Object_entries weightedProfile)) as Hperm.
  set (sorted := sort byWeight (Object_entries weightedProfile)) in *.
  exists (take 5 sorted), (drop 5 sorted). split_and!.
  - reflexivity.
  - by rewrite take_drop, Hperm, entries_of.
  - rewrite length_take, Hperm, entries_of, length_map_to_list. lia.
  - by apply StronglySorted_take.
  - apply StronglySorted_across. by rewrite take_drop.
Qed.

(** How many entries both functions keep. *)
Lemma chosen_length (historyObject : profile) :
  length (take 5 (sort byWeight (Object_entries historyObject)))
  = (5 `min` size historyObject)%nat.
Proof. by rewrite length_take, sort_perm, entries_of, length_map_to_list. Qed.

(** X6: [buildUserProfileSummary] returns the empty string for an empty
    profile and for no other.  For any other profile it returns
    ["User dominant interests: "] followed by the chosen topics, each as
    ["topic (count interactions)"], separated by [", "]: at most five
    entries of the profile, the ones whose lower-cased names
    [extractDominantTopics] returns, in the same order.  After a request
    that carries a topic of ASCII characters, other than white space, the
    summary is not empty, unless the normal form of the topic is
    ["__proto__"]: under that name nothing is stored, and the summary of a
    new user is empty. *)
Theorem summary_names_the_dominant_topics (historyObject : profile) :
  (buildUserProfileSummary Object_entries Weight_toString (Some historyObject) = ""
   ↔ historyObject = ∅)
  ∧ (historyObject ≠ ∅ →
     ∃ chosen : list (string * weight),
       buildUserProfileSummary Object_entries Weight_toString (Some historyObject)
       = "User dominant interests: "
         ++ String.concat ", " (map (interest Weight_toString) chosen)
       ∧ extractDominantTopics Object_entries (Some historyObject)
         = map (λ entry, JsString.toLowerCase (fst entry)) chosen
       ∧ (1 ≤ length chosen ≤ 5)%nat
       ∧ ∀ topic count, (topic, count) ∈ chosen →
                        historyObject !! topic = Some count)
  ∧ (∀ userId found t,
       JsString.isAscii t = true → hasTopic t = true →
       normalize t ≠ "__proto__" →
       ∃ updated : profile,
         snd (loadAndUpdate userId found (VString t)) = Normal updated
         ∧ buildUserProfileSummary Object_entries Weight_toString
             (Some updated) ≠ "")
  ∧ (∀ userId,
       snd (loadAndUpdate userId None (VString "__proto__")) = Normal ∅
       ∧ buildUserProfileSummary Object_entries Weight_toString (Some ∅) = "").
Proof.
  assert (∀ p : profile, p ≠ ∅ →
    buildUserProfileSummary Object_entries Weight_toString (Some p)
    = "User dominant interests: "
      ++ String.concat ", "
           (map (interest Weight_toString)
                (take 5 (sort byWeight (Object_entries p))))) as Hfull.
  { intros p Hp. unfold buildUserProfileSummary. cbv zeta.
    rewrite chosen_length.
    assert (size p ≠ 0%nat) by (by apply map_size_non_empty_iff).
    destruct (Nat.eqb_spec (5 `min` size p) 0); [lia | reflexivity]. }
  assert (buildUserProfileSummary Object_entries Weight_toString (Some ∅) = "")
    as Hnone.
  { unfold buildUserProfileSummary. cbv zeta.
    by rewrite chosen_length, map_size_empty. }
  split_and!.
  - split.
    + intros Hempty. destruct (decide (historyObject = ∅)) as [| Hne]; [done |].
      rewrite (Hfull _ Hne) in Hempty. discriminate.
    + by intros ->.
  - intros Hne. exists (take 5 (sort byWeight (Object_entries historyObject))).
    split_and!.
    + by apply Hfull.
    + reflexivity.
    + rewrite chosen_length.
      assert (size historyObject ≠ 0%nat) by (by apply map_size_non_empty_iff).
      lia.
    + rewrite chosen_length. lia.
    + intros topic count Hin. apply subseteq_take in Hin.
      rewrite sort_perm, entries_of in Hin. by apply elem_of_map_to_list.
  - intros userId found t _ Ht Hproto. unfold loadAndUpdate.
    set (decayed := decay (default ∅ found)).
    destruct (decayed !! normalize t) as [x |] eqn:Hx.
    + rewrite (reinforce_counted t _ Ht) by (left; by rewrite Hx).
      eexists. split; [reflexivity |]. rewrite Hfull; [discriminate |].
      apply insert_non_empty.
    + destruct (Prototype.inherited (normalize t)) eqn:Hin.
      * rewrite (reinforce_inherited t _ Ht Hx Hin).
        destruct (String.eqb_spec (normalize t) "__proto__"); [done |].
        eexists. split; [reflexivity |]. rewrite Hfull; [discriminate |].
        apply insert_non_empty.
      * rewrite (reinforce_counted t _ Ht) by (by right).
        eexists. split; [reflexivity |]. rewrite Hfull; [discriminate |].
        apply insert_non_empty.
  - intros userId. split; [reflexivity | exact Hnone].
Qed.

End InterestFacts.

Lemma dominant_topics_are_the_heaviest_witness :
  let weightedProfile : Profile.profile :=
    <[ "sql" := Profile.number Num.c098 ]> {[ "Python" := Profile.number Num.one ]} in
  ∃ chosen rest : list (string * Profile.weight),
    Interests.extractDominantTopics map_to_list (Some weightedProfile)
    = map (λ entry, JsString.toLowerCase (fst entry)) chosen
    ∧ chosen ++ rest ≡ₚ map_to_list weightedProfile
    ∧ length chosen = (5 `min` size weightedProfile)%nat
    ∧ StronglySorted Interests.outweighs chosen
    ∧ (∀ a b, a ∈ chosen → b ∈ rest → Interests.outweighs a b).
Proof.
  intros weightedProfile.
  apply (dominant_topics_are_the_heaviest map_to_list
           (λ p, reflexivity (map_to_list p)) weightedProfile).
  intros k v Hk. unfold weightedProfile in Hk.
  apply lookup_insert_Some in Hk as [[_ <-] | [_ Hk]]; [by eexists |].
  apply lookup_singleton_Some in Hk as [_ <-]. by eexists.
Defined.

Lemma summary_names_the_dominant_topics_witness :
  Interests.buildUserProfileSummary map_to_list (λ _, "1") (Some ∅) = ""
  ∧ ∃ updated : Profile.profile,
      snd (Profile.loadAndUpdate "u1" None (VString " Python ")) = Normal updated
      ∧ Interests.buildUserProfileSummary map_to_list (λ _, "1") (Some updated)
        ≠ "".
Proof.
  destruct (summary_names_the_dominant_topics map_to_list (λ _, "1")
              (λ p, reflexivity (map_to_list p)) ∅) as (Hempty & _ & Htopic & _).
  split; [by apply Hempty |]. by apply Htopic.
Defined.

(** ** Strings *)

Section StringFacts.
Import JsString.

Lemma prefix_char c a s :
  String.prefix (String c "") (String a s) = Ascii.eqb a c.
Proof.
  cbn. destruct (ascii_dec c a) as [-> | Hne].
  - rewrite Ascii.eqb_refl. by destruct s.
  - symmetry. apply Ascii.eqb_neq. congruence.
Qed.

(** Looking for one character. *)
Lemma includes_char c a s :
  includes (String a s) (String c "")
  = Ascii.eqb a c || includes s (String c "").
Proof.
  cbn [includes]. rewrite prefix_char. by destruct (Ascii.eqb a c).
Qed.

Lemma includes_char_nil c : includes "" (String c "") = false.
Proof. reflexivity. Qed.

Lemma prefix_app b c : String.prefix b (b ++ c) = true.
Proof.
  induction b as [| x b IH]; [by destruct c |].
  simpl. destruct (ascii_dec x x); [exact IH | congruence].
Qed.

Lemma includes_prefix s sub :
  String.prefix sub s = true → includes s sub = true.
Proof. intros H. destruct s; cbn [includes]; by rewrite H. Qed.

Lemma includes_cons x s sub :
  includes s sub = true → includes (String x s) sub = true.
Proof.
  intros H. cbn [includes]. rewrite H. by destruct (String.prefix sub _).
Qed.

(** A string includes each of its parts. *)
Lemma includes_app a b c : includes (a ++ b ++ c) b = true.
Proof.
  induction a as [| x a IH].
  - change ("" ++ b ++ c) with (b ++ c). apply includes_prefix, prefix_app.
  - change (String x a ++ b ++ c) with (String x (a ++ b ++ c)).
    by apply includes_cons.
Qed.

End StringFacts.

Section NormalForm.
Import JsString Profile.

Lemma lower_char_idem c : lower_char (lower_char c) = lower_char c.
Proof. destruct c as [[] [] [] [] [] [] [] []]; reflexivity. Qed.

Lemma is_white_lower c : is_white (lower_char c) = is_white c.
Proof. destruct c as [[] [] [] [] [] [] [] []]; reflexivity. Qed.

Lemma toLowerCase_idem s : toLowerCase (toLowerCase s) = toLowerCase s.
Proof. induction s as [| c s IH]; cbn; by rewrite ?lower_char_idem, ?IH. Qed.

Lemma toLowerCase_empty s : toLowerCase s = "" ↔ s = "".
Proof. by destruct s. Qed.

Lemma toLowerCase_trimStart s :
  trimStart (toLowerCase s) = toLowerCase (trimStart s).
Proof.
  induction s as [| c s IH]; [done |]. cbn [toLowerCase trimStart].
  rewrite is_white_lower. by destruct (is_white c).
Qed.

Lemma toLowerCase_trimEnd s :
  trimEnd (toLowerCase s) = toLowerCase (trimEnd s).
Proof.
  induction s as [| c s IH]; [done |]. cbn [toLowerCase trimEnd].
  rewrite IH, is_white_lower.
  destruct (trimEnd s) as [| c' r]; cbn [toLowerCase]; [| done].
  by destruct (is_white c).
Qed.

Lemma toLowerCase_trim s : trim (toLowerCase s) = toLowerCase (trim s).
Proof. unfold trim. by rewrite toLowerCase_trimStart, toLowerCase_trimEnd. Qed.

Lemma trimStart_clean s : clean_start (trimStart s).
Proof.
  induction s as [| c s IH]; [done |]. cbn [trimStart].
  by destruct (is_white c) eqn:Hc.
Qed.

Lemma trimStart_of_clean s : clean_start s → trimStart s = s.
Proof. destruct s as [| c s]; [done |]. cbn. by intros ->. Qed.

Lemma trimEnd_clean s : clean_start s → clean_start (trimEnd s).
Proof.
  destruct s as [| c s]; [done |]. cbn [clean_start trimEnd]. intros Hc.
  rewrite Hc. by destruct (trimEnd s).
Qed.

Lemma trimEnd_idem s : trimEnd (trimEnd s) = trimEnd s.
Proof.
  induction s as [| c s IH]; [done |]. cbn [trimEnd].
  destruct (trimEnd s) as [| c' r] eqn:Hr.
  - destruct (is_white c) eqn:Hc; [done |]. cbn. by rewrite Hc.
  - cbn [trimEnd] in IH |- *. by rewrite IH.
Qed.

Lemma trim_idem s : trim (trim s) = trim s.
Proof.
  unfold trim.
  rewrite (trimStart_of_clean (trimEnd (trimStart s)))
    by apply trimEnd_clean, trimStart_clean.
  apply trimEnd_idem.
Qed.

Lemma normalize_idem t : normalize (normalize t) = normalize t.
Proof.
  unfold normalize.
  by rewrite (toLowerCase_trim t), toLowerCase_idem, toLowerCase_trim, trim_idem.
Qed.

Lemma hasTopic_normalize t : hasTopic t = true ↔ normalize t ≠ "".
Proof.
  unfold hasTopic, normalize. rewrite toLowerCase_trim, toLowerCase_empty.
  destruct (String.eqb_spec (trim t) "") as [Hempty | Hfull]; cbn.
  - rewrite andb_false_r. split; [done | by intros []].
  - rewrite andb_true_r. split; [done |]. intros _. by destruct t.
Qed.

Lemma normalize_lower t : toLowerCase (normalize t) = normalize t.
Proof. unfold normalize. by rewrite <- toLowerCase_trim, toLowerCase_idem. Qed.

(** Of the names of the inherited members, two are in lower case. *)
Lemma inherited_lower k :
  toLowerCase k = k →
  Prototype.inherited k = true ↔ k = "constructor" ∨ k = "__proto__".
Proof.
  intros Hlower. split.
  - unfold Prototype.inherited. rewrite existsb_exists.
    intros (name & Hname & Heq). apply String.eqb_eq in Heq. subst name.
    unfold Prototype.members in Hname. cbn [In] in Hname.
    repeat (destruct Hname as [<- | Hname];
            [first [ by left | by right | discriminate Hlower ] |]).
    done.
  - by intros [-> | ->].
Qed.

(** X18: the key under which a topic of ASCII characters is counted.  A
    topic counts when its normal form (lower case, trimmed) is not empty;
    the normal form is its own normal form, and it names an inherited
    member only when it is ["constructor"] or ["__proto__"]; topics with
    the same normal form update the profile in the same way; and the keys
    of the updated profile are those of the stored one and, for a topic
    that counts, its normal form, unless that is ["__proto__"]: so the
    empty string is never made a key. *)
Theorem topic_keys_are_canonical (userId : string) (found : option profile)
    (t : string) :
  isAscii t = true →
  let stored : profile := default ∅ found in
  (hasTopic t = true ↔ normalize t ≠ "")
  ∧ normalize (normalize t) = normalize t
  ∧ (Prototype.inherited (normalize t) = true
     ↔ normalize t = "constructor" ∨ normalize t = "__proto__")
  ∧ (∀ t', isAscii t' = true → normalize t' = normalize t →
           loadAndUpdate userId found (VString t')
           = loadAndUpdate userId found (VString t))
  ∧ ∃ updated : profile,
      snd (loadAndUpdate userId found (VString t)) = Normal updated
      ∧ ∀ k, is_Some (updated !! k)
             ↔ is_Some (stored !! k)
               ∨ (k = normalize t ∧ normalize t ≠ ""
                  ∧ normalize t ≠ "__proto__").
Proof.
  intros _ stored. split_and!.
  - apply hasTopic_normalize.
  - apply normalize_idem.
  - apply inherited_lower, normalize_lower.
  - intros t' _ Hsame. unfold loadAndUpdate, reinforce.
    assert (hasTopic t' = hasTopic t) as ->.
    { apply eq_true_iff_eq. by rewrite !hasTopic_normalize, Hsame. }
    by rewrite Hsame.
  - assert (∀ k, is_Some ((number <$> decay stored : profile) !! k)
                 ↔ is_Some (stored !! k)) as Hkeys.
    { intros k. by rewrite decayed_lookup, fmap_is_Some. }
    unfold loadAndUpdate. fold stored.
    destruct (hasTopic t) eqn:Ht.
    + pose proof Ht as Hne. apply hasTopic_normalize in Hne.
      destruct (decay stored !! normalize t) as [x |] eqn:Hx.
      * rewrite (reinforce_counted t _ Ht) by (left; by rewrite Hx).
        eexists. split; [reflexivity |]. intros k.
        destruct (decide (k = normalize t)) as [-> | Hk].
        -- rewrite lookup_insert_eq. split; [| by eexists].
           intros _. left. rewrite decay_lookup in Hx.
           by destruct (stored !! normalize t).
        -- rewrite lookup_insert_ne by done. rewrite Hkeys.
           split; [by left | by intros [? | [? _]]].
      * assert (stored !! normalize t = None) as Hnone.
        { rewrite decay_lookup in Hx. by destruct (stored !! normalize t). }
        destruct (Prototype.inherited (normalize t)) eqn:Hin.
        -- rewrite (reinforce_inherited t _ Ht Hx Hin).
           destruct (String.eqb_spec (normalize t) "__proto__") as [Hp | Hp].
           ++ eexists. split; [reflexivity |]. intros k. rewrite Hkeys.
              split; [by left | by intros [? | (_ & _ & ?)]].
           ++ eexists. split; [reflexivity |]. intros k.
              destruct (decide (k = normalize t)) as [-> | Hk].
              ** rewrite lookup_insert_eq. split; [by right | by eexists].
              ** rewrite lookup_insert_ne by done. rewrite Hkeys.
                 split; [by left | by intros [? | [? _]]].
        -- rewrite (reinforce_counted t _ Ht) by (by right).
           assert (normalize t ≠ "__proto__") as Hp.
           { intros Heq. by rewrite Heq in Hin. }
           eexists. split; [reflexivity |]. intros k.
           destruct (decide (k = normalize t)) as [-> | Hk].
           ++ rewrite lookup_insert_eq. split; [by right | by eexists].
           ++ rewrite lookup_insert_ne by done. rewrite Hkeys.
              split; [by left | by intros [? | [? _]]].
    + rewrite (reinforce_none (VString t)) by exact Ht.
      apply not_true_iff_false in Ht. rewrite hasTopic_normalize in Ht.
      eexists. split; [reflexivity |]. intros k. rewrite Hkeys.
      split; [by left | by intros [? | (_ & ? & _)]].
Qed.

End NormalForm.

(** ** Reading JSON out of free text *)

Section ExtractFacts.
Import JsString Extract.

Lemma upToLast_None close s :
  upToLast close s = None ↔ includes s (String close "") = false.
Proof.
  induction s as [| c s IH]; [done |].
  rewrite includes_char. cbn [upToLast].
  destruct (upToLast close s) as [r |].
  - split; [done |]. intros H. apply orb_false_iff in H as [_ H].
    by apply IH in H.
  - destruct (Ascii.eqb c close); [done |]. cbn. by rewrite <- IH.
Qed.

Lemma upToLast_Some close s r :
  upToLast close s = Some r ↔
  ∃ mid post,
    s = mid ++ String close post
    ∧ r = mid ++ String close ""
    ∧ includes post (String close "") = false.
Proof.
  revert r. induction s as [| c s IH]; intros r.
  - split; [done |]. intros (mid & post & Hs & _). by destruct mid.
  - cbn [upToLast]. split.
    + destruct (upToLast close s) as [r' |] eqn:Hs.
      * intros [= <-]. destruct (proj1 (IH r') eq_refl) as (mid & post & -> & -> & Hpost).
        by exists (String c mid), post.
      * destruct (Ascii.eqb_spec c close) as [-> | Hne]; [| done].
        intros [= <-]. exists "", s. split_and!; [done | done |].
        by apply upToLast_None.
    + intros (mid & post & Hs & -> & Hpost). destruct mid as [| c' mid].
      * cbn in Hs. injection Hs as -> ->.
        apply upToLast_None in Hpost. rewrite Hpost, Ascii.eqb_refl. done.
      * cbn in Hs. injection Hs as -> ->.
        rewrite (proj2 (IH (mid ++ String close ""))); [done |].
        by exists mid, post.
Qed.

(** X8: what the two patterns [/\[[\s\S]*\]/] and [/\{[\s\S]*\}/] find in a
    text.  There is a match exactly when an opening bracket is followed,
    somewhere, by a closing one; the match then runs from the first
    opening bracket of the text to the last closing bracket after it,
    both included, whatever stands in between. *)
Theorem matchSpan_first_to_last (open close : ascii) (s r : string) :
  matchSpan open close s = Some r ↔
  ∃ pre mid post,
    s = pre ++ String open (mid ++ String close post)
    ∧ r = String open (mid ++ String close "")
    ∧ includes pre (String open "") = false
    ∧ includes post (String close "") = false.
Proof.
  revert r. induction s as [| c s IH]; intros r.
  - split; [done |]. intros (pre & mid & post & Hs & _). by destruct pre.
  - cbn [matchSpan]. destruct (Ascii.eqb_spec c open) as [-> | Hne].
    + split.
      * destruct (upToLast close s) as [r' |] eqn:Hs; [| done].
        intros [= <-]. apply upToLast_Some in Hs as (mid & post & -> & -> & Hpost).
        by exists "", mid, post.
      * intros (pre & mid & post & Hs & -> & Hpre & Hpost).
        destruct pre as [| c' pre].
        -- cbn in Hs. injection Hs as ->.
           rewrite (proj2 (upToLast_Some close _ (mid ++ String close "")));
             [done |]. by exists mid, post.
        -- cbn in Hs. injection Hs as <- _.
           rewrite includes_char, Ascii.eqb_refl in Hpre. done.
    + rewrite IH. split.
      * intros (pre & mid & post & -> & -> & Hpre & Hpost).
        exists (String c pre), mid, post. split_and!; try done.
        rewrite includes_char, Hpre. by apply Ascii.eqb_neq in Hne as ->.
      * intros (pre & mid & post & Hs & -> & Hpre & Hpost).
        destruct pre as [| c' pre]; cbn in Hs; injection Hs as -> ->; [done |].
        rewrite includes_char in Hpre. apply orb_false_iff in Hpre as [_ Hpre].
        by exists pre, mid, post.
Qed.

End ExtractFacts.

(** ** The video pipeline *)

Section VideoFacts.
Import Pipeline.
Variable JSON_parse : string → completion value.
Variable String_of : value → string.
Variable encodeURIComponent : string → string.
Variable mentorPrompt : string → value → string → string → string.
Variable rankingPrompt : string → string → list value → string.
Variable w : world.

Local Abbreviation requestPromise :=
  (Pipeline.requestPromise JSON_parse String_of encodeURIComponent mentorPrompt
     rankingPrompt w).

(** The gateway returns, whatever the state it starts in. *)
Lemma generateWithAI_returns prompt s :
  ∃ text l,
    Gateway.generateWithAI w prompt s
    = (Normal text, {| responseCache := responseCache s; log := l |}).
Proof.
  destruct (callGeminiWithRetry_spec w Primary prompt 3 s)
    as (k & _ & _ & Hsnd & _).
  unfold Gateway.generateWithAI, catch at 1, bindM at 1.
  destruct (Gateway.callGeminiWithRetry w Primary prompt 3 s) as [r s1].
  cbn [fst snd] in Hsnd. subst s1.
  assert (∀ l, ∃ text l',
    catch (bindM (Gateway.post w Fallback prompt)
                 (λ r, lift (Gateway.textOrEmpty r)))
          (λ _, ret (VString "[]"))
          {| responseCache := responseCache s; log := l |}
    = (Normal text, {| responseCache := responseCache s; log := l' |})) as Hfb.
  { intros l. unfold catch, bindM, Gateway.post, lift, ret. cbn.
    destruct (axios_post w Fallback prompt _) as [data |]; [| by eexists _, _].
    destruct (Gateway.textOrEmpty data); by eexists _, _. }
  destruct r as [data | e]; [| apply Hfb].
  unfold lift at 1. destruct (Gateway.textOrEmpty data); [by eexists _, _ |].
  apply Hfb.
Qed.

(** The [YouTube] branch, once videos were retrieved: the gateway is asked
    once, and what is read out of its text is stored and returned. *)
Lemma youTube_run req summary dominantTopics t retrieved s :
  platform req = Some "YouTube" →
  topic req = Some t → t ≠ "" →
  youtube w t = Normal retrieved → retrieved ≠ [] →
  let asked := {| responseCache := responseCache s;
                  log := log s ++ [YouTubeQuery t] |} in
  ∃ text l,
    Gateway.generateWithAI w (rankingPrompt t summary retrieved) asked
    = (Normal text, {| responseCache := responseCache s; log := l |})
    ∧ requestPromise req summary dominantTopics s
      = let stored ranked :=
          (Normal (VObject [("recommendations", ranked)]),
           {| responseCache :=
                Cache.setCache (cacheKey req)
                  (VObject [("recommendations", ranked)]) (now w)
                  (responseCache s);
              log := l |}) in
        match Extract.matchText "[" "]" text with
        | Throw e => (Throw e, {| responseCache := responseCache s; log := l |})
        | Normal None => stored (VArray (take 3 retrieved))
        | Normal (Some span) =>
            match JSON_parse span with
            | Normal ranked =>
                stored (Value.or ranked (VArray (take 3 retrieved)))
            | Throw _ => stored (VArray (take 3 retrieved))
            end
        end.
Proof.
  intros Hplat Ht Htne Hfetch Hsome asked.
  destruct (generateWithAI_returns (rankingPrompt t summary retrieved) asked)
    as (text & l & Hgen).
  exists text, l. split; [exact Hgen |].
  unfold Pipeline.requestPromise. rewrite Hplat.
  cbn [equals String.eqb Ascii.eqb Bool.eqb]. unfold youTube.
  rewrite (missing_present _ t Ht Htne), Ht. cbn [default from_option id].
  unfold fetchYouTubeResults, bindM at 1 2, emit, lift at 1. rewrite Hfetch.
  destruct retrieved as [| r0 retrieved]; [done |].
  cbn [length Nat.eqb]. unfold bindM at 1, rankWithGemini, bindM at 1.
  fold asked. rewrite Hgen. unfold bindM at 1, lift at 1.
  destruct (Extract.matchText "[" "]" text) as [[span |] | e]; [| done | done].
  unfold catch, lift. by destruct (JSON_parse span).
Qed.

(** X9: a [YouTube] request for which videos were retrieved and the
    gateway returned the string [text].  If [text] holds no bracketed
    span, or [JSON.parse] rejects the span, the result is the first three
    retrieved videos; if the span parses, the result is the parsed value,
    unless it is falsy.  In each case the result is stored in the cache
    under the key of the request, and returned. *)
Theorem video_ranking_outcome (req : request) (summary : string)
    (dominantTopics : list string) (t text : string) (retrieved : list value)
    (s : state) :
  platform req = Some "YouTube" →
  topic req = Some t → t ≠ "" →
  youtube w t = Normal retrieved → retrieved ≠ [] →
  fst (Gateway.generateWithAI w (rankingPrompt t summary retrieved)
         {| responseCache := responseCache s;
            log := log s ++ [YouTubeQuery t] |})
  = Normal (VString text) →
  let top3 := VArray (take 3 retrieved) in
  let ranked :=
    match Extract.matchSpan "[" "]" text with
    | None => top3
    | Some span =>
        match JSON_parse span with
        | Normal ranked => Value.or ranked top3
        | Throw _ => top3
        end
    end in
  let outcome := requestPromise req summary dominantTopics s in
  fst outcome = Normal (VObject [("recommendations", ranked)])
  ∧ responseCache (snd outcome)
    = <[cacheKey req :=
          {| Cache.data := VObject [("recommendations", ranked)];
             Cache.timestamp := now w |}]> (responseCache s).
Proof.
  intros Hplat Ht Htne Hfetch Hsome Htext top3 ranked outcome.
  destruct (youTube_run req summary dominantTopics t retrieved s
              Hplat Ht Htne Hfetch Hsome) as (text' & l & Hgen & Hrun).
  rewrite Hgen in Htext. cbn [fst] in Htext. injection Htext as ->.
  subst outcome ranked top3. rewrite Hrun. cbn [Extract.matchText].
  destruct (Extract.matchSpan "[" "]" text) as [span |]; [| done].
  by destruct (JSON_parse span).
Qed.

(** X10: a [YouTube] request for which videos were retrieved while both
    generation endpoints fail.  The gateway then returns ["[]"], in which
    the ranking pattern finds the span ["[]"]; parsed to the empty array,
    which is truthy, it is taken for the ranking.  The request is answered
    with an empty list, not with the first three videos, and the empty
    list is stored in the cache. *)
Theorem video_generation_down_caches_empty_list (req : request)
    (summary : string) (dominantTopics : list string) (t : string)
    (retrieved : list value) (s : state) :
  platform req = Some "YouTube" →
  topic req = Some t → t ≠ "" →
  youtube w t = Normal retrieved → retrieved ≠ [] →
  (∀ prompt, Gateway.fails w Primary prompt) →
  (∀ prompt, Gateway.fails w Fallback prompt) →
  JSON_parse "[]" = Normal (VArray []) →
  let outcome := requestPromise req summary dominantTopics s in
  fst outcome = Normal (VObject [("recommendations", VArray [])])
  ∧ responseCache (snd outcome)
    = <[cacheKey req :=
          {| Cache.data := VObject [("recommendations", VArray [])];
             Cache.timestamp := now w |}]> (responseCache s).
Proof.
  intros Hplat Ht Htne Hfetch Hsome Hp Hf Hparse outcome.
  destruct (youTube_run req summary dominantTopics t retrieved s
              Hplat Ht Htne Hfetch Hsome) as (text & l & Hgen & Hrun).
  destruct (generateWithAI_all_fail w (rankingPrompt t summary retrieved)
              {| responseCache := responseCache s;
                 log := log s ++ [YouTubeQuery t] |} (Hp _) (Hf _))
    as [l' Hdown].
  rewrite Hdown in Hgen. injection Hgen as <- _.
  subst outcome. rewrite Hrun.
  change (Extract.matchText "[" "]" (VString "[]"))
    with (@Normal (option string) (Some "[]")).
  cbv beta iota zeta. by rewrite Hparse.
Qed.

End VideoFacts.

(** ** The cost of a generation *)

Section BudgetFacts.
Variable w : world.

Lemma slept_app l1 l2 : slept (l1 ++ l2) = slept l1 + slept l2.
Proof.
  induction l1 as [| e l1 IH]; [reflexivity |].
  cbn. destruct e; rewrite IH; lia.
Qed.

Lemma posts_to_attempts url prompt k :
  posts_to url (Gateway.attempts url prompt k) = S k.
Proof.
  induction k as [| k IH]; cbn; destruct url; cbn in *; by rewrite ?IH.
Qed.

Lemma posts_to_attempts_other url url' prompt k :
  same_endpoint url url' = false →
  posts_to url' (Gateway.attempts url prompt k) = O.
Proof. intros Hne. induction k as [| k IH]; cbn; by rewrite Hne. Qed.

Lemma slept_attempts url prompt k :
  slept (Gateway.attempts url prompt k) = 2000 * Z.of_nat k.
Proof. induction k as [| k IH]; cbn [Gateway.attempts slept]; lia. Qed.

(** X11: [callGeminiWithRetry], for any number of retries and from any
    state.  It posts at least once and at most [retries + 1] times to its
    endpoint, pauses two seconds before each post but the first, and
    leaves the cache alone.  Every post but the last was answered 429; the
    answer to the last post is the outcome: its data, or its error, and
    the error is thrown only with the retries used up or for a status
    other than 429. *)
Theorem callGeminiWithRetry_budget (url : endpoint) (payload : string)
    (retries : nat) (s : state) :
  let outcome := Gateway.callGeminiWithRetry w url payload retries s in
  let before := posts_to url (log s) in
  let posts := (posts_to url (log (snd outcome)) - before)%nat in
  responseCache (snd outcome) = responseCache s
  ∧ (1 ≤ posts ≤ retries + 1)%nat
  ∧ slept (log (snd outcome)) = slept (log s) + 2000 * Z.of_nat (posts - 1)
  ∧ (∀ i, (i < posts - 1)%nat →
       axios_post w url payload (before + i) = Failed (Some 429))
  ∧ match axios_post w url payload (before + (posts - 1)) with
    | Responded data => fst outcome = Normal data
    | Failed status =>
        fst outcome = Throw (AxiosError status)
        ∧ (posts = (retries + 1)%nat ∨ status ≠ Some 429)
    end.
Proof.
  intros outcome before posts.
  destruct (callGeminiWithRetry_spec w url payload retries s)
    as (k & Hk & Hall & Hsnd & Hfst).
  fold outcome in Hsnd, Hfst. fold before in Hall, Hfst.
  assert (posts = S k) as Hposts.
  { unfold posts. rewrite Hsnd. cbn [log].
    rewrite posts_to_app, posts_to_attempts. unfold before. lia. }
  rewrite Hposts. replace (S k - 1)%nat with k by lia.
  split_and!.
  - by rewrite Hsnd.
  - lia.
  - lia.
  - rewrite Hsnd. cbn [log]. by rewrite slept_app, slept_attempts.
  - exact Hall.
  - destruct (axios_post w url payload (before + k)); [done |].
    destruct Hfst as [Hfst [-> | Hne]]; (split; [done |]); [left; lia | by right].
Qed.

Lemma textOrEmpty_truthy data text :
  Gateway.textOrEmpty data = Normal text → Value.truthy text = true.
Proof.
  unfold Gateway.textOrEmpty. destruct (Value.get data "candidates"); [| done].
  intros [= <-]. unfold Value.or.
  match goal with |- Value.truthy (if Value.truthy ?a then _ else _) = true =>
    by destruct (Value.truthy a) eqn:Htruthy end.
Qed.

Lemma fallbackText_truthy prompt : Value.truthy (Gateway.fallbackText w prompt) = true.
Proof.
  unfold Gateway.fallbackText.
  destruct (axios_post w Fallback prompt 0) as [data |]; [| done].
  destruct (Gateway.textOrEmpty data) eqn:Htext; [| done].
  by eapply textOrEmpty_truthy.
Qed.

(** X12: [generateWithAI], from any state.  It returns a value, never an
    exception, and the value is truthy: a caller cannot receive an empty
    text.  It leaves the cache alone and adds to the log nothing but posts
    of its prompt and pauses of two seconds: between one and four posts to
    the primary endpoint, at most one to the fallback endpoint, at most six
    seconds of pauses. *)
Theorem generateWithAI_cost (prompt : string) (s : state) :
  ∃ (text : value) (l : list effect),
    Gateway.generateWithAI w prompt s
    = (Normal text, {| responseCache := responseCache s; log := log s ++ l |})
    ∧ Value.truthy text = true
    ∧ (1 ≤ posts_to Primary l ≤ 4)%nat
    ∧ (posts_to Fallback l ≤ 1)%nat
    ∧ slept l ≤ 6000
    ∧ Forall (λ e, e = Post Primary prompt ∨ e = Post Fallback prompt
                   ∨ e = Sleep 2000) l.
Proof.
  destruct (callGeminiWithRetry_spec w Primary prompt 3 s)
    as (k & Hk & _ & Hsnd & Hfst).
  assert (Forall (λ e, e = Post Primary prompt ∨ e = Post Fallback prompt
                       ∨ e = Sleep 2000)
            (Gateway.attempts Primary prompt k)) as Hshape.
  { clear. induction k as [| k IH]; cbn [Gateway.attempts].
    - constructor; [by left | constructor].
    - constructor; [by left |]. constructor; [by right; right | exact IH]. }
  assert (∀ text', Value.truthy text' = true → ∃ (text : value) (l : list effect),
    (Normal text',
     {| responseCache := responseCache s;
        log := log s ++ Gateway.attempts Primary prompt k |})
    = (Normal text, {| responseCache := responseCache s; log := log s ++ l |})
    ∧ Value.truthy text = true
    ∧ (1 ≤ posts_to Primary l ≤ 4)%nat
    ∧ (posts_to Fallback l ≤ 1)%nat
    ∧ slept l ≤ 6000
    ∧ Forall (λ e, e = Post Primary prompt ∨ e = Post Fallback prompt
                   ∨ e = Sleep 2000) l) as Hdirect.
  { intros text' Htruthy. exists text', (Gateway.attempts Primary prompt k).
    rewrite posts_to_attempts, posts_to_attempts_other, slept_attempts by done.
    split_and!; try done; lia. }
  assert (∃ (text : value) (l : list effect),
    catch (bindM (Gateway.post w Fallback prompt)
                 (λ r, lift (Gateway.textOrEmpty r)))
          (λ _, ret (VString "[]"))
          {| responseCache := responseCache s;
             log := log s ++ Gateway.attempts Primary prompt k |}
    = (Normal text, {| responseCache := responseCache s; log := log s ++ l |})
    ∧ Value.truthy text = true
    ∧ (1 ≤ posts_to Primary l ≤ 4)%nat
    ∧ (posts_to Fallback l ≤ 1)%nat
    ∧ slept l ≤ 6000
    ∧ Forall (λ e, e = Post Primary prompt ∨ e = Post Fallback prompt
                   ∨ e = Sleep 2000) l) as Hfb.
  { assert (∃ text, catch (bindM (Gateway.post w Fallback prompt)
                 (λ r, lift (Gateway.textOrEmpty r)))
          (λ _, ret (VString "[]"))
          {| responseCache := responseCache s;
             log := log s ++ Gateway.attempts Primary prompt k |}
      = (Normal text,
         {| responseCache := responseCache s;
            log := (log s ++ Gateway.attempts Primary prompt k)
                   ++ [Post Fallback prompt] |})
      ∧ Value.truthy text = true) as (text & -> & Htruthy).
    { unfold catch, bindM, Gateway.post, lift, ret. cbn.
      destruct (axios_post w Fallback prompt _) as [data |]; [| by eexists].
      destruct (Gateway.textOrEmpty data) eqn:Htext; [| by eexists].
      eexists. split; [reflexivity |]. by eapply textOrEmpty_truthy. }
    exists text, (Gateway.attempts Primary prompt k ++ [Post Fallback prompt])%list.
    rewrite !posts_to_app, slept_app, posts_to_attempts,
      posts_to_attempts_other, slept_attempts by done.
    rewrite app_assoc. cbn.
    split_and!; try done; try lia.
    apply Forall_app. split; [done |]. constructor; [by right; left | constructor]. }
  unfold Gateway.generateWithAI, catch at 1, bindM at 1.
  destruct (Gateway.callGeminiWithRetry w Primary prompt 3 s) as [r s1].
  cbn [fst snd] in Hsnd. subst s1.
  destruct r as [data | e]; [| apply Hfb].
  unfold lift at 1. destruct (Gateway.textOrEmpty data) eqn:Htext; [| apply Hfb].
  apply Hdirect. by eapply textOrEmpty_truthy.
Qed.

End BudgetFacts.

(** ** What reading and computing do to the cache *)

(** X13: [getCache] never adds or changes an entry, and it touches no key
    but the one read.  What it returns was stored under that key and is
    not older than [CACHE_TTL]; the cache is then left as it is.  After a
    miss nothing is stored under the key, so reading again, at once or
    later, misses again. *)
Theorem getCache_reads_only {A : Type} (key : string) (now : Z)
    (responseCache : gmap string (Cache.entry A)) :
  let found := fst (Cache.getCache key now responseCache) in
  let after := snd (Cache.getCache key now responseCache) in
  (∀ k, k ≠ key → after !! k = responseCache !! k)
  ∧ (∀ k entry, after !! k = Some entry → responseCache !! k = Some entry)
  ∧ (∀ data, found = Some data →
       ∃ entry, responseCache !! key = Some entry
                ∧ after = responseCache
                ∧ Cache.data entry = data
                ∧ now - Cache.timestamp entry ≤ Cache.CACHE_TTL)
  ∧ (found = None → after !! key = None)
  ∧ Cache.getCache key now after = (found, after)
  ∧ (∀ later, found = None → Cache.getCache key later after = (None, after)).
Proof.
  intros found after. subst found after. unfold Cache.getCache.
  destruct (responseCache !! key) as [entry |] eqn:Hkey.
  - destruct (Z.ltb_spec Cache.CACHE_TTL (now - Cache.timestamp entry))
      as [Hold | Hfresh]; cbn [fst snd].
    + split_and!.
      * intros k Hk. by rewrite lookup_delete_ne.
      * intros k e. rewrite lookup_delete_Some. by intros [_ H].
      * done.
      * intros _. apply lookup_delete_eq.
      * by rewrite lookup_delete_eq.
      * intros later _. by rewrite lookup_delete_eq.
    + split_and!; try done.
      * intros data [= <-]. by exists entry.
      * rewrite Hkey. destruct (Z.ltb_spec Cache.CACHE_TTL (now - Cache.timestamp entry));
          [lia | done].
  - cbn [fst snd]. split_and!; try done.
    + by rewrite Hkey.
    + intros later _. by rewrite Hkey.
Qed.

Section CacheDiscipline.
Import Pipeline.
Variable JSON_parse : string → completion value.
Variable String_of : value → string.
Variable encodeURIComponent : string → string.
Variable mentorPrompt : string → value → string → string → string.
Variable rankingPrompt : string → string → list value → string.
Variable w : world.

Local Abbreviation requestPromise :=
  (Pipeline.requestPromise JSON_parse String_of encodeURIComponent mentorPrompt
     rankingPrompt w).

Lemma missing_absent (x : option string) :
  missing x = false → ∃ v, x = Some v ∧ v ≠ "".
Proof. destruct x as [[| c v] |]; try done. intros _. by eexists. Qed.

(** X14: the computation of a request, whatever the platform and the
    answers from outside, either leaves the cache as it found it or
    stores one entry: the very result it returns, under the key of the
    request, stamped with the current time.  A computation that throws
    stores nothing. *)
Theorem computation_caches_only_its_result (req : request) (summary : string)
    (dominantTopics : list string) (s : state) :
  let outcome := requestPromise req summary dominantTopics s in
  responseCache (snd outcome) = responseCache s
  ∨ ∃ result,
      fst outcome = Normal result
      ∧ responseCache (snd outcome)
        = <[cacheKey req :=
              {| Cache.data := result; Cache.timestamp := now w |}]>
            (responseCache s).
Proof.
  intros outcome. subst outcome. unfold Pipeline.requestPromise.
  destruct (equals (platform req) "LeetCode") eqn:HL;
    [| destruct (equals (platform req) "HackerRank") eqn:HH;
       [| destruct (equals (platform req) "Coursera");
          [| destruct (equals (platform req) "Udemy");
             [| destruct (equals (platform req) "YouTube") eqn:HY]]]].
  - destruct (missing (topic req)) eqn:Hmt;
      [left; unfold leetCode; by rewrite Hmt |].
    destruct (missing (description req)) eqn:Hmd;
      [left; unfold leetCode; by rewrite Hmt, Hmd |].
    destruct (missing_absent _ Hmt) as (t & Ht & Htne).
    destruct (missing_absent _ Hmd) as (d & Hd & Hdne).
    destruct (leetcode w t) as [candidates | e] eqn:Hfetch.
    + rewrite (leetCode_run JSON_parse String_of mentorPrompt w req
                 (cacheKey req) summary t d candidates s Ht Htne Hd Hdne Hfetch).
      pose proof (mentor_cache JSON_parse String_of mentorPrompt w t
                    (difficulty req) d candidates summary (afterFetch t s))
        as Hframe.
      destruct (Pipeline.mentor _ _ _ _ _ _ _ _ _ _) as [[normalized | e] s'];
        cbn in Hframe |- *; right; eexists; by rewrite Hframe.
    + left. unfold leetCode. rewrite Hmt, Hmd, Ht, Hd.
      cbn [orb default from_option id].
      unfold fetchLeetCodeCandidates, bindM, emit, lift. by rewrite Hfetch.
  - destruct (missing (topic req)) eqn:Hmt;
      [left; unfold hackerRank; by rewrite Hmt |].
    destruct (missing (description req)) eqn:Hmd;
      [left; unfold hackerRank; by rewrite Hmt, Hmd |].
    destruct (missing_absent _ Hmt) as (t & Ht & Htne).
    destruct (missing_absent _ Hmd) as (d & Hd & Hdne).
    destruct (leetcode w t) as [candidates | e] eqn:Hfetch.
    + rewrite (hackerRank_run JSON_parse String_of mentorPrompt w req
                 (cacheKey req) summary t d candidates s Ht Htne Hd Hdne Hfetch).
      pose proof (mentor_cache JSON_parse String_of mentorPrompt w t
                    (difficulty req) d candidates summary (afterFetch t s))
        as Hframe.
      destruct (Pipeline.mentor _ _ _ _ _ _ _ _ _ _) as [[normalized | e] s'];
        cbn in Hframe |- *; [right; eexists; by rewrite Hframe | by left].
    + left. unfold hackerRank. rewrite Hmt, Hmd, Ht, Hd.
      cbn [orb default from_option id].
      unfold fetchLeetCodeCandidates, bindM, emit, lift. by rewrite Hfetch.
  - left. unfold coursera. destruct (missing (topic req)); [done |].
    unfold bindM, lift. by destruct (rank _ _ _).
  - left. unfold udemy. destruct (missing (topic req)); [done |].
    unfold bindM, lift. by destruct (rank _ _ _).
  - destruct (missing (topic req)) eqn:Hmt;
      [left; unfold youTube; by rewrite Hmt |].
    destruct (missing_absent _ Hmt) as (t & Ht & Htne).
    destruct (youtube w t) as [retrieved | e] eqn:Hfetch.
    + destruct retrieved as [| r0 retrieved].
      * left. unfold youTube. rewrite Hmt, Ht. cbn [default from_option id].
        unfold fetchYouTubeResults, bindM, emit, lift. by rewrite Hfetch.
      * assert (platform req = Some "YouTube") as Hplat.
        { unfold equals in HY. destruct (platform req) as [p |]; [| done].
          by apply String.eqb_eq in HY as ->. }
        destruct (youTube_run JSON_parse String_of encodeURIComponent
                    mentorPrompt rankingPrompt w req summary dominantTopics t
                    (r0 :: retrieved) s Hplat Ht Htne Hfetch ltac:(done))
          as (text & l & _ & Hrun).
        unfold Pipeline.requestPromise in Hrun.
        rewrite Hplat in Hrun. cbn [equals String.eqb Ascii.eqb Bool.eqb] in Hrun.
        rewrite Hrun. cbv zeta.
        destruct (Extract.matchText "[" "]" text) as [[span |] | e];
          [destruct (JSON_parse span) | |]; cbn; eauto.
    + left. unfold youTube. rewrite Hmt, Ht. cbn [default from_option id].
      unfold fetchYouTubeResults, bindM, emit, lift. by rewrite Hfetch.
  - by left.
Qed.

End CacheDiscipline.

(** ** Replies *)

Section ReplyFacts.
Import Pipeline Server.
Variable JSON_parse : string → completion value.
Variable String_of : value → string.
Variable encodeURIComponent : string → string.
Variable mentorPrompt : string → value → string → string → string.
Variable rankingPrompt : string → string → list value → string.

Local Abbreviation step :=
  (Server.step JSON_parse String_of encodeURIComponent mentorPrompt rankingPrompt).
Local Abbreviation run :=
  (Server.run JSON_parse String_of encodeURIComponent mentorPrompt rankingPrompt).
Local Abbreviation requestPromise :=
  (Pipeline.requestPromise JSON_parse String_of encodeURIComponent mentorPrompt
     rankingPrompt).

Lemma unanswered_step s e :
  wf s → unanswered s → unanswered (step s e).
Proof.
  intros Hwf Hun. destruct (Hwf (arrivals s) ltac:(lia)) as [Hfresh_a Hfresh_r].
  destruct e as [req summary dominant now | p w | h]; cbn [Server.step].
  - unfold arrive.
    destruct (Cache.getCache (cacheKey req) now (cache s)) as [cached cache'].
    destruct (hit cached) as [body |]; cbn.
    + intros h Hh. cbn in *. rewrite lookup_insert_ne; [by apply Hun |].
      intros <-. rewrite Hfresh_a in Hh. by destruct Hh.
    + destruct (pendingRequests s !! cacheKey req); cbn; [done |].
      intros h Hh. cbn in *. destruct (decide (h = arrivals s)) as [-> | Hne]; [done |].
      rewrite lookup_insert_ne in Hh by done. by apply Hun.
  - unfold settle.
    destruct (promises s !! p) as [[req summary dominant | |] |]; try done.
    by destruct (Pipeline.requestPromise _ _ _ _ _ _ _ _ _ _) as [outcome st].
  - unfold resume.
    destruct (awaiting s !! h) as [[key p] |] eqn:Hh; [| done].
    destruct (promises s !! p) as [[| |] |]; try done;
      intros h' Hh'; cbn in *;
      (destruct (decide (h' = h)) as [-> | Hne];
       [rewrite lookup_delete_eq in Hh'; by destruct Hh' |]);
      rewrite lookup_delete_ne in Hh' by done;
      rewrite lookup_insert_ne by done; by apply Hun.
Qed.

Lemma replied_step s e handler r :
  wf s → unanswered s →
  replies s !! handler = Some r → replies (step s e) !! handler = Some r.
Proof.
  intros Hwf Hun Hr. destruct (Hwf (arrivals s) ltac:(lia)) as [_ Hfresh_r].
  destruct e as [req summary dominant now | p w | h]; cbn [Server.step].
  - unfold arrive.
    destruct (Cache.getCache (cacheKey req) now (cache s)) as [cached cache'].
    destruct (hit cached) as [body |]; cbn.
    + rewrite lookup_insert_ne; [done |]. intros <-. congruence.
    + by destruct (pendingRequests s !! cacheKey req).
  - unfold settle.
    destruct (promises s !! p) as [[req summary dominant | |] |]; try done.
    by destruct (Pipeline.requestPromise _ _ _ _ _ _ _ _ _ _) as [outcome st].
  - unfold resume.
    destruct (awaiting s !! h) as [[key p] |] eqn:Hh; [| done].
    assert (h ≠ handler) as Hne.
    { intros ->. rewrite (Hun handler) in Hr; [done | by eexists]. }
    destruct (promises s !! p) as [[| |] |]; try done; cbn;
      by rewrite lookup_insert_ne.
Qed.

Lemma unanswered_run events s :
  wf s → unanswered s → unanswered (run events s).
Proof.
  revert s. induction events as [| e events IH]; intros s Hwf Hun; [done |].
  cbn. apply IH; [by apply wf_step | by apply unanswered_step].
Qed.

Lemma replied_run events s handler r :
  wf s → unanswered s →
  replies s !! handler = Some r → replies (run events s) !! handler = Some r.
Proof.
  revert s. induction events as [| e events IH]; intros s Hwf Hun Hr; [done |].
  cbn. apply IH; [by apply wf_step | by apply unanswered_step |].
  by apply replied_step.
Qed.

(** X15: in every state the server can reach, a handler that has written
    a reply has ended, and nothing that happens afterwards changes its
    reply or makes it write again. *)
Theorem reply_is_final (before later : list event) (handler : nat) (r : reply) :
  let s := run before init in
  replies s !! handler = Some r →
  (handler < arrivals s)%nat
  ∧ awaiting s !! handler = None
  ∧ replies (run later s) !! handler = Some r
  ∧ awaiting (run later s) !! handler = None.
Proof.
  intros s Hr.
  assert (wf s) as Hwf by apply wf_run, wf_init.
  assert (unanswered s) as Hun.
  { apply unanswered_run; [apply wf_init |]. intros h [x Hx]. cbn in Hx.
    by rewrite lookup_empty in Hx. }
  assert (∀ s', wf s' → unanswered s' → replies s' !! handler = Some r →
                awaiting s' !! handler = None) as Hdone.
  { intros s' _ Hun' Hr'. destruct (awaiting s' !! handler) eqn:Hw; [| done].
    rewrite (Hun' handler) in Hr'; [done | by eexists]. }
  split_and!.
  - destruct (Nat.lt_ge_cases handler (arrivals s)) as [| Hge]; [done |].
    destruct (Hwf handler Hge). congruence.
  - by apply Hdone.
  - by apply replied_run.
  - apply Hdone; [by apply wf_run | by apply unanswered_run | by apply replied_run].
Qed.

End ReplyFacts.

Section LoneRequest.
Import Pipeline Server.
Variable JSON_parse : string → completion value.
Variable String_of : value → string.
Variable encodeURIComponent : string → string.
Variable mentorPrompt : string → value → string → string → string.
Variable rankingPrompt : string → string → list value → string.

Local Abbreviation run :=
  (Server.run JSON_parse String_of encodeURIComponent mentorPrompt rankingPrompt).
Local Abbreviation requestPromise :=
  (Pipeline.requestPromise JSON_parse String_of encodeURIComponent mentorPrompt
     rankingPrompt).

(** A request that misses the cache and finds nothing pending, its
    computation, and the rest of its handler. *)
Lemma lone_request_run req summary dominantTopics now w s :
  hit (fst (Cache.getCache (cacheKey req) now (cache s))) = None →
  pendingRequests s !! cacheKey req = None →
  let key := cacheKey req in
  let handler := arrivals s in
  let p := length (promises s) in
  let outcome :=
    requestPromise w req summary dominantTopics
      {| responseCache := snd (Cache.getCache key now (cache s)); log := [] |} in
  run [Arrive req summary dominantTopics now; Settle p w; Resume handler] s
  = {| cache := responseCache (snd outcome);
       pendingRequests :=
         match fst outcome with
         | Normal _ => delete key (<[key := p]> (pendingRequests s))
         | Throw _ => <[key := p]> (pendingRequests s)
         end;
       promises :=
         <[p := match fst outcome with
                | Normal result => Fulfilled result
                | Throw err => Rejected err
                end]>
           (promises s ++ [Pending req summary dominantTopics])%list;
       awaiting := delete handler (<[handler := (key, p)]> (awaiting s));
       replies :=
         <[handler := match fst outcome with
                      | Normal result => Json result
                      | Throw _ => InternalServerError
                      end]> (replies s);
       arrivals := S handler |}.
Proof.
  intros Hmiss Hnone key handler p outcome. subst outcome key handler p.
  unfold Server.run. cbn [foldl Server.step]. unfold arrive.
  destruct (Cache.getCache (cacheKey req) now (cache s)) as [cached cache']
    eqn:Hcache.
  cbn [fst snd] in *. rewrite Hmiss. cbn. rewrite Hnone.
  unfold settle. cbn. rewrite list_lookup_middle by done.
  destruct (Pipeline.requestPromise _ _ _ _ _ _ _ _ _ _) as [outcome st].
  unfold resume. cbn. rewrite lookup_insert_eq.
  rewrite list_lookup_insert_eq by (rewrite length_app; cbn; lia).
  by destruct outcome.
Qed.

(** X16: a request that misses the cache while nothing is pending for
    its key starts one computation and waits for it.  When the
    computation returns a result, the handler replies with it and removes
    the entry of the key from [pendingRequests]; when it throws, the
    handler replies 500 and the entry stays.  Either way the cache is what
    the computation left. *)
Theorem lone_request_outcome (req : request) (summary : string)
    (dominantTopics : list string) (now : Z) (w : world) (s : server) :
  let key := cacheKey req in
  let handler := arrivals s in
  let p := length (promises s) in
  hit (fst (Cache.getCache key now (cache s))) = None →
  pendingRequests s !! key = None →
  let outcome :=
    requestPromise w req summary dominantTopics
      {| responseCache := snd (Cache.getCache key now (cache s)); log := [] |} in
  let s' :=
    run [Arrive req summary dominantTopics now; Settle p w; Resume handler] s in
  computations s' = S (computations s)
  ∧ cache s' = responseCache (snd outcome)
  ∧ awaiting s' !! handler = None
  ∧ match fst outcome with
    | Normal result =>
        replies s' !! handler = Some (Json result)
        ∧ pendingRequests s' !! key = None
    | Throw _ =>
        replies s' !! handler = Some InternalServerError
        ∧ pendingRequests s' !! key = Some p
    end.
Proof.
  intros key handler p Hmiss Hnone outcome s'. subst s' outcome p handler key.
  rewrite (lone_request_run req summary dominantTopics now w s Hmiss Hnone).
  cbv zeta. unfold computations.
  cbn [Server.cache Server.pendingRequests Server.promises Server.awaiting
       Server.replies Server.arrivals].
  split_and!.
  - rewrite length_insert, length_app. cbn. lia.
  - done.
  - apply lookup_delete_eq.
  - destruct (fst (Pipeline.requestPromise _ _ _ _ _ _ _ _ _ _));
      rewrite lookup_insert_eq;
      [by rewrite lookup_delete_eq | by rewrite lookup_insert_eq].
Qed.

Lemma normalized_truthy ai result :
  normalized String_of ai = Normal result → Value.truthy result = true.
Proof.
  unfold normalized, andThen.
  destruct (Value.get ai "similar_problems"); [| done].
  destruct (spread _); [| done].
  destruct (Value.get ai "hints"); [| done].
  destruct (join _ _ _); [| done].
  destruct (Value.get ai "solution_outline"); [| done].
  by intros [= <-].
Qed.

(** A request that finds a fresh result in the cache. *)
Lemma arrive_hit req summary dominantTopics now s entry :
  cache s !! cacheKey req = Some entry →
  now - Cache.timestamp entry ≤ Cache.CACHE_TTL →
  Value.truthy (Cache.data entry) = true →
  arrive req summary dominantTopics now s
  = {| cache := cache s;
       pendingRequests := pendingRequests s;
       promises := promises s;
       awaiting := awaiting s;
       replies := <[arrivals s := Json (Cache.data entry)]> (replies s);
       arrivals := S (arrivals s) |}.
Proof.
  intros Hentry Hfresh Htruthy. unfold arrive, Cache.getCache. rewrite Hentry.
  destruct (Z.ltb_spec Cache.CACHE_TTL (now - Cache.timestamp entry)); [lia |].
  cbn [hit]. by rewrite Htruthy.
Qed.

(** X17: the result of a [LeetCode] computation is served again.  Once
    the computation of a request has ended, with a generated answer or
    with the fallback, another request with the same platform, activity
    type and topic that arrives within [CACHE_TTL] gets the same body
    from the cache, with no new computation: and that whatever the user,
    the difficulty, the description and the profile of the second
    request. *)
Theorem practice_result_reused (req req' : request) (summary summary' : string)
    (dominantTopics dominantTopics' : list string) (t d : string)
    (candidates : list value) (arrival later : Z) (w : world) (s : server) :
  platform req = Some "LeetCode" →
  topic req = Some t → t ≠ "" →
  description req = Some d → d ≠ "" →
  leetcode w t = Normal candidates →
  hit (fst (Cache.getCache (cacheKey req) arrival (cache s))) = None →
  pendingRequests s !! cacheKey req = None →
  platform req' = platform req →
  activity_type req' = activity_type req →
  topic req' = topic req →
  later - now w ≤ Cache.CACHE_TTL →
  let s' :=
    run [Arrive req summary dominantTopics arrival;
         Settle (length (promises s)) w;
         Resume (arrivals s);
         Arrive req' summary' dominantTopics' later] s in
  ∃ body,
    replies s' !! arrivals s = Some (Json body)
    ∧ replies s' !! S (arrivals s) = Some (Json body)
    ∧ computations s' = S (computations s)
    ∧ pendingRequests s' !! cacheKey req = None.
Proof.
  intros Hplat Ht Htne Hd Hdne Hfetch Hmiss Hnone Hp' Ha' Ht' Hfresh s'.
  assert (cacheKey req' = cacheKey req) as Hkey
    by (unfold cacheKey; by rewrite Hp', Ha', Ht').
  subst s'.
  change (run [Arrive req summary dominantTopics arrival;
               Settle (length (promises s)) w; Resume (arrivals s);
               Arrive req' summary' dominantTopics' later] s)
    with (run [Arrive req' summary' dominantTopics' later]
            (run [Arrive req summary dominantTopics arrival;
                  Settle (length (promises s)) w; Resume (arrivals s)] s)).
  rewrite (lone_request_run req summary dominantTopics arrival w s Hmiss Hnone).
  cbv zeta.
  set (s0 := {| responseCache := snd (Cache.getCache (cacheKey req) arrival (cache s));
                log := [] |}).
  rewrite (requestPromise_LeetCode JSON_parse String_of encodeURIComponent
             mentorPrompt rankingPrompt w req summary dominantTopics Hplat).
  rewrite (leetCode_run JSON_parse String_of mentorPrompt w req (cacheKey req)
             summary t d candidates s0 Ht Htne Hd Hdne Hfetch).
  assert (∃ body s1,
    match Pipeline.mentor JSON_parse String_of mentorPrompt w t (difficulty req)
            d candidates summary (afterFetch t s0) with
    | (Normal normalized, s') =>
        (Normal normalized,
         {| responseCache :=
              Cache.setCache (cacheKey req) normalized (now w)
                (responseCache s');
            log := log s' |})
    | (Throw _, s') =>
        (Normal (recommendations (take 5 candidates)),
         {| responseCache :=
              Cache.setCache (cacheKey req)
                (recommendations (take 5 candidates)) (now w)
                (responseCache s');
            log := log s' |})
    end
    = (Normal body,
       {| responseCache :=
            Cache.setCache (cacheKey req) body (now w)
              (responseCache s1);
          log := log s1 |})
    ∧ Value.truthy body = true) as (body & s1 & -> & Htruthy).
  { destruct (Pipeline.mentor _ _ _ _ _ _ _ _ _ _) as [[result | e] s1] eqn:Hm.
    - exists result, s1. split; [done |].
      unfold Pipeline.mentor, bindM in Hm.
      destruct (rankAndGenerate _ _ _ _ _ _ _ _ _) as [[ai | e] s2]; [| done].
      unfold lift in Hm. injection Hm as Hm _. by eapply normalized_truthy.
    - by exists (recommendations (take 5 candidates)), s1. }
  exists body. unfold Server.run. cbn [foldl Server.step fst snd].
  rewrite (arrive_hit req' summary' dominantTopics' later _
             {| Cache.data := body; Cache.timestamp := now w |});
    [| cbn [Server.cache responseCache]; rewrite Hkey; apply lookup_insert_eq
     | done | done].
  unfold computations.
  cbn [Server.cache Server.pendingRequests Server.promises Server.awaiting
       Server.replies Server.arrivals Cache.data].
  split_and!.
  - rewrite lookup_insert_ne by lia. apply lookup_insert_eq.
  - apply lookup_insert_eq.
  - rewrite length_insert, length_app. cbn. lia.
  - apply lookup_delete_eq.
Qed.

End LoneRequest.

(** ** Cache keys *)

Section KeyFacts.
Import JsString Pipeline.

Lemma hyphen_split a b a' b' :
  a ++ "-" ++ b = a' ++ "-" ++ b' →
  includes a "-" = false → includes a' "-" = false →
  a = a' ∧ b = b'.
Proof.
  revert a'. induction a as [| c a IH]; intros [| c' a'] Heq Ha Ha'.
  - change (String "-" b = String "-" b') in Heq. by injection Heq as ->.
  - change (String "-" b = String c' (a' ++ "-" ++ b')) in Heq.
    injection Heq as <- _. rewrite includes_char in Ha'. done.
  - change (String c (a ++ "-" ++ b) = String "-" b') in Heq.
    injection Heq as -> _. rewrite includes_char in Ha. done.
  - change (String c (a ++ "-" ++ b) = String c' (a' ++ "-" ++ b')) in Heq.
    injection Heq as -> Heq. rewrite includes_char in Ha, Ha'.
    apply orb_false_iff in Ha as [_ Ha]. apply orb_false_iff in Ha' as [_ Ha'].
    destruct (IH a' Heq Ha Ha') as [-> ->]. done.
Qed.

(** X19: the cache key depends on the platform, the activity type and
    the topic alone.  Requests with keys that are equal agree on all
    three, as printed, provided neither platform nor activity type holds
    a hyphen.  A missing topic and the topic ["undefined"] give the same
    key. *)
Theorem cacheKey_unambiguous (r1 r2 : request) :
  (platform r1 = platform r2 → activity_type r1 = activity_type r2 →
   topic r1 = topic r2 → cacheKey r1 = cacheKey r2)
  ∧ (includes (show (platform r1)) "-" = false →
     includes (show (activity_type r1)) "-" = false →
     includes (show (platform r2)) "-" = false →
     includes (show (activity_type r2)) "-" = false →
     cacheKey r1 = cacheKey r2 →
     show (platform r1) = show (platform r2)
     ∧ show (activity_type r1) = show (activity_type r2)
     ∧ show (topic r1) = show (topic r2))
  ∧ (topic r1 = None → topic r2 = Some "undefined" →
     platform r1 = platform r2 → activity_type r1 = activity_type r2 →
     cacheKey r1 = cacheKey r2).
Proof.
  split_and!.
  - intros Hp Ha Ht. unfold cacheKey. by rewrite Hp, Ha, Ht.
  - intros Hp1 Ha1 Hp2 Ha2 Hkey. unfold cacheKey in Hkey.
    apply hyphen_split in Hkey as [Hp Hkey]; [| done | done].
    apply hyphen_split in Hkey as [Ha Ht]; [| done | done].
    done.
  - intros Ht1 Ht2 Hp Ha. unfold cacheKey. by rewrite Hp, Ha, Ht1, Ht2.
Qed.

End KeyFacts.

(** ** Scores *)

Section ScoringFacts.
Import JsString Scoring.

Lemma forEach_bonus_bounds title bonus terms score :
  0 ≤ bonus →
  score ≤ forEach_bonus title bonus terms score
        ≤ score + bonus * Z.of_nat (length terms).
Proof.
  intros Hb. revert score. induction terms as [| t terms IH]; intros score.
  - cbn. lia.
  - cbn [forEach_bonus length].
    destruct (includes title t);
      [specialize (IH (score + bonus)) | specialize (IH score)]; lia.
Qed.

Lemma forEach_bonus_shift title bonus terms score :
  forEach_bonus title bonus terms score
  = score + forEach_bonus title bonus terms 0.
Proof.
  revert score. induction terms as [| t terms IH]; intros score; cbn; [lia |].
  destruct (includes title t); [| apply IH].
  rewrite (IH (score + bonus)), (IH (0 + bonus)). lia.
Qed.

Lemma forEach_bonus_app title bonus terms more score :
  forEach_bonus title bonus (terms ++ more) score
  = forEach_bonus title bonus more (forEach_bonus title bonus terms score).
Proof.
  revert score. induction terms as [| t terms IH]; intros score; [done |].
  cbn. apply IH.
Qed.

Lemma skillBonus_bounds title score :
  score ≤ skillBonus title score ≤ score + 6.
Proof.
  unfold skillBonus.
  destruct (includes title "beginner"), (includes title "intermediate"),
    (includes title "advanced"); lia.
Qed.

Lemma skillBonus_mono title a b : a ≤ b → skillBonus title a ≤ skillBonus title b.
Proof.
  unfold skillBonus.
  destruct (includes title "beginner"), (includes title "intermediate"),
    (includes title "advanced"); lia.
Qed.

Lemma directBonus_bounds title baseTopic :
  0 ≤ directBonus title baseTopic 0 ≤ 5.
Proof. unfold directBonus. destruct (includes title baseTopic); lia. Qed.

(** A title that includes the topic scores 5 at least. *)
Lemma scoreCourse_direct courseTitle topic dominantTopics score :
  scoreCourse courseTitle topic dominantTopics = Normal score →
  includes (toLowerCase courseTitle) (toLowerCase topic) = true →
  5 ≤ score.
Proof.
  unfold scoreCourse. cbv zeta.
  destruct (Scoring.related (toLowerCase topic)) as [related | e]; [| done].
  intros [= <-] Hincl.
  set (title := toLowerCase courseTitle). set (baseTopic := toLowerCase topic).
  pose proof (forEach_bonus_bounds title 3 related
                (directBonus title baseTopic 0) ltac:(lia)) as Hrelated.
  pose proof (forEach_bonus_bounds title 2 dominantTopics
                (forEach_bonus title 3 related (directBonus title baseTopic 0))
                ltac:(lia)) as Hdominant.
  pose proof (skillBonus_bounds title
                (forEach_bonus title 2 dominantTopics
                   (forEach_bonus title 3 related
                      (directBonus title baseTopic 0)))) as Hskill.
  unfold directBonus in *. fold title baseTopic in Hincl. rewrite Hincl in *. lia.
Qed.

(** X20: the score of a course, for a title and a topic of ASCII
    characters.  The scorer throws when the lower-cased topic names an
    inherited member, which is when it is ["constructor"] or
    ["__proto__"].  For every other topic the score is between 0 and 26
    plus 2 for each dominant topic; a title that includes the topic scores
    5 at least; the case of title and topic is irrelevant to the score,
    and more dominant topics never lower it. *)
Theorem scoreCourse_bounds (courseTitle topic : string)
    (dominantTopics : list string) :
  isAscii courseTitle = true → isAscii topic = true →
  (Prototype.inherited (toLowerCase topic) = true
   ↔ toLowerCase topic = "constructor" ∨ toLowerCase topic = "__proto__")
  ∧ (Prototype.inherited (toLowerCase topic) = true →
     scoreCourse courseTitle topic dominantTopics
     = Throw (TypeError "related.forEach is not a function"))
  ∧ (Prototype.inherited (toLowerCase topic) = false →
     ∃ score : Z,
       scoreCourse courseTitle topic dominantTopics = Normal score
       ∧ 0 ≤ score ≤ 26 + 2 * Z.of_nat (length dominantTopics)
       ∧ (includes (toLowerCase courseTitle) (toLowerCase topic) = true →
          5 ≤ score)
       ∧ scoreCourse (toLowerCase courseTitle) topic dominantTopics
         = Normal score
       ∧ scoreCourse courseTitle (toLowerCase topic) dominantTopics
         = Normal score
       ∧ (∀ more, ∃ score',
            scoreCourse courseTitle topic (dominantTopics ++ more)
            = Normal score'
            ∧ score ≤ score')).
Proof.
  intros _ _. split_and!.
  - apply inherited_lower, toLowerCase_idem.
  - apply scoreCourse_Throw.
  - intros Hin. destruct (related_Normal _ Hin) as (related & Hrel & Hfive).
    pose proof (λ title dominant,
      scoreCourse_related title topic dominant related Hrel) as Hscore.
    eexists. split; [apply Hscore |]. cbv zeta.
    set (title := toLowerCase courseTitle). set (baseTopic := toLowerCase topic).
    pose proof (directBonus_bounds title baseTopic) as Hdirect.
    pose proof (forEach_bonus_bounds title 3 related
                  (directBonus title baseTopic 0) ltac:(lia)) as Hrelated.
    pose proof (forEach_bonus_bounds title 2 dominantTopics
                  (forEach_bonus title 3 related (directBonus title baseTopic 0))
                  ltac:(lia)) as Hdominant.
    pose proof (skillBonus_bounds title
                  (forEach_bonus title 2 dominantTopics
                     (forEach_bonus title 3 related
                        (directBonus title baseTopic 0)))) as Hskill.
    split_and!; try lia.
    + intros Hincl. unfold directBonus in *. rewrite Hincl in *. lia.
    + subst title. rewrite Hscore. cbv zeta. by rewrite toLowerCase_idem.
    + subst baseTopic.
      rewrite (scoreCourse_related _ _ _ related)
        by (by rewrite toLowerCase_idem).
      cbv zeta. by rewrite toLowerCase_idem.
    + intros more. eexists. split; [apply Hscore |]. cbv zeta. fold title baseTopic.
      rewrite forEach_bonus_app. apply skillBonus_mono.
      apply forEach_bonus_bounds. lia.
Qed.

End ScoringFacts.

Section BestOfSix.
Import JsString Pipeline.
Variable JSON_parse : string → completion value.
Variable String_of : value → string.
Variable encodeURIComponent : string → string.
Variable mentorPrompt : string → value → string → string → string.
Variable rankingPrompt : string → string → list value → string.
Variable w : world.

Local Abbreviation requestPromise :=
  (Pipeline.requestPromise JSON_parse String_of encodeURIComponent mentorPrompt
     rankingPrompt w).

Lemma toLowerCase_app a b : toLowerCase (a ++ b) = toLowerCase a ++ toLowerCase b.
Proof.
  induction a as [| c a IH]; [done |].
  change (String c a ++ b) with (String c (a ++ b)).
  cbn [toLowerCase]. rewrite IH. reflexivity.
Qed.

(** A title made around a topic includes it, whatever the case. *)
Lemma title_includes_topic a t b :
  includes (toLowerCase (a ++ t ++ b)) (toLowerCase t) = true.
Proof. rewrite !toLowerCase_app. apply includes_app. Qed.

Lemma append_nil_r s : s ++ "" = s.
Proof.
  induction s as [| c s IH]; [done |].
  change (String c s ++ "") with (String c (s ++ "")). by rewrite IH.
Qed.

(** The best five of six scored titles. *)
Lemma rank_best (score : string → Z) titles :
  length titles = 6%nat →
  let ranked :=
    take 5 (sortByScore (map (λ title, (title, score title)) titles)) in
  ∃ dropped,
    ranked ++ [dropped] ≡ₚ map (λ title, (title, score title)) titles
    ∧ ∀ c, c ∈ ranked → snd dropped ≤ snd c.
Proof.
  intros Hsix ranked. subst ranked.
  set (scored := map (λ title, (title, score title)) titles).
  pose proof (sortByScore_sorted scored) as Hsorted.
  pose proof (sortByScore_perm scored) as Hperm.
  pose proof (sortByScore_length scored) as Hlen.
  unfold scored in Hlen at 2. rewrite length_map, Hsix in Hlen.
  rewrite <- (take_drop 5 (sortByScore scored)) in Hsorted, Hperm.
  destruct (drop 5 (sortByScore scored)) as [| dropped [| more rest]] eqn:Hdrop.
  - apply (f_equal length) in Hdrop. rewrite length_drop, Hlen in Hdrop. done.
  - exists dropped. split; [exact Hperm |]. intros c Hc.
    apply (StronglySorted_across _ _ _ Hsorted c dropped Hc). by left.
  - apply (f_equal length) in Hdrop. rewrite length_drop, Hlen in Hdrop. done.
Qed.

(** X21: a [Coursera] or [Udemy] request with a topic of ASCII characters
    whose lower-cased form names no inherited member scores the six
    titles templated for the platform, each of which includes the topic
    and so scores 5 at least; the answer lists the titles of five of them,
    and the one left out scores no more than any of these. *)
Theorem catalogue_keeps_the_best (req : request) (summary : string)
    (dominantTopics : list string) (t : string) (s : state) :
  platform req = Some "Coursera" ∨ platform req = Some "Udemy" →
  topic req = Some t → t ≠ "" → isAscii t = true →
  Prototype.inherited (toLowerCase t) = false →
  let titles :=
    if equals (platform req) "Coursera" then
      [ t ++ " Foundations"; "Advanced " ++ t; t ++ " for Beginners";
        t ++ " Specialization"; "Practical " ++ t ++ " Projects";
        "AI Applications in " ++ t ]
    else
      [ t ++ " Bootcamp"; "Complete " ++ t ++ " Masterclass";
        t ++ " Zero to Hero"; t ++ " Interview Preparation";
        "Hands-On " ++ t ++ " Projects"; t ++ " for Professionals" ] in
  ∃ (score : string → Z) (items : list value) (kept : list (string * Z))
    (dropped : string * Z),
    (∀ title, Scoring.scoreCourse title t dominantTopics = Normal (score title))
    ∧ fst (requestPromise req summary dominantTopics s)
      = Normal (VObject [("recommendations", VArray items)])
    ∧ map (Value.member "title") items = map (λ c, VString (fst c)) kept
    ∧ (∀ title, title ∈ titles →
         includes (toLowerCase title) (toLowerCase t) = true)
    ∧ kept ++ [dropped] ≡ₚ map (λ title, (title, score title)) titles
    ∧ (∀ c, c ∈ kept → snd dropped ≤ snd c ∧ 5 ≤ snd c).
Proof.
  intros Hplat Ht Htne Hascii Hin titles.
  destruct (scores_exist t dominantTopics Hin) as (score & Hscore & Hrank).
  assert (∀ title, includes (toLowerCase title) (toLowerCase t) = true →
                   5 ≤ score title) as Hfive.
  { intros title Hincl.
    by apply (scoreCourse_direct title t dominantTopics _ (Hscore title)). }
  assert (∀ a b, includes (toLowerCase (a ++ t ++ b)) (toLowerCase t) = true)
    as Hmid by (intros; apply title_includes_topic).
  assert (∀ a, includes (toLowerCase (a ++ t)) (toLowerCase t) = true) as Hend.
  { intros a. specialize (Hmid a ""). by rewrite append_nil_r in Hmid. }
  assert (∀ b, includes (toLowerCase (t ++ b)) (toLowerCase t) = true) as Hstart
    by (intros b; apply (Hmid "" b)).
  assert (∀ title, title ∈ titles →
            includes (toLowerCase title) (toLowerCase t) = true) as Hincl.
  { intros title Htitle. subst titles.
    destruct (equals (platform req) "Coursera");
      repeat (apply elem_of_cons in Htitle as [-> | Htitle]; [done |]);
      by apply elem_of_nil in Htitle. }
  assert (length titles = 6%nat) as Hsix
    by (subst titles; by destruct (equals (platform req) "Coursera")).
  destruct (rank_best score titles Hsix) as (dropped & Hperm & Hlow).
  set (kept := take 5 (sortByScore (map (λ title, (title, score title)) titles)))
    in *.
  assert (∀ c, c ∈ kept → snd dropped ≤ snd c ∧ 5 ≤ snd c) as Hkept.
  { intros c Hc. split; [by apply Hlow |].
    assert (c ∈ map (λ title, (title, score title)) titles) as Hc'.
    { rewrite <- Hperm. apply elem_of_app. by left. }
    apply list_elem_of_In, in_map_iff in Hc' as (title & <- & Htitle).
    apply list_elem_of_In in Htitle. cbn [snd]. by apply Hfive, Hincl. }
  destruct Hplat as [Hplat | Hplat].
  - exists score, (map (courseraEntry encodeURIComponent t) kept), kept, dropped.
    split_and!; try done.
    + rewrite (requestPromise_Coursera _ _ _ _ _ _ _ _ _ Hplat),
        (coursera_run _ _ _ t _ Ht Htne), Hrank.
      subst kept titles. by rewrite Hplat.
    + rewrite map_map. reflexivity.
  - exists score, (map (udemyEntry encodeURIComponent t) kept), kept, dropped.
    split_and!; try done.
    + rewrite (requestPromise_Udemy _ _ _ _ _ _ _ _ _ Hplat),
        (udemy_run _ _ _ t _ Ht Htne), Hrank.
      subst kept titles. by rewrite Hplat.
    + rewrite map_map. reflexivity.
Qed.

End BestOfSix.

(** ** What the providers' answers are turned into *)

Section ProviderFacts.
Import Pipeline Providers Server.
Variable JSON_parse : string → completion value.
Variable String_of : value → string.
Variable encodeURIComponent : string → string.
Variable mentorPrompt : string → value → string → string → string.
Variable rankingPrompt : string → string → list value → string.

Local Abbreviation run :=
  (Server.run JSON_parse String_of encodeURIComponent mentorPrompt rankingPrompt).
Local Abbreviation requestPromise :=
  (Pipeline.requestPromise JSON_parse String_of encodeURIComponent mentorPrompt
     rankingPrompt).

Lemma mapC_Normal {A B} (f : A → completion B) xs ys :
  mapC f xs = Normal ys →
  length ys = length xs
  ∧ ∀ i x, xs !! i = Some x → ∃ y, ys !! i = Some y ∧ f x = Normal y.
Proof.
  revert ys. induction xs as [| x xs IH]; intros ys.
  - intros [= <-]. by split.
  - cbn [mapC]. unfold andThen.
    destruct (f x) as [y | e] eqn:Hx; [| done].
    destruct (mapC f xs) as [ys' | e]; [| done].
    intros [= <-]. destruct (IH ys' eq_refl) as [Hlen Hall].
    split; [cbn; by rewrite Hlen |].
    intros [| i] x'; cbn; [intros [= <-]; by exists y | apply Hall].
Qed.

Lemma mapC_Throw {A B} (f : A → completion B) xs e :
  mapC f xs = Throw e → ∃ x, x ∈ xs ∧ f x = Throw e.
Proof.
  induction xs as [| x xs IH]; [done |]. cbn [mapC]. unfold andThen.
  destruct (f x) as [y | e'] eqn:Hx.
  - destruct (mapC f xs) as [ys' | e'']; [done |].
    intros [= <-]. destruct (IH eq_refl) as (x' & Hin & Hx').
    exists x'. split; [by right | done].
  - intros [= <-]. exists x. split; [by left | done].
Qed.

Lemma get_Throw v name e : Value.get v name = Throw e → isTypeError e.
Proof.
  unfold Value.get. destruct (Value.nullish v); [| done].
  intros [= <-]. by eexists.
Qed.

Lemma video_Throw item e : video String_of item = Throw e → isTypeError e.
Proof.
  unfold video, andThen.
  repeat match goal with
  | |- context [Value.get ?v ?name] =>
      let H := fresh "H" in
      destruct (Value.get v name) eqn:H; [| intros [= <-]; by eapply get_Throw]
  end.
  done.
Qed.

Lemma candidate_Throw q e : candidate String_of q = Throw e → isTypeError e.
Proof.
  unfold candidate, andThen.
  repeat match goal with
  | |- context [Value.get ?v ?name] =>
      let H := fresh "H" in
      destruct (Value.get v name) eqn:H; [| intros [= <-]; by eapply get_Throw]
  end.
  done.
Qed.

Lemma get_Normal v name x :
  Value.get v name = Normal x → Value.nullish v = false ∧ x = Value.member name v.
Proof. unfold Value.get. destruct (Value.nullish v); [done |]. by intros [= <-]. Qed.

Lemma youTubeResults_cases data :
  match youTubeResults String_of data with
  | Throw e => isTypeError e
  | Normal results =>
      Value.nullish data = false
      ∧ ((Value.truthy (Value.member "items" data) = false ∧ results = [])
         ∨ ∃ items,
             Value.member "items" data = VArray items
             ∧ length results = length items
             ∧ ∀ i item, items !! i = Some item →
                 results !! i
                 = Some (VObject
                     [("title",
                       Value.member "title" (Value.member "snippet" item));
                      ("description",
                       Value.member "description" (Value.member "snippet" item));
                      ("url",
                       VString ("https://www.youtube.com/watch?v="
                         ++ template String_of
                              (Value.member "videoId"
                                 (Value.member "id" item))))]))
  end.
Proof.
  unfold youTubeResults, andThen.
  destruct (Value.get data "items") as [items | e] eqn:Hitems;
    [| by eapply get_Throw].
  apply get_Normal in Hitems as [Hdata ->].
  destruct (Value.truthy (Value.member "items" data)) eqn:Htruthy; cbn [negb];
    [| split; [done | by left]].
  destruct (Value.member "items" data) as [| | | | | items |] eqn:Hmember;
    try by eexists.
  destruct (mapC (video String_of) items) as [results | e] eqn:Hmap.
  - split; [done |]. right. exists items.
    apply mapC_Normal in Hmap as [Hlen Hall]. split_and!; [done | done |].
    intros i item Hi. destruct (Hall i item Hi) as (y & -> & Hy).
    unfold video, andThen in Hy.
    repeat match type of Hy with
    | context [Value.get ?v ?name] =>
        let H := fresh "H" in
        destruct (Value.get v name) eqn:H; [| done];
        apply get_Normal in H as [_ ->]
    end.
    by injection Hy as <-.
  - apply mapC_Throw in Hmap as (item & _ & Hitem). by eapply video_Throw.
Qed.

Lemma leetCodeCandidates_cases data :
  match leetCodeCandidates String_of data with
  | Throw e => isTypeError e
  | Normal candidates =>
      ∃ questions,
        Value.member "questions"
          (Value.member "problemsetQuestionList" (Value.member "data" data))
        = VArray questions
        ∧ length candidates = length questions
        ∧ ∀ i q, questions !! i = Some q →
            candidates !! i
            = Some (VObject
                [("title", Value.member "title" q);
                 ("difficulty", Value.member "difficulty" q);
                 ("acRate", Value.member "acRate" q);
                 ("description",
                  VString ("Difficulty: "
                    ++ template String_of (Value.member "difficulty" q)
                    ++ ", Acceptance Rate: "
                    ++ template String_of (Value.member "acRate" q)));
                 ("url",
                  VString ("https://leetcode.com/problems/"
                    ++ template String_of (Value.member "titleSlug" q)))])
  end.
Proof.
  unfold leetCodeCandidates, andThen.
  destruct (Value.get data "data") as [inner | e] eqn:Hdata;
    [| by eapply get_Throw].
  apply get_Normal in Hdata as [_ ->].
  destruct (Value.get _ "problemsetQuestionList") as [list | e] eqn:Hlist;
    [| by eapply get_Throw].
  apply get_Normal in Hlist as [_ ->].
  destruct (Value.get _ "questions") as [questions | e] eqn:Hquestions;
    [| by eapply get_Throw].
  apply get_Normal in Hquestions as [_ ->].
  destruct (Value.member "questions" _) as [| | | | | questions |] eqn:Hmember;
    try by eexists.
  destruct (mapC (candidate String_of) questions) as [candidates | e] eqn:Hmap.
  - exists questions. apply mapC_Normal in Hmap as [Hlen Hall].
    split_and!; [done | done |].
    intros i q Hi. destruct (Hall i q Hi) as (y & -> & Hy).
    unfold candidate, andThen in Hy.
    repeat match type of Hy with
    | context [Value.get ?v ?name] =>
        let H := fresh "H" in
        destruct (Value.get v name) eqn:H; [| done];
        apply get_Normal in H as [_ ->]
    end.
    by injection Hy as <-.
  - apply mapC_Throw in Hmap as (q & _ & Hq). by eapply candidate_Throw.
Qed.

(** X22: what [fetchYouTubeResults] makes of the provider's answer: a
    [TypeError], or one video for each item, in the order of the items,
    with the title and the description of its snippet and the watch link
    of its id; and no video at all when the answer has no items, as an
    error answer has.  A request whose provider answers so is answered
    with an empty list: nothing is generated, nothing cached, and the
    pending entry is removed. *)
Theorem video_provider_answer (data : value) :
  match youTubeResults String_of data with
  | Throw e => isTypeError e
  | Normal results =>
      Value.nullish data = false
      ∧ ((Value.truthy (Value.member "items" data) = false ∧ results = [])
         ∨ ∃ items,
             Value.member "items" data = VArray items
             ∧ length results = length items
             ∧ ∀ i item, items !! i = Some item →
                 results !! i
                 = Some (VObject
                     [("title",
                       Value.member "title" (Value.member "snippet" item));
                      ("description",
                       Value.member "description" (Value.member "snippet" item));
                      ("url",
                       VString ("https://www.youtube.com/watch?v="
                         ++ template String_of
                              (Value.member "videoId"
                                 (Value.member "id" item))))]))
  end
  ∧ (Value.nullish data = false →
     Value.truthy (Value.member "items" data) = false →
     youTubeResults String_of data = Normal []
     ∧ ∀ w req summary dominantTopics t arrival s,
         platform req = Some "YouTube" →
         topic req = Some t → t ≠ "" →
         youtube w t = youTubeResults String_of data →
         hit (fst (Cache.getCache (cacheKey req) arrival (cache s))) = None →
         pendingRequests s !! cacheKey req = None →
         let s' :=
           run [Arrive req summary dominantTopics arrival;
                Settle (length (promises s)) w; Resume (arrivals s)] s in
         replies s' !! arrivals s = Some (Json (VObject [("recommendations", VArray [])]))
         ∧ cache s' = snd (Cache.getCache (cacheKey req) arrival (cache s))
         ∧ pendingRequests s' !! cacheKey req = None).
Proof.
  split; [apply youTubeResults_cases |].
  intros Hdata Hitems.
  assert (youTubeResults String_of data = Normal []) as Hnone.
  { unfold youTubeResults, andThen, Value.get. by rewrite Hdata, Hitems. }
  split; [exact Hnone |].
  intros w req summary dominantTopics t arrival s Hplat Ht Htne Hfetch Hmiss
    Hpending s'. subst s'.
  rewrite (lone_request_run JSON_parse String_of encodeURIComponent mentorPrompt
             rankingPrompt req summary dominantTopics arrival w s Hmiss Hpending).
  cbv zeta. rewrite Hnone in Hfetch.
  assert (∀ s0, requestPromise w req summary dominantTopics s0
                = (Normal (recommendations []),
                   {| responseCache := responseCache s0;
                      log := log s0 ++ [YouTubeQuery t] |})) as Hrun.
  { intros s0. unfold Pipeline.requestPromise. rewrite Hplat.
    cbn [equals String.eqb Ascii.eqb Bool.eqb]. unfold youTube.
    rewrite (missing_present _ t Ht Htne), Ht. cbn [default from_option id].
    unfold fetchYouTubeResults, bindM, emit, lift. by rewrite Hfetch. }
  rewrite Hrun.
  cbn [fst snd Server.cache Server.pendingRequests Server.replies responseCache].
  split_and!; [apply lookup_insert_eq | done | apply lookup_delete_eq].
Qed.

(** X23: what [fetchLeetCodeCandidates] makes of the provider's answer: a
    [TypeError], or one candidate for each question, in the order of the
    questions, with its title, difficulty and acceptance rate, a
    description made of these two, and the link of its slug.  An answer
    without [data] or without the list of questions gives a [TypeError],
    which nothing catches before the handler does: a [LeetCode] or
    [HackerRank] request so served is answered 500, nothing is cached, and
    the entry of its key stays in [pendingRequests]. *)
Theorem problem_provider_answer (data : value) :
  match leetCodeCandidates String_of data with
  | Throw e => isTypeError e
  | Normal candidates =>
      ∃ questions,
        Value.member "questions"
          (Value.member "problemsetQuestionList" (Value.member "data" data))
        = VArray questions
        ∧ length candidates = length questions
        ∧ ∀ i q, questions !! i = Some q →
            candidates !! i
            = Some (VObject
                [("title", Value.member "title" q);
                 ("difficulty", Value.member "difficulty" q);
                 ("acRate", Value.member "acRate" q);
                 ("description",
                  VString ("Difficulty: "
                    ++ template String_of (Value.member "difficulty" q)
                    ++ ", Acceptance Rate: "
                    ++ template String_of (Value.member "acRate" q)));
                 ("url",
                  VString ("https://leetcode.com/problems/"
                    ++ template String_of (Value.member "titleSlug" q)))])
  end
  ∧ (Value.nullish (Value.member "data" data) = true
     ∨ Value.nullish
         (Value.member "problemsetQuestionList" (Value.member "data" data))
       = true →
     (∃ msg, leetCodeCandidates String_of data = Throw (TypeError msg))
     ∧ ∀ w req summary dominantTopics t d arrival s,
         platform req = Some "LeetCode" ∨ platform req = Some "HackerRank" →
         topic req = Some t → t ≠ "" →
         description req = Some d → d ≠ "" →
         leetcode w t = leetCodeCandidates String_of data →
         hit (fst (Cache.getCache (cacheKey req) arrival (cache s))) = None →
         pendingRequests s !! cacheKey req = None →
         let s' :=
           run [Arrive req summary dominantTopics arrival;
                Settle (length (promises s)) w; Resume (arrivals s)] s in
         replies s' !! arrivals s = Some InternalServerError
         ∧ cache s' = snd (Cache.getCache (cacheKey req) arrival (cache s))
         ∧ pendingRequests s' !! cacheKey req = Some (length (promises s))).
Proof.
  split; [apply leetCodeCandidates_cases |].
  intros Hbad.
  assert (∃ msg, leetCodeCandidates String_of data = Throw (TypeError msg))
    as [msg Hthrow].
  { unfold leetCodeCandidates, andThen, Value.get.
    destruct (Value.nullish data) eqn:Hdata; [by eexists |].
    destruct (Value.nullish (Value.member "data" data)) eqn:Hinner;
      [by eexists |].
    destruct Hbad as [Hbad | Hbad]; [done |]. rewrite Hbad. by eexists. }
  split; [by exists msg |].
  intros w req summary dominantTopics t d arrival s Hplat Ht Htne Hd Hdne Hfetch
    Hmiss Hpending s'. subst s'.
  rewrite (lone_request_run JSON_parse String_of encodeURIComponent mentorPrompt
             rankingPrompt req summary dominantTopics arrival w s Hmiss Hpending).
  cbv zeta. rewrite Hthrow in Hfetch.
  assert (∀ s0, requestPromise w req summary dominantTopics s0
                = (Throw (TypeError msg),
                   {| responseCache := responseCache s0;
                      log := log s0 ++ [LeetCodeQuery t] |})) as Hrun.
  { intros s0. unfold Pipeline.requestPromise.
    destruct Hplat as [Hplat | Hplat]; rewrite Hplat;
      cbn [equals String.eqb Ascii.eqb Bool.eqb];
      unfold leetCode, hackerRank;
      rewrite (missing_present _ t Ht Htne), (missing_present _ d Hd Hdne), Ht, Hd;
      cbn [orb default from_option id];
      unfold fetchLeetCodeCandidates, bindM, emit, lift; by rewrite Hfetch. }
  rewrite Hrun.
  cbn [fst snd Server.cache Server.pendingRequests Server.replies responseCache].
  split_and!; [apply lookup_insert_eq | done | apply lookup_insert_eq].
Qed.

End ProviderFacts.

(** ** The samples, run *)

Lemma video_ranking_outcome_witness :
  let outcome :=
    Pipeline.requestPromise Scenario.parseMentor Scenario.noString
      Scenario.noEncoding Scenario.mentorPrompt Scenario.rankingPrompt
      (Samples.generationUp "Sorry, I cannot rank these.") Scenario.video "" []
      {| responseCache := ∅; log := [] |} in
  fst outcome
  = Normal (VObject [("recommendations", VArray (take 3 Samples.fourVideos))])
  ∧ responseCache (snd outcome)
    = {[ "YouTube-video-python" :=
           {| Cache.data :=
                VObject [("recommendations",
                          VArray (take 3 Samples.fourVideos))];
              Cache.timestamp := 5000 |} ]}.
Proof.
  apply (video_ranking_outcome Scenario.parseMentor Scenario.noString
           Scenario.noEncoding Scenario.mentorPrompt Scenario.rankingPrompt
           (Samples.generationUp "Sorry, I cannot rank these.") Scenario.video
           "" [] "python" "Sorry, I cannot rank these." Samples.fourVideos
           {| responseCache := ∅; log := [] |}).
  - reflexivity.
  - reflexivity.
  - discriminate.
  - reflexivity.
  - discriminate.
  - reflexivity.
Defined.

Lemma video_generation_down_caches_empty_list_witness :
  let outcome :=
    Pipeline.requestPromise Samples.parseEmptyList Scenario.noString
      Scenario.noEncoding Scenario.mentorPrompt Scenario.rankingPrompt
      Samples.generationDown Scenario.video "" []
      {| responseCache := ∅; log := [] |} in
  fst outcome = Normal (VObject [("recommendations", VArray [])])
  ∧ responseCache (snd outcome)
    = {[ "YouTube-video-python" :=
           {| Cache.data := VObject [("recommendations", VArray [])];
              Cache.timestamp := 5000 |} ]}.
Proof.
  apply (video_generation_down_caches_empty_list Samples.parseEmptyList
           Scenario.noString Scenario.noEncoding Scenario.mentorPrompt
           Scenario.rankingPrompt Samples.generationDown Scenario.video "" []
           "python" Samples.fourVideos {| responseCache := ∅; log := [] |}).
  - reflexivity.
  - reflexivity.
  - discriminate.
  - reflexivity.
  - discriminate.
  - intros prompt n. by eexists.
  - intros prompt n. by eexists.
  - reflexivity.
Defined.

Lemma reply_is_final_witness :
  let run :=
    Server.run Scenario.parseMentor Scenario.noString Scenario.noEncoding
      Scenario.mentorPrompt Scenario.rankingPrompt in
  let req := Scenario.practice "LeetCode" in
  let s := run [Server.Arrive req "" [] 1000;
                Server.Settle 0 Scenario.generationDown;
                Server.Resume 0] Server.init in
  let later := [Server.Arrive req "" [] 2000; Server.Resume 0;
                Server.Settle 0 Scenario.providerDown] in
  Server.replies (run later s) !! 0%nat
  = Some (Server.Json (VObject [("recommendations", VArray (take 5 Scenario.sevenProblems))])).
Proof.
  intros run req s later.
  apply (reply_is_final Scenario.parseMentor Scenario.noString
           Scenario.noEncoding Scenario.mentorPrompt Scenario.rankingPrompt
           [Server.Arrive req "" [] 1000;
            Server.Settle 0 Scenario.generationDown; Server.Resume 0]
           later 0
           (Server.Json (Pipeline.recommendations (take 5 Scenario.sevenProblems)))).
  by vm_compute.
Defined.

Lemma lone_request_outcome_witness :
  let s' :=
    Server.run Scenario.parseMentor Scenario.noString Scenario.noEncoding
      Scenario.mentorPrompt Scenario.rankingPrompt
      [Server.Arrive (Scenario.practice "HackerRank") "" [] 1000;
       Server.Settle 0 Scenario.providerDown; Server.Resume 0] Server.init in
  Server.computations s' = 1%nat
  ∧ Server.replies s' !! 0%nat = Some Server.InternalServerError
  ∧ Server.pendingRequests s' !! "HackerRank-solve-sum" = Some 0%nat.
Proof.
  intros s'.
  destruct (lone_request_outcome Scenario.parseMentor Scenario.noString
              Scenario.noEncoding Scenario.mentorPrompt Scenario.rankingPrompt
              (Scenario.practice "HackerRank") "" [] 1000
              Scenario.providerDown Server.init)
    as (Hone & _ & _ & Hout); [reflexivity | reflexivity |].
  destruct Hout as [Hreply Hpending]. by split_and!.
Defined.

Lemma practice_result_reused_witness :
  let s' :=
    Server.run Scenario.parseMentor Scenario.noString Scenario.noEncoding
      Scenario.mentorPrompt Scenario.rankingPrompt
      [Server.Arrive (Scenario.practice "LeetCode") "" [] 1000;
       Server.Settle 0 Scenario.generationDown; Server.Resume 0;
       Server.Arrive (Samples.practiceOfAnother "LeetCode")
         "User dominant interests: sum (1 interactions)" ["sum"] 60000]
      Server.init in
  ∃ body,
    Server.replies s' !! 0%nat = Some (Server.Json body)
    ∧ Server.replies s' !! 1%nat = Some (Server.Json body)
    ∧ Server.computations s' = 1%nat
    ∧ Server.pendingRequests s' !! "LeetCode-solve-sum" = None.
Proof.
  apply (practice_result_reused Scenario.parseMentor Scenario.noString
           Scenario.noEncoding Scenario.mentorPrompt Scenario.rankingPrompt
           (Scenario.practice "LeetCode") (Samples.practiceOfAnother "LeetCode")
           "" "User dominant interests: sum (1 interactions)" [] ["sum"]
           "sum" "Given an array of integers" Scenario.sevenProblems
           1000 60000 Scenario.generationDown Server.init).
  - reflexivity.
  - reflexivity.
  - discriminate.
  - reflexivity.
  - discriminate.
  - reflexivity.
  - reflexivity.
  - reflexivity.
  - reflexivity.
  - reflexivity.
  - reflexivity.
  - vm_compute. discriminate.
Defined.

Lemma catalogue_keeps_the_best_witness :
  ∃ (score : string → Z) (items : list value) (kept : list (string * Z))
    (dropped : string * Z),
    (∀ title, Scoring.scoreCourse title "python" ["python"]
              = Normal (score title))
    ∧ fst (Pipeline.requestPromise Scenario.parseMentor Scenario.noString
             Scenario.noEncoding Scenario.mentorPrompt Scenario.rankingPrompt
             Scenario.generationDown (Scenario.catalogue "Udemy") "" ["python"]
             {| responseCache := ∅; log := [] |})
      = Normal (VObject [("recommendations", VArray items)])
    ∧ map (Value.member "title") items = map (λ c, VString (fst c)) kept
    ∧ (∀ title,
         title ∈ [ "python Bootcamp"; "Complete python Masterclass";
                   "python Zero to Hero"; "python Interview Preparation";
                   "Hands-On python Projects"; "python for Professionals" ] →
         JsString.includes (JsString.toLowerCase title)
           (JsString.toLowerCase "python") = true)
    ∧ kept ++ [dropped]
      ≡ₚ map (λ title, (title, score title))
           [ "python Bootcamp"; "Complete python Masterclass";
             "python Zero to Hero"; "python Interview Preparation";
             "Hands-On python Projects"; "python for Professionals" ]
    ∧ (∀ c, c ∈ kept → snd dropped ≤ snd c ∧ 5 ≤ snd c).
Proof.
  apply (catalogue_keeps_the_best Scenario.parseMentor Scenario.noString
           Scenario.noEncoding Scenario.mentorPrompt Scenario.rankingPrompt
           Scenario.generationDown (Scenario.catalogue "Udemy") "" ["python"]
           "python" {| responseCache := ∅; log := [] |}).
  - right. reflexivity.
  - reflexivity.
  - discriminate.
  - reflexivity.
  - reflexivity.
Defined.

(** ** Requests that lack a field *)

Section MissingFields.
Import JsString Pipeline.
Variable JSON_parse : string → completion value.
Variable String_of : value → string.
Variable encodeURIComponent : string → string.
Variable mentorPrompt : string → value → string → string → string.
Variable rankingPrompt : string → string → list value → string.
Variable w : world.

Local Abbreviation requestPromise :=
  (Pipeline.requestPromise JSON_parse String_of encodeURIComponent mentorPrompt
     rankingPrompt w).


(** White space names no inherited member. *)
Lemma blank_not_inherited t :
  trim t = "" → Prototype.inherited (toLowerCase t) = false.
Proof.
  intros Hblank. apply not_true_iff_false. intros Hin.
  unfold Prototype.inherited in Hin. apply existsb_exists in Hin
    as (name & Hname & Heq).
  apply String.eqb_eq in Heq.
  assert (trim name = "") as Hn.
  { by rewrite <- Heq, toLowerCase_trim, Hblank. }
  unfold Prototype.members in Hname. cbn [In] in Hname.
  repeat (destruct Hname as [<- | Hname]; [discriminate Hn |]). done.
Qed.

(** X25: a topic of white space only is not counted, the profile is
    decayed and nothing more; the catalogue branches take it for a topic
    all the same and return five courses made around it. *)
Theorem blank_topic_is_served_but_not_counted (userId : string)
    (found : option Profile.profile) (req : request) (summary : string)
    (dominantTopics : list string) (t : string) (s : state) :
  topic req = Some t → t ≠ "" → trim t = "" →
  platform req = Some "Coursera" ∨ platform req = Some "Udemy" →
  Profile.loadAndUpdate userId found (VString t)
  = ([Profile.FindOne userId;
      Profile.Save userId
        (Profile.number <$> Profile.decay (default ∅ found))],
     Normal (Profile.number <$> Profile.decay (default ∅ found)))
  ∧ ∃ ranked,
      requestPromise req summary dominantTopics s
      = (Normal (VObject [("recommendations", VArray ranked)]), s)
      ∧ length ranked = 5%nat.
Proof.
  intros Ht Htne Hblank Hplat. split.
  - unfold Profile.loadAndUpdate. rewrite (reinforce_none (VString t)); [done |].
    unfold Profile.uncounted, Profile.hasTopic. rewrite Hblank. cbn.
    apply andb_false_r.
  - destruct (scores_exist t dominantTopics (blank_not_inherited t Hblank))
      as (score & _ & Hrank).
    destruct Hplat as [Hplat | Hplat].
    + rewrite (requestPromise_Coursera _ _ _ _ _ _ _ _ _ Hplat),
        (coursera_run _ _ _ t _ Ht Htne), Hrank.
      eexists. split; [reflexivity |]. rewrite length_map.
      match goal with |- context [map (λ title, (title, score title)) ?titles] =>
        by destruct (rank_six score titles eq_refl) as (Hlen & _) end.
    + rewrite (requestPromise_Udemy _ _ _ _ _ _ _ _ _ Hplat),
        (udemy_run _ _ _ t _ Ht Htne), Hrank.
      eexists. split; [reflexivity |]. rewrite length_map.
      match goal with |- context [map (λ title, (title, score title)) ?titles] =>
        by destruct (rank_six score titles eq_refl) as (Hlen & _) end.
Qed.

End MissingFields.

(** ** Expiry *)

Section Expiry.
Import Pipeline Server.
Variable JSON_parse : string → completion value.
Variable String_of : value → string.
Variable encodeURIComponent : string → string.
Variable mentorPrompt : string → value → string → string → string.
Variable rankingPrompt : string → string → list value → string.

Local Abbreviation run :=
  (Server.run JSON_parse String_of encodeURIComponent mentorPrompt rankingPrompt).
Local Abbreviation requestPromise :=
  (Pipeline.requestPromise JSON_parse String_of encodeURIComponent mentorPrompt
     rankingPrompt).

(** A [LeetCode] computation that got its candidates stores what it
    returns. *)
Lemma leetCode_stores req summary dominantTopics t d candidates w s0 :
  platform req = Some "LeetCode" →
  topic req = Some t → t ≠ "" →
  description req = Some d → d ≠ "" →
  leetcode w t = Normal candidates →
  ∃ body l,
    requestPromise w req summary dominantTopics s0
    = (Normal body,
       {| responseCache :=
            Cache.setCache (cacheKey req) body (now w) (responseCache s0);
          log := l |})
    ∧ Value.truthy body = true.
Proof.
  intros Hplat Ht Htne Hd Hdne Hfetch.
  rewrite (requestPromise_LeetCode JSON_parse String_of encodeURIComponent
             mentorPrompt rankingPrompt w req summary dominantTopics Hplat).
  rewrite (leetCode_run JSON_parse String_of mentorPrompt w req (cacheKey req)
             summary t d candidates s0 Ht Htne Hd Hdne Hfetch).
  pose proof (mentor_cache JSON_parse String_of mentorPrompt w t
                (difficulty req) d candidates summary (afterFetch t s0))
    as Hframe.
  destruct (Pipeline.mentor _ _ _ _ _ _ _ _ _ _) as [[result | e] s1] eqn:Hm;
    cbn [snd] in Hframe; rewrite Hframe; cbn [afterFetch responseCache].
  - exists result, (log s1). split; [done |].
    unfold Pipeline.mentor, bindM in Hm.
    destruct (rankAndGenerate _ _ _ _ _ _ _ _ _) as [[ai | e] s2]; [| done].
    unfold lift in Hm. injection Hm as Hm _. by eapply normalized_truthy.
  - by exists (recommendations (take 5 candidates)), (log s1).
Qed.

(** A request that misses the cache and finds nothing pending. *)
Lemma arrive_miss req summary dominantTopics now s :
  hit (fst (Cache.getCache (cacheKey req) now (cache s))) = None →
  pendingRequests s !! cacheKey req = None →
  arrive req summary dominantTopics now s
  = {| cache := snd (Cache.getCache (cacheKey req) now (cache s));
       pendingRequests :=
         <[cacheKey req := length (promises s)]> (pendingRequests s);
       promises := (promises s ++ [Pending req summary dominantTopics])%list;
       awaiting :=
         <[arrivals s := (cacheKey req, length (promises s))]> (awaiting s);
       replies := replies s;
       arrivals := S (arrivals s) |}.
Proof.
  intros Hmiss Hnone. unfold arrive.
  destruct (Cache.getCache (cacheKey req) now (cache s)) as [cached cache'].
  cbn [fst snd] in *. rewrite Hmiss. cbn. by rewrite Hnone.
Qed.

(** X26: the result of a [LeetCode] computation is not served once it is
    older than [CACHE_TTL].  A request for its key that arrives later
    removes the entry from the cache, starts a second computation and
    waits for it, the key being entered in [pendingRequests] again. *)
Theorem expired_result_is_recomputed (req req' : request)
    (summary summary' : string) (dominantTopics dominantTopics' : list string)
    (t d : string) (candidates : list value) (arrival later : Z) (w : world)
    (s : server) :
  platform req = Some "LeetCode" →
  topic req = Some t → t ≠ "" →
  description req = Some d → d ≠ "" →
  leetcode w t = Normal candidates →
  hit (fst (Cache.getCache (cacheKey req) arrival (cache s))) = None →
  pendingRequests s !! cacheKey req = None →
  platform req' = platform req →
  activity_type req' = activity_type req →
  topic req' = topic req →
  Cache.CACHE_TTL < later - now w →
  let s' :=
    run [Arrive req summary dominantTopics arrival;
         Settle (length (promises s)) w;
         Resume (arrivals s);
         Arrive req' summary' dominantTopics' later] s in
  computations s' = S (S (computations s))
  ∧ is_Some (replies s' !! arrivals s)
  ∧ awaiting s' !! S (arrivals s)
    = Some (cacheKey req, S (length (promises s)))
  ∧ pendingRequests s' !! cacheKey req = Some (S (length (promises s)))
  ∧ cache s' !! cacheKey req = None.
Proof.
  intros Hplat Ht Htne Hd Hdne Hfetch Hmiss Hnone Hp' Ha' Ht' Hold s'.
  assert (cacheKey req' = cacheKey req) as Hkey
    by (unfold cacheKey; by rewrite Hp', Ha', Ht').
  subst s'.
  change (run [Arrive req summary dominantTopics arrival;
               Settle (length (promises s)) w; Resume (arrivals s);
               Arrive req' summary' dominantTopics' later] s)
    with (run [Arrive req' summary' dominantTopics' later]
            (run [Arrive req summary dominantTopics arrival;
                  Settle (length (promises s)) w; Resume (arrivals s)] s)).
  rewrite (lone_request_run JSON_parse String_of encodeURIComponent mentorPrompt
             rankingPrompt req summary dominantTopics arrival w s Hmiss Hnone).
  cbv zeta.
  destruct (leetCode_stores req summary dominantTopics t d candidates w
              {| responseCache :=
                   snd (Cache.getCache (cacheKey req) arrival (cache s));
                 log := [] |} Hplat Ht Htne Hd Hdne Hfetch)
    as (body & l & -> & _).
  unfold Server.run. cbn [foldl Server.step fst snd responseCache].
  set (c0 := snd (Cache.getCache (cacheKey req) arrival (cache s))).
  assert (Cache.getCache (cacheKey req) later
            (Cache.setCache (cacheKey req) body (now w) c0)
          = (None, delete (cacheKey req) c0)) as Hexpired
    by (by apply getCache_expired).
  rewrite arrive_miss;
    cbn [Server.cache Server.pendingRequests Server.promises Server.awaiting
         Server.replies Server.arrivals]; rewrite ?Hkey, ?Hexpired.
  - unfold computations.
    cbn [Server.cache Server.pendingRequests Server.promises Server.awaiting
         Server.replies Server.arrivals snd].
    rewrite !length_app, length_insert, length_app. cbn [length].
    split_and!.
    + lia.
    + rewrite lookup_insert_eq. by eexists.
    + rewrite lookup_insert_eq. do 2 f_equal. lia.
    + rewrite lookup_insert_eq. f_equal. lia.
    + apply lookup_delete_eq.
  - done.
  - apply lookup_delete_eq.
Qed.

End Expiry.

(** ** Unusable answers *)

Section UnusableAnswer.
Import Pipeline.
Variable JSON_parse : string → completion value.
Variable String_of : value → string.
Variable encodeURIComponent : string → string.
Variable mentorPrompt : string → value → string → string → string.
Variable rankingPrompt : string → string → list value → string.
Variable w : world.

Local Abbreviation requestPromise :=
  (Pipeline.requestPromise JSON_parse String_of encodeURIComponent mentorPrompt
     rankingPrompt w).

(** When the assembly of the result throws. *)
Lemma normalized_Throw ai :
  (∃ e, normalized String_of ai = Throw e)
  ↔ Value.nullish ai = true
    ∨ (∃ e, spread (Value.member "similar_problems" ai) = Throw e)
    ∨ (∀ hints, Value.member "hints" ai ≠ VArray hints).
Proof.
  unfold normalized, andThen, Value.get.
  destruct (Value.nullish ai) eqn:Hai; [split; [by left | by eexists] |].
  destruct (spread (Value.member "similar_problems" ai)) as [similar | e] eqn:Hs.
  - unfold join.
    destruct (Value.member "hints" ai) as [| | | | | hints |] eqn:Hh;
      try (split; [right; by right | by eexists]).
    split; [by intros [e [=]] |].
    intros [[=] | [[e [=]] | Hno]]. by destruct (Hno hints).
  - split; [right; left; by eexists | by eexists].
Qed.

(** X27: a generated answer that cannot be used.  When the text of the
    gateway holds a braced span that parses, but to [null], or to a value
    whose [similar_problems] cannot be spread (it is neither an array nor a
    string) or whose [hints] is not an array, the assembly of the result
    throws a [TypeError] inside [try]: a [LeetCode] or [HackerRank] request
    is then answered with the first five candidates. *)
Theorem unusable_answer_falls_back (req : request) (summary : string)
    (dominantTopics : list string) (t d text span : string)
    (candidates : list value) (ai : value) (s : state) :
  platform req = Some "LeetCode" ∨ platform req = Some "HackerRank" →
  topic req = Some t → t ≠ "" →
  description req = Some d → d ≠ "" →
  leetcode w t = Normal candidates →
  fst (Gateway.generateWithAI w (mentorPrompt t (difficulty req) d summary)
         (afterFetch t s)) = Normal (VString text) →
  Extract.matchSpan "{" "}" text = Some span →
  JSON_parse span = Normal ai →
  Value.nullish ai = true
  ∨ (∃ e, spread (Value.member "similar_problems" ai) = Throw e)
  ∨ (∀ hints, Value.member "hints" ai ≠ VArray hints) →
  fst (requestPromise req summary dominantTopics s)
  = Normal (VObject [("recommendations", VArray (take 5 candidates))]).
Proof.
  intros Hplat Ht Htne Hd Hdne Hfetch Htext Hspan Hparse Hbad.
  apply normalized_Throw in Hbad as [e Hbad].
  assert (∃ s1, Pipeline.mentor JSON_parse String_of mentorPrompt w t
                  (difficulty req) d candidates summary (afterFetch t s)
                = (Throw e, s1)) as [s1 Hmentor].
  { unfold mentor, rankAndGenerate, bindM at 1 2.
    destruct (Gateway.generateWithAI w _ (afterFetch t s)) as [r s1].
    cbn [fst] in Htext. subst r. exists s1.
    unfold bindM, lift. cbn [Extract.matchText]. by rewrite Hspan, Hparse, Hbad. }
  destruct Hplat as [Hplat | Hplat].
  - rewrite (requestPromise_LeetCode _ _ _ _ _ _ _ _ _ Hplat).
    rewrite (leetCode_run _ _ _ _ _ _ _ _ _ _ _ Ht Htne Hd Hdne Hfetch).
    by rewrite Hmentor.
  - rewrite (requestPromise_HackerRank _ _ _ _ _ _ _ _ _ Hplat).
    rewrite (hackerRank_run _ _ _ _ _ _ _ _ _ _ _ Ht Htne Hd Hdne Hfetch).
    by rewrite Hmentor.
Qed.

End UnusableAnswer.

(** ** The profile a request leaves *)

Section UpdatedProfile.
Import JsString Profile Interests.
Variable Object_entries : profile → list (string * weight).
Hypothesis entries_of : ∀ p, Object_entries p ≡ₚ map_to_list p.




End UpdatedProfile.


Lemma blank_topic_is_served_but_not_counted_witness :
  let req :=
    {| Pipeline.userId := Some "u1"; Pipeline.platform := Some "Coursera";
       Pipeline.activity_type := Some "course"; Pipeline.topic := Some "  ";
       Pipeline.difficulty := VUndefined; Pipeline.description := None |} in
  Profile.loadAndUpdate "u1" (Some {[ "python" := Profile.number Num.one ]})
    (VString "  ")
  = ([Profile.FindOne "u1";
      Profile.Save "u1" {[ "python" := Profile.number Num.c098 ]}],
     Normal {[ "python" := Profile.number Num.c098 ]})
  ∧ ∃ ranked,
      Pipeline.requestPromise Scenario.parseMentor Scenario.noString
        Scenario.noEncoding Scenario.mentorPrompt Scenario.rankingPrompt
        Scenario.generationDown req "" [] {| responseCache := ∅; log := [] |}
      = (Normal (VObject [("recommendations", VArray ranked)]),
         {| responseCache := ∅; log := [] |})
      ∧ length ranked = 5%nat.
Proof.
  intros req.
  destruct (blank_topic_is_served_but_not_counted Scenario.parseMentor
              Scenario.noString Scenario.noEncoding Scenario.mentorPrompt
              Scenario.rankingPrompt Scenario.generationDown "u1"
              (Some {[ "python" := Profile.number Num.one ]}) req "" [] "  "
              {| responseCache := ∅; log := [] |})
    as [Hhead Hserved].
  - reflexivity.
  - discriminate.
  - reflexivity.
  - left. reflexivity.
  - split; [| exact Hserved]. rewrite Hhead. reflexivity.
Defined.

Lemma expired_result_is_recomputed_witness :
  let s' :=
    Server.run Scenario.parseMentor Scenario.noString Scenario.noEncoding
      Scenario.mentorPrompt Scenario.rankingPrompt
      [Server.Arrive (Scenario.practice "LeetCode") "" [] 1000;
       Server.Settle 0 Scenario.generationDown; Server.Resume 0;
       Server.Arrive (Samples.practiceOfAnother "LeetCode") "" [] 1805001]
      Server.init in
  Server.computations s' = 2%nat
  ∧ is_Some (Server.replies s' !! 0%nat)
  ∧ Server.awaiting s' !! 1%nat = Some ("LeetCode-solve-sum", 1%nat)
  ∧ Server.pendingRequests s' !! "LeetCode-solve-sum" = Some 1%nat
  ∧ Server.cache s' !! "LeetCode-solve-sum" = None.
Proof.
  apply (expired_result_is_recomputed Scenario.parseMentor Scenario.noString
           Scenario.noEncoding Scenario.mentorPrompt Scenario.rankingPrompt
           (Scenario.practice "LeetCode") (Samples.practiceOfAnother "LeetCode")
           "" "" [] [] "sum" "Given an array of integers"
           Scenario.sevenProblems 1000 1805001 Scenario.generationDown
           Server.init).
  - reflexivity.
  - reflexivity.
  - discriminate.
  - reflexivity.
  - discriminate.
  - reflexivity.
  - reflexivity.
  - reflexivity.
  - reflexivity.
  - reflexivity.
  - reflexivity.
  - reflexivity.
Defined.

Lemma unusable_answer_falls_back_witness :
  fst (Pipeline.requestPromise Samples.parseEmptyObject Scenario.noString
         Scenario.noEncoding Scenario.mentorPrompt Scenario.rankingPrompt
         (Scenario.generationUp "Here you are: {}") (Scenario.practice "HackerRank")
         "" [] {| responseCache := ∅; log := [] |})
  = Normal (VObject [("recommendations", VArray (take 5 Scenario.sevenProblems))]).
Proof.
  apply (unusable_answer_falls_back Samples.parseEmptyObject Scenario.noString
           Scenario.noEncoding Scenario.mentorPrompt Scenario.rankingPrompt
           (Scenario.generationUp "Here you are: {}")
           (Scenario.practice "HackerRank") "" [] "sum"
           "Given an array of integers" "Here you are: {}" "{}"
           Scenario.sevenProblems (VObject [])
           {| responseCache := ∅; log := [] |}).
  - right. reflexivity.
  - reflexivity.
  - discriminate.
  - reflexivity.
  - discriminate.
  - reflexivity.
  - reflexivity.
  - reflexivity.
  - reflexivity.
  - right. left. by eexists.
Defined.


Lemma weights_stay_in_range_witness :
  ∃ (updated : Profile.profile) (w : spec_float),
    snd (Profile.loadAndUpdate "u1"
           (Some {[ "python" := Profile.number Num.fifty ]})
           (VString " Python "))
    = Normal updated
    ∧ Profile.in_range updated
    ∧ updated !! "python" = Some (Profile.number w)
    ∧ Num.leb Num.one w = true ∧ Num.leb w Num.fifty = true.
Proof.
  destruct (weights_stay_in_range "u1"
              (Some {[ "python" := Profile.number Num.fifty ]})) as [_ Hcounted].
  - intros k v Hk. cbn in Hk. apply lookup_singleton_Some in Hk as [_ <-].
    eexists. by split_and!.
  - apply (Hcounted " Python "); [reflexivity | reflexivity |].
    left. by eexists.
Defined.

Lemma topic_keys_are_canonical_witness :
  (Profile.hasTopic " Python " = true ↔ Profile.normalize " Python " ≠ "")
  ∧ Profile.normalize (Profile.normalize " Python ")
    = Profile.normalize " Python "
  ∧ (Prototype.inherited (Profile.normalize " Python ") = true
     ↔ Profile.normalize " Python " = "constructor"
       ∨ Profile.normalize " Python " = "__proto__")
  ∧ (∀ t', JsString.isAscii t' = true →
           Profile.normalize t' = Profile.normalize " Python " →
           Profile.loadAndUpdate "u1" None (VString t')
           = Profile.loadAndUpdate "u1" None (VString " Python "))
  ∧ ∃ updated : Profile.profile,
      snd (Profile.loadAndUpdate "u1" None (VString " Python "))
      = Normal updated
      ∧ ∀ k, is_Some (updated !! k)
             ↔ is_Some ((∅ : Profile.profile) !! k)
               ∨ (k = Profile.normalize " Python "
                  ∧ Profile.normalize " Python " ≠ ""
                  ∧ Profile.normalize " Python " ≠ "__proto__").
Proof.
  apply (topic_keys_are_canonical "u1" None " Python "). reflexivity.
Defined.

Lemma scoreCourse_bounds_witness :
  ∃ score : Z,
    Scoring.scoreCourse "Python for Beginners" "Python" ["python"]
    = Normal score
    ∧ 0 ≤ score ≤ 26 + 2 * 1
    ∧ 5 ≤ score.
Proof.
  destruct (scoreCourse_bounds "Python for Beginners" "Python" ["python"])
    as (_ & _ & Hscore); [reflexivity | reflexivity |].
  destruct (Hscore eq_refl) as (score & Hrun & Hbounds & Hdirect & _).
  exists score. split_and!; [exact Hrun | apply Hbounds | apply Hbounds |].
  by apply Hdirect.
Defined.
